(** * Keypoint acquisition pipeline of the 2D-to-3D notebooks

    A shallow embedding of the data-acquisition cells of the notebooks
    ([get_keypoints], [get_face], [get_hands], [get_body], [padding_seq],
    [normalize], the train/validation/test split and [stats]) together with
    the properties that the design document states about them and further
    properties of the pipeline that they form.

    Python lists are Rocq lists, the 2-tuples of per-person sequences are
    pairs, exceptions are values of [PyExc] carried by the error monad [res],
    and the local variables of [get_hands] that may be unbound are options in
    an explicit state record.  NumPy's reductions are written out over the
    operations on doubles that they use, in the order in which [np.sum] adds,
    and are run on the doubles themselves in the examples. *)

From Stdlib Require Import ZArith String Ascii Lia ZifyNat.
From Stdlib Require Import PrimFloat FloatOps FloatAxioms SpecFloat.

From stdpp Require Import base list strings pretty.

Local Open Scope Z_scope.
Local Open Scope nat_scope.

(** ** Python exceptions and the error monad *)

Inductive PyExc : Type :=
| KeyError (key : string)
| IndexError (msg : string)
| UnboundLocalError (var : string)
| ValueError (msg : string)
| OverflowError (msg : string).

(** [str(e)]: a [KeyError] prints the [repr] of its key, the others print
    their message. *)
Definition str_exc (e : PyExc) : string :=
  match e with
  | KeyError k => "'" +:+ k +:+ "'"
  | IndexError m => m
  | UnboundLocalError v =>
      "local variable '" +:+ v +:+ "' referenced before assignment"
  | ValueError m => m
  | OverflowError m => m
  end.

(** [needle in hay] on strings. *)
Fixpoint py_in (needle hay : string) : bool :=
  if String.prefix needle hay then true
  else match hay with
       | EmptyString => false
       | String _ rest => py_in needle rest
       end.

Inductive res (A : Type) : Type :=
| Ok (a : A)
| Raise (e : PyExc).
Arguments Ok {A} a.
Arguments Raise {A} e.

Definition bind {A B : Type} (m : res A) (k : A -> res B) : res B :=
  match m with
  | Ok a => k a
  | Raise e => Raise e
  end.

Notation "x <- m ;; k" := (bind m (fun x => k))
  (at level 100, m at next level, right associativity).

Definition list_index_msg : string := "list index out of range".
Definition tuple_index_msg : string := "tuple index out of range".

(** ** Python list primitives *)

Section PyList.
Context {A : Type}.

(** [l[c]] for a non-negative [c]. *)
Definition py_index (l : list A) (c : nat) : res A :=
  match l !! c with
  | Some x => Ok x
  | None => Raise (IndexError list_index_msg)
  end.

(** [l[start::step]]: the elements at [start], [start+step], ...
    [skip] counts the elements still to be passed over. *)
Fixpoint slice_step_aux (step skip : nat) (l : list A) : list A :=
  match l with
  | [] => []
  | x :: t =>
      match skip with
      | 0 => x :: slice_step_aux step (step - 1) t
      | S s => slice_step_aux step s t
      end
  end.

Definition py_slice_step (start step : nat) (l : list A) : list A :=
  slice_step_aux step start l.

(** [[l[item] for item in range(len(x)) for l in [x, y]]]. *)
Fixpoint two_coord_loop (x y : list A) (items : list nat) : res (list A) :=
  match items with
  | [] => Ok []
  | item :: rest =>
      xi <- py_index x item ;;
      yi <- py_index y item ;;
      vs <- two_coord_loop x y rest ;;
      Ok (xi :: yi :: vs)
  end.

Definition two_coord (x y : list A) : res (list A) :=
  two_coord_loop x y (seq 0 (length x)).

(** The list that this comprehension builds from two lists of the same
    length, written by recursion on the lists. *)
Fixpoint interleave (x y : list A) : list A :=
  match x, y with
  | a :: x', b :: y' => a :: b :: interleave x' y'
  | _, _ => []
  end.

(** [files[1:]], [files[:-1]] and [files[1:-1]]. *)
Definition drop_first (l : list A) : list A := drop 1 l.
Definition drop_last (l : list A) : list A := take (length l - 1) l.
Definition drop_first_last (l : list A) : list A :=
  drop 1 (take (length l - 1) l).
End PyList.

(** The 2-tuple [([], [])] of per-person sequences; indexing it with anything
    but 0 or 1 raises (the index is a counter and never negative). *)
Definition slots (E : Type) : Type := (list E * list E)%type.

Definition slots_append {E : Type} (t : slots E) (i : nat) (v : E)
  : res (slots E) :=
  match i with
  | 0 => Ok (t.1 ++ [v], t.2)
  | 1 => Ok (t.1, t.2 ++ [v])
  | _ => Raise (IndexError tuple_index_msg)
  end.

(** The tuple after a successful [t[i].append(v)]. *)
Definition slots_push {E : Type} (t : slots E) (i : nat) (v : E) : slots E :=
  match i with
  | 0 => (t.1 ++ [v], t.2)
  | _ => (t.1, t.2 ++ [v])
  end.

(** ** Face and body extractors

    [get_face] and [get_body] are the same loop up to the stride of the flat
    landmark list (3 for [x,y,z], 4 for [x,y,z,confidence]), the widths of the
    zero vectors and the trimming of the file list.  A person entry carries
    its [id] and the flat list found under [face70.landmarks] or
    [joints26]. *)

Section Extractors.
Context {F : Type} (zero : F).

Record person : Type := Person { id : Z; landmarks : list F }.

Definition frame : Type := list person.
Definition seqs : Type := (slots (list F) * slots (list F))%type.

Definition empty_seqs : seqs := (([], []), ([], [])).

(** [person['id'] != -1]. *)
Definition is_valid (p : person) : bool := negb (id p =? -1)%Z.

(** The flat list holds whole joints of [stride] values each. *)
Definition well_formed (stride : nat) (p : person) : Prop :=
  exists n, length (landmarks p) = stride * n.

(** [planar] and [depth] are the de-interleaving of the [n] joints of the
    flat list [l]: [x1,y1,...,xn,yn] and [z1,...,zn]. *)
Definition deinterleaved (stride n : nat) (l planar depth : list F) : Prop :=
  length planar = 2 * n /\
  length depth = n /\
  forall j, j < n ->
    planar !! (2 * j) = l !! (stride * j) /\
    planar !! (2 * j + 1) = l !! (stride * j + 1) /\
    depth !! j = l !! (stride * j + 2).

(** The four assignments [x], [y], [two_coord], [third_coord]. *)
Definition split_coords (stride : nat) (l : list F) : res (list F * list F) :=
  let x := py_slice_step 0 stride l in
  let y := py_slice_step 1 stride l in
  two_coord <- two_coord x y ;;
  let third_coord := py_slice_step 2 stride l in
  Ok (two_coord, third_coord).

(** The body of [for person in ...: if person['id'] != -1: ...]. *)
Definition keypoint_person (stride : nat) (st : seqs) (i : nat) (p : person)
  : res (seqs * nat) :=
  if is_valid p then
    c <- split_coords stride (landmarks p) ;;
    s2 <- slots_append st.1 i c.1 ;;
    s3 <- slots_append st.2 i c.2 ;;
    Ok ((s2, s3), S i)
  else Ok (st, i).

Fixpoint people_loop (stride : nat) (st : seqs) (i : nat) (people : frame)
  : res (seqs * nat) :=
  match people with
  | [] => Ok (st, i)
  | p :: rest =>
      r <- keypoint_person stride st i p ;;
      people_loop stride r.1 r.2 rest
  end.

(** One iteration of [for f in files[...]]: [i = 0], the loop over the
    people, then [if i<2: ...append(zeros)]. *)
Definition keypoint_frame (stride w2 w3 : nat) (st : seqs) (people : frame)
  : res seqs :=
  r <- people_loop stride st 0 people ;;
  let st' := r.1 in
  let i := r.2 in
  if i <? 2 then
    s2 <- slots_append st'.1 i (replicate w2 zero) ;;
    s3 <- slots_append st'.2 i (replicate w3 zero) ;;
    Ok (s2, s3)
  else Ok st'.

Fixpoint frames_loop (stride w2 w3 : nat) (st : seqs) (files : list frame)
  : res seqs :=
  match files with
  | [] => Ok st
  | f :: rest =>
      st' <- keypoint_frame stride w2 w3 st f ;;
      frames_loop stride w2 w3 st' rest
  end.

Definition face_frame : seqs -> frame -> res seqs := keypoint_frame 3 140 70.
Definition body_frame : seqs -> frame -> res seqs := keypoint_frame 4 52 26.

Definition get_face (files : list frame) : res seqs :=
  frames_loop 3 140 70 empty_seqs (drop_first files).

Definition get_body (files : list frame) : res seqs :=
  frames_loop 4 52 26 empty_seqs (drop_last files).
End Extractors.

Arguments Person {F} id landmarks.

(** ** Hands extractor

    A person entry of a hands frame may lack [left_hand] or [right_hand];
    [get_hands] detects that by catching the exception and testing its
    message.  The locals [hands] and [hands_3d] belong to the whole function,
    so they keep the value of their last assignment across people and frames
    and are unbound until the first one. *)

Section Hands.
Context {F : Type} (zero : F).

Record hand_person : Type := HandPerson {
  hid : Z;
  left_hand : option (list F);
  right_hand : option (list F)
}.

Inductive hand_key : Type := LeftHand | RightHand.

Definition key_name (k : hand_key) : string :=
  match k with
  | LeftHand => "left_hand"
  | RightHand => "right_hand"
  end.

(** [person[hand]['landmarks']]. *)
Definition hand_landmarks (p : hand_person) (k : hand_key) : res (list F) :=
  match (match k with LeftHand => left_hand p | RightHand => right_hand p end) with
  | Some l => Ok l
  | None => Raise (KeyError (key_name k))
  end.

(** A value held by [hands] or [hands_3d] and appended to a sequence: the
    try block binds the two-element list of per-hand lists, the handler a
    flat vector. *)
Inductive hands_val : Type :=
| Flat (v : list F)
| Nested (l r : list F).

Fixpoint hand_pick_loop (p : hand_person) (hand : hand_key) (cs : list nat)
  : res (list F) :=
  match cs with
  | [] => Ok []
  | c :: rest =>
      if ((c + 1) mod 3 =? 0) then hand_pick_loop p hand rest
      else l <- hand_landmarks p hand ;;
           v <- py_index l c ;;
           vs <- hand_pick_loop p hand rest ;;
           Ok (v :: vs)
  end.

(** [[person[hand]['landmarks'][c]
      for c in range(len(person[range_hand]['landmarks'])) if (c+1)%3!=0]];
    the range is evaluated before the first element. *)
Definition hand_xy (p : hand_person) (hand range_hand : hand_key)
  : res (list F) :=
  r <- hand_landmarks p range_hand ;;
  hand_pick_loop p hand (seq 0 (length r)).

(** [person[hand]['landmarks'][2::3]]. *)
Definition hand_z (p : hand_person) (hand : hand_key) : res (list F) :=
  l <- hand_landmarks p hand ;;
  Ok (py_slice_step 2 3 l).

Record hstate : Type := HState {
  hand_2D_seq : slots hands_val;
  hand_3D_seq : slots hands_val;
  v_hands : option hands_val;
  v_hands_3d : option hands_val
}.

Definition init_hstate : hstate := HState ([], []) ([], []) None None.

Definition set_2D (st : hstate) (s : slots hands_val) : hstate :=
  HState s (hand_3D_seq st) (v_hands st) (v_hands_3d st).
Definition set_3D (st : hstate) (s : slots hands_val) : hstate :=
  HState (hand_2D_seq st) s (v_hands st) (v_hands_3d st).
Definition set_hands (st : hstate) (h : hands_val) : hstate :=
  HState (hand_2D_seq st) (hand_3D_seq st) (Some h) (v_hands_3d st).
Definition set_hands_3d (st : hstate) (h : hands_val) : hstate :=
  HState (hand_2D_seq st) (hand_3D_seq st) (v_hands st) (Some h).

(** The [try:] block.  What it did before an exception stays done; the
    exception, if any, is returned next to the state. *)
Definition try_block (st : hstate) (i : nat) (p : hand_person)
  : hstate * option PyExc :=
  match (l <- hand_xy p LeftHand RightHand ;;
         r <- hand_xy p RightHand RightHand ;;
         Ok (l, r)) with
  | Raise e => (st, Some e)
  | Ok (l, r) =>
      let st1 := set_hands st (Nested l r) in
      match slots_append (hand_2D_seq st1) i (Flat (l ++ r)) with
      | Raise e => (st1, Some e)
      | Ok s2 =>
          let st2 := set_2D st1 s2 in
          match (l3 <- hand_z p LeftHand ;;
                 r3 <- hand_z p RightHand ;;
                 Ok (l3, r3)) with
          | Raise e => (st2, Some e)
          | Ok (l3, r3) =>
              let st3 := set_hands_3d st2 (Nested l3 r3) in
              match slots_append (hand_3D_seq st3) i (Flat (l3 ++ r3)) with
              | Raise e => (st3, Some e)
              | Ok s3 => (set_3D st3 s3, None)
              end
          end
      end
  end.

(** The branches of [except Exception as e:] that choose the substitute
    vectors; when the message names neither hand nothing is assigned. *)
Definition recover (e : PyExc) (st : hstate) (p : hand_person) : res hstate :=
  if py_in "left_hand" (str_exc e) then
    match (rxy <- hand_xy p RightHand RightHand ;;
           rz <- hand_z p RightHand ;;
           Ok (rxy, rz)) with
    | Ok (rxy, rz) =>
        Ok (set_hands_3d (set_hands st (Flat (replicate 42 zero ++ rxy)))
              (Flat (replicate 21 zero ++ rz)))
    | Raise _ =>
        Ok (set_hands_3d (set_hands st (Flat (replicate 84 zero)))
              (Flat (replicate 42 zero)))
    end
  else if py_in "right_hand" (str_exc e) then
    lxy <- hand_xy p LeftHand LeftHand ;;
    lz <- hand_z p LeftHand ;;
    Ok (set_hands_3d (set_hands st (Flat (lxy ++ replicate 42 zero)))
          (Flat (lz ++ replicate 21 zero)))
  else Ok st.

(** [seq[i].append(var)]: the subscript is evaluated before the variable
    is read. *)
Definition append_local (t : slots hands_val) (i : nat)
    (var : option hands_val) (name : string) : res (slots hands_val) :=
  if i <? 2 then
    match var with
    | Some h => slots_append t i h
    | None => Raise (UnboundLocalError name)
    end
  else Raise (IndexError tuple_index_msg).

Definition handler (e : PyExc) (st : hstate) (i : nat) (p : hand_person)
  : res hstate :=
  st1 <- recover e st p ;;
  s2 <- append_local (hand_2D_seq st1) i (v_hands st1) "hands" ;;
  s3 <- append_local (hand_3D_seq st1) i (v_hands_3d st1) "hands_3d" ;;
  Ok (set_3D (set_2D st1 s2) s3).

Definition hands_person (st : hstate) (i : nat) (p : hand_person)
  : res (hstate * nat) :=
  if (hid p =? -1)%Z then Ok (st, i)
  else
    match try_block st i p with
    | (st1, None) => Ok (st1, S i)
    | (st1, Some e) =>
        st2 <- handler e st1 i p ;;
        Ok (st2, S i)
    end.

Fixpoint hands_people_loop (st : hstate) (i : nat) (people : list hand_person)
  : res (hstate * nat) :=
  match people with
  | [] => Ok (st, i)
  | p :: rest =>
      r <- hands_person st i p ;;
      hands_people_loop r.1 r.2 rest
  end.

Definition hands_frame (st : hstate) (people : list hand_person)
  : res hstate :=
  r <- hands_people_loop st 0 people ;;
  let st' := r.1 in
  let i := r.2 in
  if i <? 2 then
    s2 <- slots_append (hand_2D_seq st') i (Flat (replicate 84 zero)) ;;
    s3 <- slots_append (hand_3D_seq st') i (Flat (replicate 42 zero)) ;;
    Ok (set_3D (set_2D st' s2) s3)
  else Ok st'.

Fixpoint hands_frames_loop (st : hstate) (files : list (list hand_person))
  : res hstate :=
  match files with
  | [] => Ok st
  | f :: rest =>
      st' <- hands_frame st f ;;
      hands_frames_loop st' rest
  end.

Definition get_hands (files : list (list hand_person))
  : res (slots hands_val * slots hands_val) :=
  st <- hands_frames_loop init_hstate (drop_first_last files) ;;
  Ok (hand_2D_seq st, hand_3D_seq st).
End Hands.

Arguments HandPerson {F} hid left_hand right_hand.
Arguments Flat {F} v.
Arguments Nested {F} l r.
Arguments HState {F} _ _ _ _.
Arguments init_hstate {F}.



(** ** Sequence padder

    [padding_seq] appends to the sequences in place.  The sequences are list
    objects on a heap and [dataset] is the list of references to them, so two
    entries of [dataset] may be the same object.  The two notebooks differ
    only in the element that is appended, which [mk] computes from the
    sequence at each append. *)

Definition max_empty_msg : string := "max() arg is an empty sequence".

(** [max(ns)]. *)
Definition py_max (ns : list nat) : res nat :=
  match ns with
  | [] => Raise (ValueError max_empty_msg)
  | n :: rest => Ok (foldl Nat.max n rest)
  end.

(** The heap: the list objects that the references of [dataset] point
    to. *)
Abbreviation heap E := (list (list E)) (only parsing).

Section Padding.
Context {E : Type} (mk : list E -> res E).

(** The object behind reference [r]; a reference outside the heap reads as
    the empty list and the statements below keep references in range. *)
Definition obj (h : heap E) (r : nat) : list E := default [] (h !! r).

(** [for i in range(count): seq.append(mk seq)]. *)
Fixpoint pad_loop (count : nat) (seq : list E) : res (list E) :=
  match count with
  | 0 => Ok seq
  | S c => e <- mk seq ;; pad_loop c (seq ++ [e])
  end.

(** [for seq in dataset: ...]; [range(max_seq-len(seq))] is empty when the
    difference is not positive. *)
Fixpoint pad_refs (max_seq : nat) (h : heap E) (dataset : list nat)
  : res (heap E) :=
  match dataset with
  | [] => Ok h
  | r :: rest =>
      seq' <- pad_loop (max_seq - length (obj h r)) (obj h r) ;;
      pad_refs max_seq (<[r := seq']> h) rest
  end.

Definition padding_with (h : heap E) (dataset : list nat)
  : res (heap E * nat) :=
  max_seq <- py_max (map (fun r => length (obj h r)) dataset) ;;
  h' <- pad_refs max_seq h dataset ;;
  Ok (h', max_seq).
End Padding.

Section Padders.
Context {F : Type} (zero nan : F).

(** [[np.nan for j in range(len(seq[0]))]]. *)
Definition nan_vector (seq : list (list F)) : res (list F) :=
  first <- py_index seq 0 ;;
  Ok (replicate (length first) nan).

(** [padding_seq(dataset)] of the full-keypoint notebooks. *)
Definition padding_seq (h : heap (list F)) (dataset : list nat)
  : res (heap (list F) * nat) :=
  padding_with nan_vector h dataset.

(** An element of a sequence of the single-keypoint notebook: the pair
    [[x, y]] of an input sequence or the scalar [z] of a label sequence. *)
Inductive kp_elem : Type :=
| Scalar (z : F)
| Vector (v : list F).

(** [np.nan if labels else [0., 0.]]. *)
Definition kp_pad (labels : bool) : kp_elem :=
  if labels then Scalar nan else Vector [zero; zero].

(** [padding_seq(dataset, labels)] of the single-keypoint notebook. *)
Definition padding_seq_kp (h : heap kp_elem) (dataset : list nat)
    (labels : bool) : res (heap kp_elem * nat) :=
  padding_with (fun _ => Ok (kp_pad labels)) h dataset.
End Padders.

Arguments Scalar {F} z.
Arguments Vector {F} v.

(** ** NumPy arithmetic and reductions

    The statistics are computed by NumPy on doubles.  [np_arith] collects
    the operations on doubles that the notebooks use; [double_arith] is the
    instance on the doubles themselves.

    [np.sum] of a contiguous array of doubles adds to [0.] the pairwise sum
    of its entries in row-major order: a plain loop from [0.] for fewer than
    8 entries, eight interleaved partial sums for up to 128 entries, and the
    sum of two halves beyond that.  [np.nanmean] and [np.nanvar] put [0.] in
    place of the NaN entries, sum the whole array and divide by the number
    of entries that are not NaN. *)

Record np_arith (F : Type) : Type := NpArith {
  fis_nan : F -> bool;
  fzero : F;
  fnan : F;
  finf : F;
  fadd : F -> F -> F;
  fsub : F -> F -> F;
  fmul : F -> F -> F;
  fdiv : F -> F -> F;
  fsqrt : F -> F;
  fabs : F -> F;
  flt : F -> F -> bool;
  fcount : nat -> F
}.

Arguments NpArith {F} _ _ _ _ _ _ _ _ _ _ _ _.
Arguments fis_nan {F} _ _.
Arguments fzero {F} _.
Arguments fnan {F} _.
Arguments finf {F} _.
Arguments fadd {F} _ _ _.
Arguments fsub {F} _ _ _.
Arguments fmul {F} _ _ _.
Arguments fdiv {F} _ _ _.
Arguments fsqrt {F} _ _.
Arguments fabs {F} _ _.
Arguments flt {F} _ _ _.
Arguments fcount {F} _ _.

(** The double [n.] of a count [n], exact below 2^53. *)
Fixpoint float_of_nat (n : nat) : float :=
  match n with
  | 0 => 0%float
  | S k => (float_of_nat k + 1)%float
  end.

Definition double_arith : np_arith float :=
  NpArith PrimFloat.is_nan 0%float nan infinity PrimFloat.add PrimFloat.sub
          PrimFloat.mul PrimFloat.div PrimFloat.sqrt PrimFloat.abs
          PrimFloat.ltb float_of_nat.

(** The entries of [xs] that are not NaN. *)
Definition not_nan {F : Type} (is_nan : F -> bool) (xs : list F) : list F :=
  List.filter (fun v => negb (is_nan v)) xs.

Section Reductions.
Context {F : Type} (ops : np_arith F).

(** [for x in a: res += x]. *)
Definition sum_from (res : F) (a : list F) : F := foldl (fadd ops) res a.

(** [blocks] rounds of [r[j] += a[i+j]] for [j] in 0..7. *)
Fixpoint lanes (blocks : nat) (r a : list F) : list F * list F :=
  match blocks with
  | 0 => (r, a)
  | S b => lanes b (zip_with (fadd ops) r (take 8 a)) (drop 8 a)
  end.

(** The branch for 8 to 128 entries: the partial sums [r[0..7]] over the
    blocks of eight, combined as a tree, then the entries left over. *)
Definition block_sum (a : list F) : F :=
  let ra := lanes (length a / 8 - 1) (take 8 a) (drop 8 a) in
  match ra.1 with
  | [r0; r1; r2; r3; r4; r5; r6; r7] =>
      sum_from
        (fadd ops
           (fadd ops (fadd ops r0 r1) (fadd ops r2 r3))
           (fadd ops (fadd ops r4 r5) (fadd ops r6 r7)))
        ra.2
  | _ => sum_from (fzero ops) a
  end.

(** The pairwise sum; [fuel] bounds the depth of the halving and
    [length a] is always enough. *)
Fixpoint pairwise_sum (fuel : nat) (a : list F) : F :=
  if length a <? 8 then sum_from (fzero ops) a
  else if length a <=? 128 then block_sum a
  else
    match fuel with
    | 0 => sum_from (fzero ops) a
    | S f =>
        let n2 := length a / 2 - (length a / 2) mod 8 in
        fadd ops (pairwise_sum f (take n2 a)) (pairwise_sum f (drop n2 a))
    end.

(** [np.sum(a)] of a contiguous array of doubles. *)
Definition np_sum (a : list F) : F :=
  fadd ops (fzero ops) (pairwise_sum (length a) a).

(** [_replace_nan(a, 0)]. *)
Definition replace_nan (xs : list F) : list F :=
  map (fun x => if fis_nan ops x then fzero ops else x) xs.

(** The number of entries that are not NaN, as [np.sum(~mask)] counts
    them. *)
Definition count_kept (xs : list F) : nat := length (not_nan (fis_nan ops) xs).

(** [np.nanmean(a)] on the entries of [a] in row-major order. *)
Definition nanmean (xs : list F) : F :=
  fdiv ops (np_sum (replace_nan xs)) (fcount ops (count_kept xs)).

(** The squared deviations that [np.nanvar] sums: [0.*0.] at a NaN entry. *)
Definition squared_deviations (xs : list F) : list F :=
  map (fun x =>
         let d := if fis_nan ops x then fzero ops
                  else fsub ops x (nanmean xs) in
         fmul ops d d) xs.

(** [np.nanvar(a)]: NaN when no entry is kept. *)
Definition nanvar (xs : list F) : F :=
  if count_kept xs =? 0 then fnan ops
  else fdiv ops (np_sum (squared_deviations xs)) (fcount ops (count_kept xs)).

(** [np.nanstd(a)]. *)
Definition nanstd (xs : list F) : F := fsqrt ops (nanvar xs).
End Reductions.

(** ** Normalizer

    [np.subtract] and [np.divide] are the subtraction and the division of
    [np_arith], entry by entry. *)

Section Normalize.
Context {F : Type} (ops : np_arith F).

(** Shape (slots, time, channels). *)
Definition tensor : Type := list (list (list F)).

(** The entries of the view [tensor[:, :, i::coordinates]]. *)
Definition subchannel (t : tensor) (i coordinates : nat) : list F :=
  concat (map (fun slot => concat (map (py_slice_step i coordinates) slot)) t).

(** [v[start::step] = f(v[start::step])] on one vector. *)
Fixpoint map_step_aux (f : F -> F) (step skip : nat) (v : list F) : list F :=
  match v with
  | [] => []
  | x :: t =>
      match skip with
      | 0 => f x :: map_step_aux f step (step - 1) t
      | S s => x :: map_step_aux f step s t
      end
  end.

(** The two in-place assignments to [subtensor[:]]. *)
Definition rescale (t : tensor) (j coordinates : nat) (m s : F) : tensor :=
  map (map (map_step_aux (fun v => fdiv ops (fsub ops v m) s) coordinates j)) t.

Fixpoint rescale_loop (t : tensor) (coordinates : nat)
    (js : list nat) (stats : list (F * F)) : tensor :=
  match js, stats with
  | j :: js', (m, s) :: stats' =>
      rescale_loop (rescale t j coordinates m s) coordinates js' stats'
  | _, _ => t
  end.

(** The tensor after the call and the returned list of pairs. *)
Definition normalize (t : tensor) (coordinates : nat)
  : tensor * list (F * F) :=
  let mean_value :=
    map (fun i => nanmean ops (subchannel t i coordinates))
      (seq 0 coordinates) in
  let std_value :=
    map (fun i => nanstd ops (subchannel t i coordinates))
      (seq 0 coordinates) in
  let stats := zip mean_value std_value in
  (rescale_loop t coordinates (seq 0 coordinates) stats, stats).
End Normalize.

(** ** Train / validation / test split *)

(** [round(num/den)] for [den > 0]: to the nearest integer, ties to the even
    one. *)
Definition py_round_ratio (num den : Z) : Z :=
  let q := (num / den)%Z in
  let r := (num mod den)%Z in
  if (2 * r <? den)%Z then q
  else if (den <? 2 * r)%Z then (q + 1)%Z
  else if Z.even q then q else (q + 1)%Z.

Definition round_nan_msg : string := "cannot convert float NaN to integer".
Definition round_inf_msg : string :=
  "cannot convert float infinity to integer".

(** [round(x)] of a double [x]: the integer nearest to the value of the
    double, ties to the even one; a NaN and the infinities raise. *)
Definition py_round (x : float) : res Z :=
  match Prim2SF x with
  | S754_zero _ => Ok 0%Z
  | S754_infinity _ => Raise (OverflowError round_inf_msg)
  | S754_nan => Raise (ValueError round_nan_msg)
  | S754_finite s m e =>
      let mag :=
        if (0 <=? e)%Z then (Z.pos m * 2 ^ e)%Z
        else py_round_ratio (Z.pos m) (2 ^ (- e)) in
      Ok (if s then (- mag)%Z else mag)
  end.

(** [round(0.67*l1)] and [round(0.85*l1)]: the product is taken in doubles,
    of the double nearest to 0.67 (to 0.85) and the length as a double
    ([float_of_nat], exact below 2^53), and is not negative, so that the
    result is a position in the list. *)
Definition bound_67 (n : nat) : res nat :=
  k <- py_round (0x1.570a3d70a3d71p-1 * float_of_nat n)%float ;;
  Ok (Z.to_nat k).
Definition bound_85 (n : nat) : res nat :=
  k <- py_round (0x1.b333333333333p-1 * float_of_nat n)%float ;;
  Ok (Z.to_nat k).

Section Split.
Context {A : Type}.

(** [l[a:b]] for non-negative bounds. *)
Definition py_slice (a b : nat) (l : list A) : list A :=
  take (b - a) (drop a l).

(** [dataset[:a], dataset[a:b], dataset[b:]]. *)
Definition split_at (a b : nat) (dataset : list A)
  : list A * list A * list A :=
  (take a dataset, py_slice a b dataset, drop b dataset).

(** The split cell, with [a = round(0.67*l1)] and [b = round(0.85*l1)]. *)
Definition split_dataset (dataset : list A)
  : res (list A * list A * list A) :=
  let l1 := length dataset in
  a <- bound_67 l1 ;;
  b <- bound_85 l1 ;;
  Ok (split_at a b dataset).
End Split.

(** ** Session aggregator and corpus builder

    [get_keypoints] runs the three extractors on every recording folder and
    zips their sequences per slot.  A recording is given by the parsed files
    of its three keypoint folders, in the sorted order that the extractors
    list them in. *)

Section Aggregator.
Context {F : Type} (zero : F).

Record recording : Type := Recording {
  hdFace3d : list (@frame F);
  hdHand3d : list (list (@hand_person F));
  hdPose3d_stage1_op25 : list (@frame F)
}.

(** An entry of a concatenated vector: a coordinate, or one of the two
    per-hand lists when the hands element is the nested list that a stale
    [hands] holds. *)
Inductive cell : Type :=
| Num (x : F)
| Sub (l : list F).

Definition hands_cells (ha : @hands_val F) : list cell :=
  match ha with
  | Flat v => map Num v
  | Nested l r => [Sub l; Sub r]
  end.

(** [fa+ha+po]. *)
Definition concat_frame (fa : list F) (ha : @hands_val F) (po : list F)
  : list cell :=
  map Num fa ++ hands_cells ha ++ map Num po.

(** [[fa+ha+po for fa, ha, po in zip(face, hands, pose)]]; [zip] stops at
    the shortest of the three. *)
Fixpoint zip_concat (face : list (list F)) (hands : list (@hands_val F))
    (pose : list (list F)) : list (list cell) :=
  match face, hands, pose with
  | fa :: face', ha :: hands', po :: pose' =>
      concat_frame fa ha po :: zip_concat face' hands' pose'
  | _, _, _ => []
  end.

(** [dataset] and [groundtruth]. *)
Definition corpus : Type :=
  (list (list (list cell)) * list (list (list cell)))%type.

(** The body of [for p in ...]. *)
Definition keypoints_folder (acc : corpus) (p : recording) : res corpus :=
  face <- get_face zero (hdFace3d p) ;;
  hands <- get_hands zero (hdHand3d p) ;;
  pose <- get_body zero (hdPose3d_stage1_op25 p) ;;
  let vid_input_p1 := zip_concat face.1.1 hands.1.1 pose.1.1 in
  let vid_input_p2 := zip_concat face.1.2 hands.1.2 pose.1.2 in
  let vid_labels_p1 := zip_concat face.2.1 hands.2.1 pose.2.1 in
  let vid_labels_p2 := zip_concat face.2.2 hands.2.2 pose.2.2 in
  Ok (acc.1 ++ [vid_input_p1; vid_input_p2],
      acc.2 ++ [vid_labels_p1; vid_labels_p2]).

Fixpoint keypoints_loop (acc : corpus) (folders : list recording)
  : res corpus :=
  match folders with
  | [] => Ok acc
  | p :: rest =>
      acc' <- keypoints_folder acc p ;;
      keypoints_loop acc' rest
  end.

Definition get_keypoints (folders : list recording) : res corpus :=
  keypoints_loop ([], []) folders.
End Aggregator.

Arguments Recording {F} _ _ _.
Arguments Num {F} x.
Arguments Sub {F} l.

(** ** Single-keypoint notebook

    [get_body(path, kp)] keeps the coordinates of joint [kp] only: the pair
    [[x, y]] goes to the planar sequence and the scalar [z] to the depth
    sequence.  [get_keypoints] of that notebook reads the body of the folders
    [[3:-1]] with [kp = 5] and keeps slot 0. *)

Section SingleKeypoint.
Context {F : Type} (zero : F).

Definition kp_seqs : Type := (slots (@kp_elem F) * slots (@kp_elem F))%type.

Definition empty_kp_seqs : kp_seqs := (([], []), ([], [])).

(** The body of [if person['id'] != -1:]; [third_coord] is read first. *)
Definition body_kp_person (kp : nat) (st : kp_seqs) (i : nat) (p : @person F)
  : res (kp_seqs * nat) :=
  if is_valid p then
    third_coord <- py_index (landmarks p) (kp * 4 + 2) ;;
    let two_coord := py_slice (kp * 4) (kp * 4 + 2) (landmarks p) in
    s2 <- slots_append st.1 i (Vector two_coord) ;;
    s3 <- slots_append st.2 i (Scalar third_coord) ;;
    Ok ((s2, s3), S i)
  else Ok (st, i).

Fixpoint body_kp_people (kp : nat) (st : kp_seqs) (i : nat)
    (people : @frame F) : res (kp_seqs * nat) :=
  match people with
  | [] => Ok (st, i)
  | p :: rest =>
      r <- body_kp_person kp st i p ;;
      body_kp_people kp r.1 r.2 rest
  end.

Definition body_kp_frame (kp : nat) (st : kp_seqs) (people : @frame F)
  : res kp_seqs :=
  r <- body_kp_people kp st 0 people ;;
  let st' := r.1 in
  let i := r.2 in
  if i <? 2 then
    s2 <- slots_append st'.1 i (Vector [zero; zero]) ;;
    s3 <- slots_append st'.2 i (Scalar zero) ;;
    Ok (s2, s3)
  else Ok st'.

Fixpoint body_kp_frames (kp : nat) (st : kp_seqs) (files : list (@frame F))
  : res kp_seqs :=
  match files with
  | [] => Ok st
  | f :: rest =>
      st' <- body_kp_frame kp st f ;;
      body_kp_frames kp st' rest
  end.

Definition get_body_kp (files : list (@frame F)) (kp : nat) : res kp_seqs :=
  body_kp_frames kp empty_kp_seqs (drop_last files).

(** [folders[3:-1]]. *)
Definition drop_3_last {A : Type} (l : list A) : list A :=
  drop 3 (take (length l - 1) l).

Definition kp_corpus : Type :=
  (list (list (@kp_elem F)) * list (list (@kp_elem F)))%type.

Fixpoint keypoints_kp_loop (kp : nat) (acc : kp_corpus)
    (folders : list (@recording F)) : res kp_corpus :=
  match folders with
  | [] => Ok acc
  | p :: rest =>
      pose <- get_body_kp (hdPose3d_stage1_op25 p) kp ;;
      keypoints_kp_loop kp (acc.1 ++ [pose.1.1], acc.2 ++ [pose.2.1]) rest
  end.

Definition get_keypoints_kp (folders : list (@recording F)) : res kp_corpus :=
  keypoints_kp_loop 5 ([], []) (drop_3_last folders).
End SingleKeypoint.

(** ** Pairwise-distance statistics

    [stats(groundtruth)] runs on what [np.asarray] built from the padded
    corpus.  Per video and per group of keypoints (face: entries 0 to 69 of
    a depth vector, hands: 70 to 111, body: 112 to the end) it takes the
    least and the greatest distance [|frame[i] - frame[j]|] over the pairs
    [i < j] of the group in any frame, and the mean over the frames of the
    mean distance of a frame.  [a > b] on doubles is [flt b a]; the progress
    bars only print. *)

(** The message of the IndexError that a one-dimensional array raises. *)
Definition bounds_msg (i n : nat) : string :=
  "index " +:+ pretty i +:+ " is out of bounds for axis 0 with size " +:+
  pretty n.

Section Stats.
Context {F : Type} (ops : np_arith F).

(** [np.asarray] of nested lists is a three-dimensional array of doubles
    when the lists are rectangular: the videos have the same number of
    frames and the frames the same number of entries.  Otherwise, with the
    NumPy of the notebooks, it is an array of objects and the frames stay
    Python lists. *)
Definition rectangular (t : list (list (list F))) : bool :=
  match t with
  | [] => true
  | vid :: _ =>
      forallb (fun v => length v =? length vid) t &&
      match vid with
      | [] => true
      | fr :: _ => forallb (forallb (fun f => length f =? length fr)) t
      end
  end.

(** [frame[i]]: on a row of an array when [rect], on a list otherwise. *)
Definition np_index (rect : bool) (frame : list F) (i : nat) : res F :=
  match frame !! i with
  | Some v => Ok v
  | None =>
      Raise (IndexError (if rect then bounds_msg i (length frame)
                         else list_index_msg))
  end.

(** [frame_min[k]], [frame_max[k]] and [frame_diff[k]] of one group. *)
Record running : Type := Running {
  r_min : F;
  r_max : F;
  r_diff : list F
}.

(** The body of the loop over [j]. *)
Definition pair_step (rect : bool) (frame : list F) (i j : nat) (a : running)
  : res running :=
  x <- np_index rect frame i ;;
  y <- np_index rect frame j ;;
  let m := fabs ops (fsub ops x y) in
  Ok (Running (if flt ops m (r_min a) then m else r_min a)
              (if flt ops (r_max a) m then m else r_max a)
              (r_diff a ++ [m])).

Fixpoint inner_loop (rect : bool) (frame : list F) (i : nat) (js : list nat)
    (a : running) : res running :=
  match js with
  | [] => Ok a
  | j :: rest =>
      a' <- pair_step rect frame i j a ;;
      inner_loop rect frame i rest a'
  end.

(** [for i in ...: for j in range(i+1, hi): ...]. *)
Fixpoint outer_loop (rect : bool) (frame : list F) (ks : list nat) (hi : nat)
    (a : running) : res running :=
  match ks with
  | [] => Ok a
  | i :: rest =>
      a' <- inner_loop rect frame i (seq (i + 1) (hi - (i + 1))) a ;;
      outer_loop rect frame rest hi a'
  end.

(** The two nested loops of the group [range(lo, hi)], from
    [frame_min[k] = np.inf], [frame_max[k] = 0.], [frame_diff[k] = []]. *)
Definition group_pairs (rect : bool) (frame : list F) (lo hi : nat)
  : res running :=
  outer_loop rect frame (seq lo (hi - lo)) hi
    (Running (finf ops) (fzero ops) []).

(** [vid_min[k]], [vid_max[k]] and [frame_means[k]] of one group. *)
Record vstate : Type := VState {
  v_min : F;
  v_max : F;
  v_means : list F
}.

Definition init_vstate : vstate := VState (finf ops) (fzero ops) [].

(** One group of one frame: the loops, then the three updates. *)
Definition group_step (rect : bool) (frame : list F) (lo hi : nat)
    (v : vstate) : res vstate :=
  a <- group_pairs rect frame lo hi ;;
  Ok (VState (if flt ops (r_min a) (v_min v) then r_min a else v_min v)
             (if flt ops (v_max v) (r_max a) then r_max a else v_max v)
             (v_means v ++ [nanmean ops (r_diff a)])).

(** The body of [for frame in vid:]. *)
Definition frame_step (rect : bool) (frame : list F)
    (v : vstate * vstate * vstate) : res (vstate * vstate * vstate) :=
  v0 <- group_step rect frame 0 70 v.1.1 ;;
  v1 <- group_step rect frame 70 112 v.1.2 ;;
  v2 <- group_step rect frame 112 (length frame) v.2 ;;
  Ok (v0, v1, v2).

Fixpoint vid_loop (rect : bool) (vid : list (list F))
    (v : vstate * vstate * vstate) : res (vstate * vstate * vstate) :=
  match vid with
  | [] => Ok v
  | frame :: rest =>
      v' <- frame_step rect frame v ;;
      vid_loop rect rest v'
  end.

(** What one video appends to [d_min], [d_max] and [d_mean]. *)
Definition vid_stats (rect : bool) (vid : list (list F))
  : res (list F * list F * list F) :=
  v <- vid_loop rect vid (init_vstate, init_vstate, init_vstate) ;;
  Ok ([v_min v.1.1; v_min v.1.2; v_min v.2],
      [v_max v.1.1; v_max v.1.2; v_max v.2],
      [nanmean ops (v_means v.1.1);
       nanmean ops (v_means v.1.2);
       nanmean ops (v_means v.2)]).

Definition summary : Type :=
  (list (list F) * list (list F) * list (list F))%type.

Fixpoint stats_loop (rect : bool) (t : list (list (list F))) (acc : summary)
  : res summary :=
  match t with
  | [] => Ok acc
  | vid :: rest =>
      s <- vid_stats rect vid ;;
      stats_loop rect rest
        (acc.1.1 ++ [s.1.1], acc.1.2 ++ [s.1.2], acc.2 ++ [s.2])
  end.

(** [stats(np.asarray(t))]. *)
Definition stats (t : list (list (list F))) : res summary :=
  stats_loop (rectangular t) t ([], [], []).
End Stats.

Arguments Running {F} _ _ _.
Arguments VState {F} _ _ _.

(** ** Vocabulary of the statements *)

(** A frame has at least one entry with [id != -1]. *)
Definition has_detection {F : Type} (f : @frame F) : bool :=
  match List.filter is_valid f with
  | [] => false
  | _ :: _ => true
  end.

(** The number of elements that slot 0, respectively slot 1, receives while
    the counter of a frame goes from [i] to [i']. *)
Definition grow_0 (i i' : nat) : nat :=
  match i, i' with
  | 0, S _ => 1
  | _, _ => 0
  end.

Definition grow_1 (i i' : nat) : nat :=
  match i, i' with
  | 0, S (S _) => 1
  | 1, S (S _) => 1
  | _, _ => 0
  end.

(** The values that the comprehension over [c] with [(c+1)%3 != 0] keeps of
    a landmark list, by recursion on the list; [k] is the index of its
    head. *)
Fixpoint xy_aux {F : Type} (k : nat) (l : list F) : list F :=
  match l with
  | [] => []
  | v :: t => if ((k + 1) mod 3 =? 0) then xy_aux (S k) t
              else v :: xy_aux (S k) t
  end.

Definition xy_of {F : Type} (l : list F) : list F := xy_aux 0 l.

(** [k] is an integer nearest to [num/den], whichever way a tie goes. *)
Definition nearest_int (num den : Z) (k : nat) : Prop :=
  (2 * num - den <= 2 * den * Z.of_nat k <= 2 * num + den)%Z.

Definition nearest_intb (num den : Z) (k : nat) : bool :=
  (2 * num - den <=? 2 * den * Z.of_nat k)%Z &&
  (2 * den * Z.of_nat k <=? 2 * num + den)%Z.

(** For a list of [n] entries the two rounded products are integers nearest
    to 0.67*n and to 0.85*n. *)
Definition bounds_are_nearest (n : nat) : bool :=
  match bound_67 n, bound_85 n with
  | Ok a, Ok b =>
      nearest_intb (67 * Z.of_nat n) 100 a &&
      nearest_intb (85 * Z.of_nat n) 100 b
  | _, _ => false
  end.

(** The message of [e] contains ['left_hand'] or ['right_hand']. *)
Definition names_a_hand (e : PyExc) : bool :=
  py_in "left_hand" (str_exc e) || py_in "right_hand" (str_exc e).

(** [L] is the greatest length among the sequences of [dataset]. *)
Definition is_max_len {E : Type} (L : nat) (h : heap E) (dataset : list nat)
  : Prop :=
  (forall r, In r dataset -> length (obj h r) <= L) /\
  (exists r, In r dataset /\ length (obj h r) = L).

(** Appending to [seq] does not change the element that [mk] computes for
    it, which is [pad seq]. *)
Definition stable {E : Type} (mk : list E -> res E) (pad : list E -> E)
    (seq : list E) : Prop :=
  forall ext, mk (seq ++ ext) = Ok (pad seq).

(** The sequence [s] right-padded to length [L] with copies of [e]. *)
Definition padded {E : Type} (L : nat) (e : E) (s : list E) : list E :=
  s ++ replicate (L - length s) e.

(** The planar and the depth vector of one person entry, as [split_coords]
    computes them. *)
Definition planar_of {F : Type} (stride : nat) (p : @person F) : list F :=
  match split_coords stride (landmarks p) with
  | Ok c => c.1
  | Raise _ => []
  end.

Definition depth_of {F : Type} (stride : nat) (p : @person F) : list F :=
  match split_coords stride (landmarks p) with
  | Ok c => c.2
  | Raise _ => []
  end.

(** What a frame contributes to slot 0 (the first entry with [id != -1], or
    zeros when there is none) and, when it has a detection, to slot 1 (the
    second such entry, or zeros). *)
Definition slot_0_of {F : Type} (zero : F) (w : nat)
    (vec : @person F -> list F) (f : @frame F) : list F :=
  match List.filter is_valid f with
  | [] => replicate w zero
  | a :: _ => vec a
  end.

Definition slot_1_of {F : Type} (zero : F) (w : nat)
    (vec : @person F -> list F) (f : @frame F) : list F :=
  match List.filter is_valid f with
  | _ :: b :: _ => vec b
  | _ => replicate w zero
  end.

(** The sequences that an extractor with the given stride and widths builds
    from the retained frames [fs]. *)
Definition sequences_of {F : Type} (zero : F) (stride w2 w3 : nat)
    (fs : list (@frame F)) : @seqs F :=
  ((map (slot_0_of zero w2 (planar_of stride)) fs,
    map (slot_1_of zero w2 (planar_of stride)) (List.filter has_detection fs)),
   (map (slot_0_of zero w3 (depth_of stride)) fs,
    map (slot_1_of zero w3 (depth_of stride)) (List.filter has_detection fs))).

(** Every entry of every frame holds whole joints, and no frame has more than
    two entries with [id != -1]. *)
Definition extractable {F : Type} (stride : nat) (fs : list (@frame F))
  : Prop :=
  Forall (fun f => Forall (well_formed stride) f /\
                   length (List.filter is_valid f) <= 2) fs.

(** [person['id'] != -1] for an entry of a hands frame. *)
Definition hand_is_valid {F : Type} (p : @hand_person F) : bool :=
  negb (hid p =? -1)%Z.

(** The entry has at least one hand, a lone right hand has a non-empty list,
    and two hands have lists of the same length. *)
Definition regular {F : Type} (p : @hand_person F) : Prop :=
  match left_hand p, right_hand p with
  | Some l, Some r => length l = length r
  | None, Some r => r <> []
  | Some l, None => True
  | None, None => False
  end.

(** The combined hands vectors of a regular entry: left hand then right
    hand, zeros standing in for a missing hand. *)
Definition hands_planar {F : Type} (zero : F) (p : @hand_person F) : list F :=
  match left_hand p with Some l => xy_of l | None => replicate 42 zero end ++
  match right_hand p with Some r => xy_of r | None => replicate 42 zero end.

Definition hands_depth {F : Type} (zero : F) (p : @hand_person F) : list F :=
  match left_hand p with
  | Some l => py_slice_step 2 3 l
  | None => replicate 21 zero
  end ++
  match right_hand p with
  | Some r => py_slice_step 2 3 r
  | None => replicate 21 zero
  end.

Definition hands_has_detection {F : Type} (f : list (@hand_person F)) : bool :=
  match List.filter hand_is_valid f with
  | [] => false
  | _ :: _ => true
  end.

Definition hands_slot_0 {F : Type} (zero : F) (w : nat)
    (vec : @hand_person F -> list F) (f : list (@hand_person F))
  : @hands_val F :=
  match List.filter hand_is_valid f with
  | [] => Flat (replicate w zero)
  | a :: _ => Flat (vec a)
  end.

Definition hands_slot_1 {F : Type} (zero : F) (w : nat)
    (vec : @hand_person F -> list F) (f : list (@hand_person F))
  : @hands_val F :=
  match List.filter hand_is_valid f with
  | _ :: b :: _ => Flat (vec b)
  | _ => Flat (replicate w zero)
  end.

(** The sequences that [get_hands] builds from the retained frames [fs]. *)
Definition hands_sequences_of {F : Type} (zero : F)
    (fs : list (list (@hand_person F)))
  : slots (@hands_val F) * slots (@hands_val F) :=
  ((map (hands_slot_0 zero 84 (hands_planar zero)) fs,
    map (hands_slot_1 zero 84 (hands_planar zero))
      (List.filter hands_has_detection fs)),
   (map (hands_slot_0 zero 42 (hands_depth zero)) fs,
    map (hands_slot_1 zero 42 (hands_depth zero))
      (List.filter hands_has_detection fs))).

(** Every detected person of every frame is regular, and no frame has more
    than two of them. *)
Definition hands_extractable {F : Type} (fs : list (list (@hand_person F)))
  : Prop :=
  Forall (fun f => Forall regular (List.filter hand_is_valid f) /\
                   length (List.filter hand_is_valid f) <= 2) fs.

(** A recording on which the three extractors succeed: well-formed face and
    body entries, regular hands entries, at most two detected people in every
    retained frame. *)
Definition conforming {F : Type} (p : @recording F) : Prop :=
  extractable 3 (drop_first (hdFace3d p)) /\
  hands_extractable (drop_first_last (hdHand3d p)) /\
  extractable 4 (drop_last (hdPose3d_stage1_op25 p)).

(** The two entries that a recording adds to [dataset] and to
    [groundtruth]: slot 0, then slot 1. *)
Definition folder_inputs {F : Type} (zero : F) (p : @recording F)
  : list (list (list (@cell F))) :=
  let f := sequences_of zero 3 140 70 (drop_first (hdFace3d p)) in
  let h := hands_sequences_of zero (drop_first_last (hdHand3d p)) in
  let b := sequences_of zero 4 52 26 (drop_last (hdPose3d_stage1_op25 p)) in
  [zip_concat f.1.1 h.1.1 b.1.1; zip_concat f.1.2 h.1.2 b.1.2].

Definition folder_labels {F : Type} (zero : F) (p : @recording F)
  : list (list (list (@cell F))) :=
  let f := sequences_of zero 3 140 70 (drop_first (hdFace3d p)) in
  let h := hands_sequences_of zero (drop_first_last (hdHand3d p)) in
  let b := sequences_of zero 4 52 26 (drop_last (hdPose3d_stage1_op25 p)) in
  [zip_concat f.2.1 h.2.1 b.2.1; zip_concat f.2.2 h.2.2 b.2.2].

(** A vector of [w] coordinates and nothing else. *)
Definition flat_width {F : Type} (w : nat) (x : list (@cell F)) : Prop :=
  exists v : list F, x = map Num v /\ length v = w.

(** A flat hands vector of [w] coordinates. *)
Definition flat_of_length {F : Type} (w : nat) (h : @hands_val F) : Prop :=
  exists v, h = Flat v /\ length v = w.

(** The recording follows the file layout: 210 floats per face entry, 104 per
    body entry, 63 per hand, every detected person with at least one hand. *)
Definition in_schema {F : Type} (p : @recording F) : Prop :=
  Forall (Forall (fun q => length (landmarks q) = 210))
    (drop_first (hdFace3d p)) /\
  Forall (Forall (fun q => length (landmarks q) = 104))
    (drop_last (hdPose3d_stage1_op25 p)) /\
  Forall (fun f =>
    Forall (fun q =>
      match left_hand q, right_hand q with
      | Some l, Some r => length l = 63 /\ length r = 63
      | Some l, None => length l = 63
      | None, Some r => length r = 63
      | None, None => False
      end) (List.filter hand_is_valid f))
    (drop_first_last (hdHand3d p)) /\
  Forall (fun f => length (List.filter is_valid f) <= 2)
    (drop_first (hdFace3d p)) /\
  Forall (fun f => length (List.filter is_valid f) <= 2)
    (drop_last (hdPose3d_stage1_op25 p)) /\
  Forall (fun f => length (List.filter hand_is_valid f) <= 2)
    (drop_first_last (hdHand3d p)).

(** The pair and the scalar that [get_body(path, kp)] keeps of one entry. *)
Definition kp_planar {F : Type} (kp : nat) (q : @person F) : @kp_elem F :=
  Vector (py_slice (kp * 4) (kp * 4 + 2) (landmarks q)).

Definition kp_depth {F : Type} (zero : F) (kp : nat) (q : @person F)
  : @kp_elem F :=
  Scalar (default zero (landmarks q !! (kp * 4 + 2))).

Definition kp_slot_0 {F : Type} (pad : @kp_elem F)
    (elem : @person F -> @kp_elem F) (f : @frame F) : @kp_elem F :=
  match List.filter is_valid f with
  | [] => pad
  | a :: _ => elem a
  end.

Definition kp_slot_1 {F : Type} (pad : @kp_elem F)
    (elem : @person F -> @kp_elem F) (f : @frame F) : @kp_elem F :=
  match List.filter is_valid f with
  | _ :: b :: _ => elem b
  | _ => pad
  end.

(** The sequences that [get_body(path, kp)] builds from the retained frames
    [fs]. *)
Definition kp_sequences_of {F : Type} (zero : F) (kp : nat)
    (fs : list (@frame F)) : @kp_seqs F :=
  ((map (kp_slot_0 (Vector [zero; zero]) (kp_planar kp)) fs,
    map (kp_slot_1 (Vector [zero; zero]) (kp_planar kp))
      (List.filter has_detection fs)),
   (map (kp_slot_0 (Scalar zero) (kp_depth zero kp)) fs,
    map (kp_slot_1 (Scalar zero) (kp_depth zero kp))
      (List.filter has_detection fs))).

(** Every detected person of every frame has joint [kp] in its list, and no
    frame has more than two detected people. *)
Definition kp_extractable {F : Type} (kp : nat) (fs : list (@frame F))
  : Prop :=
  Forall (fun f =>
    Forall (fun q => kp * 4 + 2 < length (landmarks q))
      (List.filter is_valid f) /\
    length (List.filter is_valid f) <= 2) fs.

(** An input element [[x, y]] and a label element [z]. *)
Definition is_pair {F : Type} (e : @kp_elem F) : Prop :=
  exists x y, e = Vector [x; y].

Definition is_scalar {F : Type} (e : @kp_elem F) : Prop :=
  exists z, e = Scalar z.

(** The vector that [padding_seq] appends to [seq]: missing-value markers,
    as many as the first vector of [seq] has entries. *)
Definition nan_row {E : Type} (nan : E) (seq : list (list E)) : list E :=
  replicate (length (default [] (seq !! 0))) nan.

(** The vector [v] with the entry at every position [p] standardised with
    the pair of sub-channel [p mod c]: [(x - mean) / std]. *)
Definition standardised {F : Type} (sub div : F -> F -> F)
    (stats : list (F * F)) (c : nat) (v : list F) : list F :=
  imap (fun p x => match stats !! (p mod c) with
                   | Some ms => div (sub x ms.1) ms.2
                   | None => x
                   end) v.


(** Addition is exact: associative and commutative with [0.] neutral, and
    [0.*0.] is [0.]. *)
Definition exact_sums {F : Type} (ops : np_arith F) : Prop :=
  (forall x y z, fadd ops x (fadd ops y z) = fadd ops (fadd ops x y) z) /\
  (forall x y, fadd ops x y = fadd ops y x) /\
  (forall x, fadd ops x (fzero ops) = x) /\
  fmul ops (fzero ops) (fzero ops) = fzero ops.

(** A frame that the padder appended: at least the 112 entries that [stats]
    indexes, every one the missing-value marker. *)
Definition padding_frame {F : Type} (ops : np_arith F) (frame : list F)
  : Prop :=
  112 <= length frame /\ Forall (fun e => e = fnan ops) frame.

(** [vid'] is [vid] followed by padding frames. *)
Definition padded_video {F : Type} (ops : np_arith F)
    (vid vid' : list (list F)) : Prop :=
  exists pad, vid' = vid ++ pad /\ Forall (padding_frame ops) pad.

(** What the statements about [stats] use of the arithmetic of doubles:
    nothing is above [inf]; an absolute value is never below [0.]; the
    distance of two missing-value markers is a missing-value marker, which
    compares false with [inf] and [0.]; [0. + 0.] is [0.] and [0./0] is a
    missing value. *)
Definition compares_like_doubles {F : Type} (ops : np_arith F) : Prop :=
  (forall x, flt ops (finf ops) x = false) /\
  flt ops (fzero ops) (fzero ops) = false /\
  (forall x, flt ops (fabs ops x) (fzero ops) = false) /\
  fis_nan ops (fabs ops (fsub ops (fnan ops) (fnan ops))) = true /\
  flt ops (fabs ops (fsub ops (fnan ops) (fnan ops))) (finf ops) = false /\
  flt ops (fzero ops) (fabs ops (fsub ops (fnan ops) (fnan ops))) = false /\
  fadd ops (fzero ops) (fzero ops) = fzero ops /\
  fis_nan ops (fdiv ops (fzero ops) (fcount ops 0)) = true.

(** None of the three greatest distances of a video is below [0.]. *)
Definition nonneg3 {F : Type} (ops : np_arith F)
    (v : @vstate F * @vstate F * @vstate F) : Prop :=
  flt ops (v_max v.1.1) (fzero ops) = false /\
  flt ops (v_max v.1.2) (fzero ops) = false /\
  flt ops (v_max v.2) (fzero ops) = false.

(** [np.nanmean] of the list [means] followed by [n] missing values: the
    count is that of [means], and the array that is summed has [n] more
    zeros at its end. *)
Definition nanmean_padded {F : Type} (ops : np_arith F) (n : nat)
    (means : list F) : F :=
  fdiv ops (np_sum ops (replace_nan ops means ++ replicate n (fzero ops)))
    (fcount ops (count_kept ops means)).

(** The three entries of a row of [d_mean], from the means of the frames
    that [stats] has collected for a video. *)
Definition mean_row {F : Type} (mean : list F -> F)
    (v : @vstate F * @vstate F * @vstate F) : list F :=
  [mean (v_means v.1.1); mean (v_means v.1.2); mean (v_means v.2)].

(** ** Example inputs

    Coordinates are doubles; [0.] is [0%float] and [np.nan] is [nan]. *)

(** The [n] floats [x, x+1., x+2., ...]. *)
Fixpoint ramp_from (x : float) (n : nat) : list float :=
  match n with
  | 0 => []
  | S k => x :: ramp_from (x + 1)%float k
  end.

Definition ramp (n : nat) : list float := ramp_from 1%float n.

(** Person entries with complete landmark lists. *)
Definition face_entry (i : Z) : @person float := Person i (ramp 210).
Definition body_entry (i : Z) : @person float := Person i (ramp 104).
Definition both_hands (i : Z) : @hand_person float :=
  HandPerson i (Some (ramp 63)) (Some (ramp_from 101 63)).

(** The left hand is present but its list stops after two values. *)
Definition short_left (i : Z) : @hand_person float :=
  HandPerson i (Some (ramp 2)) (Some (ramp_from 101 63)).

(** Folders with three detected people in one frame.  The face folder starts
    with its blank first file, the body folder ends with its last file, the
    hands folder has both. *)
Definition three_faces : list (@frame float) :=
  [[]; [face_entry 0; face_entry 1; face_entry 2]].

Definition three_bodies : list (@frame float) :=
  [[body_entry 0; body_entry 1; body_entry 2]; []].

Definition three_hands : list (list (@hand_person float)) :=
  [[]; [both_hands 0; both_hands 1; both_hands 2]; []].

(** Folders whose retained frames hold one, no and two detected people. *)
Definition face_with_gap : list (@frame float) :=
  [[]; [face_entry 0]; []; [face_entry 0; face_entry 1]].

Definition hands_with_gap : list (list (@hand_person float)) :=
  [[]; [both_hands 0]; []; [both_hands 0; both_hands 1]; []].

Definition body_with_gap : list (@frame float) :=
  [[body_entry 0]; []; [body_entry 0; body_entry 1]; []].

(** A hands folder: blank first file, a frame with a complete person, a frame
    with a person whose left-hand list is short, blank last file. *)
Definition stale_hands : list (list (@hand_person float)) :=
  [[]; [both_hands 0]; [short_left 0]; []].

(** Two input sequences of the single-keypoint notebook, of one and of two
    frames, and two label sequences. *)
Definition kp_inputs : heap (@kp_elem float) :=
  [[Vector [1; 2]]; [Vector [3; 4]; Vector [5; 6]]]%float.

Definition kp_labels : heap (@kp_elem float) :=
  [[Scalar 7]; [Scalar 8; Scalar 9]]%float.

(** Three sequences of vectors of width 3, of one, three and two frames. *)
Definition full_inputs : heap (list float) :=
  [[[1; 2; 3]]; [[4; 5; 6]; [7; 8; 9]; [1; 1; 1]]; [[2; 2; 2]; [3; 3; 3]]]%float.

(** A tensor of three slots of two frames of width 2 whose middle slot holds
    nothing but missing-value markers. *)
Definition slots_before : @tensor float := [[[1; 2]; [3; 4]]]%float.
Definition missing_slot : list (list float) := [[nan; nan]; [nan; nan]].
Definition slots_after : @tensor float := [[[5; 6]; [7; 8]]]%float.

(** A recording whose retained frames hold one, no and two detected people
    in every modality. *)
Definition gap_recording : @recording float :=
  Recording face_with_gap hands_with_gap body_with_gap.

(** A recording with three detected people in its only retained frame. *)
Definition crowded_recording : @recording float :=
  Recording three_faces three_hands three_bodies.

(** A recording whose face folder holds one retained frame and no detected
    person: the only entry has id -1. *)
Definition undetected_recording : @recording float :=
  Recording [[]; [face_entry (-1)]] [[]; [both_hands 0]; []]
            [[body_entry 0]; []].

(** Five recording folders, of which the single-keypoint notebook reads the
    fourth. *)
Definition five_folders : list (@recording float) :=
  [gap_recording; gap_recording; gap_recording; gap_recording; gap_recording].

(** A body folder whose first frame has a person with ten values only. *)
Definition short_body : list (@frame float) := [[Person 0 (ramp 10)]; []].

(** Two sequences of vectors of width 3, the second one empty. *)
Definition with_empty_sequence : heap (list float) := [[[1; 2; 3]]; []]%float.

(** A video of one frame of 138 depth values, and the same video after one
    frame of missing-value markers was appended. *)
Definition depth_video : list (list float) := [ramp 138].
Definition depth_video_padded : list (list float) :=
  [ramp 138; replicate 138 nan].

(** A video of one frame of 112 integers, and the same followed by two
    padding frames. *)
Definition integer_video : list (list (option Z)) :=
  [map (fun n => Some (Z.of_nat (n * n))) (seq 0 112)].
Definition integer_video_padded : list (list (option Z)) :=
  integer_video ++ [replicate 112 None; replicate 112 None].

(** A video of two frames of 26 entries each. *)
Definition narrow_video : list (list float) := [ramp 26; ramp 26].

(** Four values in one slot, and a slot of four missing values. *)
Definition rounding_values : @tensor float :=
  [[[0x1.999999999999ap-1]; [0x1.999999999999ap-1]; [0x1.999999999999ap-1];
    [0x1.6666666666666p-1]]]%float.
Definition rounding_slot : list (list float) := [[nan]; [nan]; [nan]; [nan]].

(** Slots of integers, and a slot of missing values between them. *)
Definition integers_before : @tensor (option Z) :=
  [[[Some 1; Some 2]; [Some 3; Some 4]]]%Z.
Definition integers_after : @tensor (option Z) := [[[Some 5; Some 6]]]%Z.
Definition integers_missing : list (list (option Z)) := [[None; None]].


(** Exact arithmetic on integers, [None] standing for a missing value, which
    is also what a division by zero gives. *)
Definition lift2 (f : Z -> Z -> Z) (x y : option Z) : option Z :=
  match x, y with
  | Some a, Some b => Some (f a b)
  | _, _ => None
  end.

Definition integer_arith : np_arith (option Z) :=
  NpArith (fun x => match x with None => true | Some _ => false end)
          (Some 0%Z) None None
          (lift2 Z.add) (lift2 Z.sub) (lift2 Z.mul)
          (fun x y => match x, y with
                      | Some a, Some b =>
                          if (b =? 0)%Z then None else Some (a / b)%Z
                      | _, _ => None
                      end)
          (option_map Z.sqrt) (option_map Z.abs)
          (fun x y => match x, y with
                      | Some a, Some b => (a <? b)%Z
                      | _, _ => false
                      end)
          (fun n => Some (Z.of_nat n)).

(** * Properties *)

(** ** Strided slices and the interleaving comprehension *)

Section PyListFacts.
Context {A : Type}.
Implicit Types l x y : list A.

Lemma slice_step_aux_lookup step skip l j :
  0 < step ->
  slice_step_aux step skip l !! j = l !! (skip + j * step).
Proof.
  intros Hstep. revert skip j.
  induction l as [|a t IH]; intros skip j; simpl.
  - by rewrite !lookup_nil.
  - destruct skip as [|s].
    + destruct j as [|j]; simpl; [done|].
      rewrite IH.
      replace (step + j * step) with (S (step - 1 + j * step)) by lia.
      done.
    + by rewrite IH.
Qed.

Lemma py_slice_step_lookup start step l j :
  0 < step ->
  py_slice_step start step l !! j = l !! (start + j * step).
Proof. apply slice_step_aux_lookup. Qed.

Lemma py_slice_step_length start step l n :
  start < step ->
  length l = step * n ->
  length (py_slice_step start step l) = n.
Proof.
  intros Hs Hl.
  assert (Hlk : forall j,
    py_slice_step start step l !! j = l !! (start + j * step))
    by (intros j; apply py_slice_step_lookup; lia).
  generalize dependent (py_slice_step start step l). intros s Hlk.
  destruct (Nat.lt_trichotomy (length s) n) as [Hlt|[Heq|Hgt]]; [|done|].
  - exfalso.
    assert (Hnone : s !! length s = None) by (apply lookup_ge_None; lia).
    rewrite Hlk in Hnone. apply lookup_ge_None in Hnone. nia.
  - exfalso.
    destruct (lookup_lt_is_Some_2 s n) as [v Hv]; [lia|].
    rewrite Hlk in Hv. apply lookup_lt_Some in Hv. nia.
Qed.

Lemma interleave_length x y :
  length x = length y -> length (interleave x y) = 2 * length x.
Proof.
  revert y. induction x as [|a x IH]; intros [|b y] Hl; simpl in *; try lia.
  rewrite IH; lia.
Qed.

Lemma interleave_lookup x y j :
  length x = length y ->
  interleave x y !! (2 * j) = x !! j /\
  interleave x y !! (2 * j + 1) = y !! j.
Proof.
  revert y j. induction x as [|a x IH]; intros [|b y] j Hl; simpl in *;
    try lia.
  - by rewrite !lookup_nil.
  - destruct j as [|j]; simpl; [done|].
    replace (j + S (j + 0)) with (S (2 * j)) by lia.
    replace (j + S (j + 0) + 1) with (S (2 * j + 1)) by lia.
    simpl. apply IH. lia.
Qed.

Lemma two_coord_loop_seq x y s n :
  s + n = length x ->
  length x = length y ->
  two_coord_loop x y (seq s n) = Ok (interleave (drop s x) (drop s y)).
Proof.
  revert s. induction n as [|n IH]; intros s Hs Hl; simpl.
  - rewrite !drop_ge by lia. done.
  - destruct (lookup_lt_is_Some_2 x s) as [a Ha]; [lia|].
    destruct (lookup_lt_is_Some_2 y s) as [b Hb]; [lia|].
    unfold py_index. rewrite Ha, Hb. simpl.
    rewrite IH by lia. simpl.
    by rewrite (drop_S x a s Ha), (drop_S y b s Hb).
Qed.

Lemma two_coord_ok x y :
  length x = length y -> two_coord x y = Ok (interleave x y).
Proof.
  intros Hl. unfold two_coord.
  rewrite two_coord_loop_seq by (done || lia). by rewrite !drop_0.
Qed.
End PyListFacts.

(** ** The tuple of per-person sequences *)

Lemma slots_append_ok {E : Type} (t : slots E) i v :
  i < 2 -> slots_append t i v = Ok (slots_push t i v).
Proof. destruct i as [|[|i]]; simpl; intros; (done || lia). Qed.

Lemma slots_append_err {E : Type} (t : slots E) i v :
  2 <= i -> slots_append t i v = Raise (IndexError tuple_index_msg).
Proof. destruct i as [|[|i]]; simpl; intros; (done || lia). Qed.

(** ** Face and body extractors *)

Section ExtractorFacts.
Context {F : Type} (zero : F).
Implicit Types (p : @person F) (st : @seqs F) (people : @frame F).

(** A flat list of [n] joints of [stride] values each splits without
    error. *)
Lemma split_coords_ok stride (l : list F) n :
  2 <= stride ->
  length l = stride * n ->
  split_coords stride l =
    Ok (interleave (py_slice_step 0 stride l) (py_slice_step 1 stride l),
        py_slice_step 2 stride l).
Proof.
  intros Hs Hl. unfold split_coords.
  rewrite two_coord_ok; [done|].
  rewrite (py_slice_step_length 0 stride l n) by (done || lia).
  by rewrite (py_slice_step_length 1 stride l n) by (done || lia).
Qed.

Lemma keypoint_person_skip stride st i p :
  is_valid p = false -> keypoint_person stride st i p = Ok (st, i).
Proof. unfold keypoint_person. by intros ->. Qed.

Lemma keypoint_person_valid stride st i p c :
  is_valid p = true ->
  split_coords stride (landmarks p) = Ok c ->
  i < 2 ->
  keypoint_person stride st i p =
    Ok ((slots_push st.1 i c.1, slots_push st.2 i c.2), S i).
Proof.
  intros Hv Hc Hi. unfold keypoint_person. rewrite Hv, Hc. simpl.
  by rewrite !slots_append_ok by done.
Qed.

Lemma keypoint_person_third stride st i p c :
  is_valid p = true ->
  split_coords stride (landmarks p) = Ok c ->
  2 <= i ->
  keypoint_person stride st i p = Raise (IndexError tuple_index_msg).
Proof.
  intros Hv Hc Hi. unfold keypoint_person. rewrite Hv, Hc. simpl.
  by rewrite slots_append_err by done.
Qed.

(** Entries with [id = -1] do not take part in the loop. *)
Lemma people_loop_filter stride st i people :
  people_loop stride st i people =
  people_loop stride st i (List.filter is_valid people).
Proof.
  revert st i. induction people as [|p people IH]; intros st i; [done|].
  simpl. destruct (is_valid p) eqn:Hv.
  - simpl. destruct (keypoint_person stride st i p) as [[st' i']|e]; simpl;
      [apply IH|done].
  - rewrite keypoint_person_skip by done. simpl. apply IH.
Qed.

Lemma Forall_list_filter {A} (P : A -> Prop) (f : A -> bool) (l : list A) :
  Forall P l -> Forall P (List.filter f l).
Proof.
  induction 1 as [|x l Hx Hl IH]; simpl; [constructor|].
  destruct (f x); [by constructor|done].
Qed.

Lemma list_filter_all {A} (f : A -> bool) (l : list A) :
  Forall (fun x => f x = true) (List.filter f l).
Proof.
  induction l as [|x l IH]; simpl; [constructor|].
  destruct (f x) eqn:Hx; [by constructor|done].
Qed.

(** What one frame does, by the number of valid entries in it. *)
Lemma keypoint_frame_by_valid stride w2 w3 st people :
  2 <= stride ->
  Forall (well_formed stride) people ->
  match List.filter is_valid people with
  | [] =>
      keypoint_frame zero stride w2 w3 st people =
        Ok ((st.1.1 ++ [replicate w2 zero], st.1.2),
            (st.2.1 ++ [replicate w3 zero], st.2.2))
  | [a] =>
      exists ca,
        split_coords stride (landmarks a) = Ok ca /\
        keypoint_frame zero stride w2 w3 st people =
          Ok ((st.1.1 ++ [ca.1], st.1.2 ++ [replicate w2 zero]),
              (st.2.1 ++ [ca.2], st.2.2 ++ [replicate w3 zero]))
  | [a; b] =>
      exists ca cb,
        split_coords stride (landmarks a) = Ok ca /\
        split_coords stride (landmarks b) = Ok cb /\
        keypoint_frame zero stride w2 w3 st people =
          Ok ((st.1.1 ++ [ca.1], st.1.2 ++ [cb.1]),
              (st.2.1 ++ [ca.2], st.2.2 ++ [cb.2]))
  | _ :: _ :: _ :: _ =>
      keypoint_frame zero stride w2 w3 st people =
        Raise (IndexError tuple_index_msg)
  end.
Proof.
  intros Hs Hwf. unfold keypoint_frame.
  rewrite people_loop_filter.
  pose proof (Forall_list_filter _ is_valid _ Hwf) as Hwf'.
  pose proof (list_filter_all is_valid people) as Hval.
  destruct (List.filter is_valid people) as [|a [|b [|c rest]]].
  - done.
  - apply Forall_cons in Hwf' as [[na Ha] _].
    apply Forall_cons in Hval as [Hva _].
    eexists. split; [by eapply split_coords_ok|].
    simpl. erewrite keypoint_person_valid;
      [|done|by eapply split_coords_ok|lia].
    done.
  - apply Forall_cons in Hwf' as [[na Ha] Hwf'].
    apply Forall_cons in Hwf' as [[nb Hb] _].
    apply Forall_cons in Hval as [Hva Hval].
    apply Forall_cons in Hval as [Hvb _].
    eexists _, _. split; [by eapply split_coords_ok|].
    split; [by eapply split_coords_ok|].
    simpl. erewrite keypoint_person_valid;
      [|done|by eapply split_coords_ok|lia].
    simpl. erewrite keypoint_person_valid;
      [|done|by eapply split_coords_ok|lia].
    done.
  - apply Forall_cons in Hwf' as [[na Ha] Hwf'].
    apply Forall_cons in Hwf' as [[nb Hb] Hwf'].
    apply Forall_cons in Hwf' as [[nc Hc] _].
    apply Forall_cons in Hval as [Hva Hval].
    apply Forall_cons in Hval as [Hvb Hval].
    apply Forall_cons in Hval as [Hvc _].
    simpl. erewrite keypoint_person_valid;
      [|done|by eapply split_coords_ok|lia].
    simpl. erewrite keypoint_person_valid;
      [|done|by eapply split_coords_ok|lia].
    simpl. erewrite keypoint_person_third;
      [|done|by eapply split_coords_ok|lia].
    done.
Qed.
End ExtractorFacts.

Section DeinterleaveFacts.
Context {F : Type}.

Lemma split_coords_deinterleaved stride n (l : list F) :
  3 <= stride ->
  length l = stride * n ->
  exists planar depth,
    split_coords stride l = Ok (planar, depth) /\
    deinterleaved stride n l planar depth.
Proof.
  intros Hs Hl. eexists _, _. split; [by eapply split_coords_ok; [lia|]|].
  assert (Hx : length (py_slice_step 0 stride l) = n)
    by (apply py_slice_step_length; (done || lia)).
  assert (Hy : length (py_slice_step 1 stride l) = n)
    by (apply py_slice_step_length; (done || lia)).
  split; [|split].
  - rewrite interleave_length; lia.
  - apply py_slice_step_length; (done || lia).
  - intros j Hj.
    destruct (interleave_lookup (py_slice_step 0 stride l)
                (py_slice_step 1 stride l) j) as [H0 H1]; [lia|].
    rewrite H0, H1, !py_slice_step_lookup by lia.
    repeat split; f_equal; lia.
Qed.
End DeinterleaveFacts.

(** C5. For a detected person the face extractor appends to the person's
    slot the planar vector x1,y1,...,x70,y70 (entries 0 and 1 of every
    triple of the 210-float list, 140 values) and the depth vector
    z1,...,z70 (entry 2 of every triple, 70 values); the body extractor does
    the same with the quadruples of the 104-float list (52 and 26 values),
    so that the confidence at entry 3 of every quadruple is left out. *)
Theorem C5_deinterleave {F : Type} (st : @seqs F) (i : nat) (pf pb : @person F) :
  is_valid pf = true ->
  is_valid pb = true ->
  i < 2 ->
  length (landmarks pf) = 210 ->
  length (landmarks pb) = 104 ->
  (exists planar depth,
     keypoint_person 3 st i pf =
       Ok ((slots_push st.1 i planar, slots_push st.2 i depth), S i) /\
     length planar = 140 /\ length depth = 70 /\
     deinterleaved 3 70 (landmarks pf) planar depth) /\
  (exists planar depth,
     keypoint_person 4 st i pb =
       Ok ((slots_push st.1 i planar, slots_push st.2 i depth), S i) /\
     length planar = 52 /\ length depth = 26 /\
     deinterleaved 4 26 (landmarks pb) planar depth).
Proof.
  intros Hvf Hvb Hi Hf Hb. split.
  - destruct (split_coords_deinterleaved 3 70 (landmarks pf))
      as (planar & depth & Hsplit & Hd); [lia|done|].
    exists planar, depth.
    rewrite (keypoint_person_valid 3 st i pf (planar, depth)) by done.
    destruct Hd as (H1 & H2 & H3). repeat split; (done || apply H3; done).
  - destruct (split_coords_deinterleaved 4 26 (landmarks pb))
      as (planar & depth & Hsplit & Hd); [lia|done|].
    exists planar, depth.
    rewrite (keypoint_person_valid 4 st i pb (planar, depth)) by done.
    destruct Hd as (H1 & H2 & H3). repeat split; (done || apply H3; done).
Qed.

Lemma C5_deinterleave_witness :
  is_valid (face_entry 0) = true /\
  is_valid (body_entry 1) = true /\
  0 < 2 /\
  length (landmarks (face_entry 0)) = 210 /\
  length (landmarks (body_entry 1)) = 104 /\
  (exists planar depth,
     keypoint_person 3 empty_seqs 0 (face_entry 0) =
       Ok ((slots_push empty_seqs.1 0 planar,
            slots_push empty_seqs.2 0 depth), 1) /\
     length planar = 140 /\ length depth = 70 /\
     deinterleaved 3 70 (landmarks (face_entry 0)) planar depth) /\
  (exists planar depth,
     keypoint_person 4 empty_seqs 0 (body_entry 1) =
       Ok ((slots_push empty_seqs.1 0 planar,
            slots_push empty_seqs.2 0 depth), 1) /\
     length planar = 52 /\ length depth = 26 /\
     deinterleaved 4 26 (landmarks (body_entry 1)) planar depth).
Proof.
  assert (H210 : length (landmarks (face_entry 0)) = 210) by reflexivity.
  assert (H104 : length (landmarks (body_entry 1)) = 104) by reflexivity.
  repeat (split; [first [reflexivity | lia]|]).
  exact (C5_deinterleave empty_seqs 0 (face_entry 0) (body_entry 1)
           eq_refl eq_refl ltac:(lia) H210 H104).
Defined.

(** C2, as the code has it. For a frame of well-formed entries the face and
    the body extractor put the first entry with [id != -1] in slot 0 and the
    second in slot 1, in document order; with one such entry slot 1 receives
    the zero vector, so with one or two of them every slot sequence grows by
    exactly one element. A third entry with [id != -1] is not ignored: the
    frame, and with it the extraction, raises [IndexError]. *)
Theorem C2_slots_in_document_order {F : Type} (zero : F) (st : @seqs F)
    (faces bodies : @frame F) :
  Forall (fun p => length (landmarks p) = 210) faces ->
  Forall (fun p => length (landmarks p) = 104) bodies ->
  ((forall a, List.filter is_valid faces = [a] ->
      exists ca, split_coords 3 (landmarks a) = Ok ca /\
        face_frame zero st faces =
          Ok ((st.1.1 ++ [ca.1], st.1.2 ++ [replicate 140 zero]),
              (st.2.1 ++ [ca.2], st.2.2 ++ [replicate 70 zero]))) /\
   (forall a b, List.filter is_valid faces = [a; b] ->
      exists ca cb, split_coords 3 (landmarks a) = Ok ca /\
        split_coords 3 (landmarks b) = Ok cb /\
        face_frame zero st faces =
          Ok ((st.1.1 ++ [ca.1], st.1.2 ++ [cb.1]),
              (st.2.1 ++ [ca.2], st.2.2 ++ [cb.2]))) /\
   (2 < length (List.filter is_valid faces) ->
      face_frame zero st faces = Raise (IndexError tuple_index_msg))) /\
  ((forall a, List.filter is_valid bodies = [a] ->
      exists ca, split_coords 4 (landmarks a) = Ok ca /\
        body_frame zero st bodies =
          Ok ((st.1.1 ++ [ca.1], st.1.2 ++ [replicate 52 zero]),
              (st.2.1 ++ [ca.2], st.2.2 ++ [replicate 26 zero]))) /\
   (forall a b, List.filter is_valid bodies = [a; b] ->
      exists ca cb, split_coords 4 (landmarks a) = Ok ca /\
        split_coords 4 (landmarks b) = Ok cb /\
        body_frame zero st bodies =
          Ok ((st.1.1 ++ [ca.1], st.1.2 ++ [cb.1]),
              (st.2.1 ++ [ca.2], st.2.2 ++ [cb.2]))) /\
   (2 < length (List.filter is_valid bodies) ->
      body_frame zero st bodies = Raise (IndexError tuple_index_msg))).
Proof.
  intros Hf Hb.
  assert (Hwf : Forall (well_formed 3) faces)
    by (eapply Forall_impl; [exact Hf|]; intros p Hp; exists 70; by rewrite Hp).
  assert (Hwb : Forall (well_formed 4) bodies)
    by (eapply Forall_impl; [exact Hb|]; intros p Hp; exists 26; by rewrite Hp).
  pose proof (keypoint_frame_by_valid zero 3 140 70 st faces
                ltac:(lia) Hwf) as Hface.
  pose proof (keypoint_frame_by_valid zero 4 52 26 st bodies
                ltac:(lia) Hwb) as Hbody.
  unfold face_frame, body_frame.
  split; (split; [|split]).
  - intros a Ha. by rewrite Ha in Hface.
  - intros a b Hab. by rewrite Hab in Hface.
  - intros Hlen.
    destruct (List.filter is_valid faces) as [|a [|b [|c rest]]];
      simpl in Hlen; (done || lia).
  - intros a Ha. by rewrite Ha in Hbody.
  - intros a b Hab. by rewrite Hab in Hbody.
  - intros Hlen.
    destruct (List.filter is_valid bodies) as [|a [|b [|c rest]]];
      simpl in Hlen; (done || lia).
Qed.

Lemma all_210 : Forall (fun p : @person float => length (landmarks p) = 210)
  [face_entry 0; face_entry 1; face_entry 2].
Proof. repeat constructor. Qed.

Lemma all_104 : Forall (fun p : @person float => length (landmarks p) = 104)
  [body_entry 0; body_entry 1; body_entry 2].
Proof. repeat constructor. Qed.

Lemma C2_slots_in_document_order_witness :
  Forall (fun p : @person float => length (landmarks p) = 210)
    [face_entry 0; face_entry 1; face_entry 2] /\
  Forall (fun p : @person float => length (landmarks p) = 104)
    [body_entry 0; body_entry 1; body_entry 2] /\
  face_frame 0%float empty_seqs [face_entry 0; face_entry 1; face_entry 2] =
    Raise (IndexError tuple_index_msg) /\
  body_frame 0%float empty_seqs [body_entry 0; body_entry 1; body_entry 2] =
    Raise (IndexError tuple_index_msg).
Proof.
  split; [exact all_210|]. split; [exact all_104|].
  destruct (C2_slots_in_document_order 0%float empty_seqs
              [face_entry 0; face_entry 1; face_entry 2]
              [body_entry 0; body_entry 1; body_entry 2] all_210 all_104)
    as [(_ & _ & Hface) (_ & _ & Hbody)].
  split; [apply Hface|apply Hbody]; simpl; lia.
Defined.

(** C2, as stated, fails: with three detected people in one frame neither
    extractor succeeds. *)
Lemma C2_three_detections_raise :
  get_face 0%float three_faces = Raise (IndexError tuple_index_msg) /\
  get_body 0%float three_bodies = Raise (IndexError tuple_index_msg) /\
  ~ (exists s, get_face 0%float three_faces = Ok s) /\
  ~ (exists s, get_body 0%float three_bodies = Ok s).
Proof.
  assert (Hf : get_face 0%float three_faces = Raise (IndexError tuple_index_msg))
    by (vm_compute; reflexivity).
  assert (Hb : get_body 0%float three_bodies = Raise (IndexError tuple_index_msg))
    by (vm_compute; reflexivity).
  split; [exact Hf|]. split; [exact Hb|]. split.
  - intros [s Hs]. rewrite Hf in Hs. discriminate.
  - intros [s Hs]. rewrite Hb in Hs. discriminate.
Qed.

(** C1 at a frame without a detected person: the zero vectors go to slot 0
    only, slot 1 receives nothing. *)
Theorem C1_no_detection_pads_slot_0_only :
  forall (F : Type) (zero : F) (l : list F),
    get_face zero [[]; [Person (-1) l]] =
      Ok (([replicate 140 zero], []), ([replicate 70 zero], [])) /\
    get_face zero [[]; []] =
      Ok (([replicate 140 zero], []), ([replicate 70 zero], [])) /\
    get_body zero [[Person (-1) l]; []] =
      Ok (([replicate 52 zero], []), ([replicate 26 zero], [])) /\
    get_hands zero [[]; [HandPerson (-1) (Some l) (Some l)]; []] =
      Ok (([Flat (replicate 84 zero)], []), ([Flat (replicate 42 zero)], [])).
Proof. intros F zero l. repeat split. Qed.

(** C3 at folders whose second retained frame has no detected person: three
    frames are retained, slot 0 has three elements, slot 1 only two. *)
Theorem C3_slot_1_shorter_than_frames :
  (exists s2 s3,
     get_face 0%float face_with_gap = Ok (s2, s3) /\
     length (drop_first face_with_gap) = 3 /\
     length s2.1 = 3 /\ length s3.1 = 3 /\
     length s2.2 = 2 /\ length s3.2 = 2) /\
  (exists s2 s3,
     get_hands 0%float hands_with_gap = Ok (s2, s3) /\
     length (drop_first_last hands_with_gap) = 3 /\
     length s2.1 = 3 /\ length s3.1 = 3 /\
     length s2.2 = 2 /\ length s3.2 = 2) /\
  (exists s2 s3,
     get_body 0%float body_with_gap = Ok (s2, s3) /\
     length (drop_last body_with_gap) = 3 /\
     length s2.1 = 3 /\ length s3.1 = 3 /\
     length s2.2 = 2 /\ length s3.2 = 2).
Proof.
  split; [|split].
  - destruct (get_face 0%float face_with_gap) as [[s2 s3]|e] eqn:Hget;
      [|vm_compute in Hget; discriminate].
    exists s2, s3. split; [done|].
    vm_compute in Hget. injection Hget as <- <-. repeat split.
  - destruct (get_hands 0%float hands_with_gap) as [[s2 s3]|e] eqn:Hget;
      [|vm_compute in Hget; discriminate].
    exists s2, s3. split; [done|].
    vm_compute in Hget. injection Hget as <- <-. repeat split.
  - destruct (get_body 0%float body_with_gap) as [[s2 s3]|e] eqn:Hget;
      [|vm_compute in Hget; discriminate].
    exists s2, s3. split; [done|].
    vm_compute in Hget. injection Hget as <- <-. repeat split.
Qed.

(** ** Lengths of the sequences that the face and body extractors return

    The planar and the depth sequence of a slot always have the same length.
    Slot 0 has one element per retained frame; slot 1 has one element per
    retained frame that holds at least one entry with [id != -1]. *)

Section ExtractorLengths.
Context {F : Type} (zero : F).
Implicit Types (p : @person F) (st : @seqs F) (people : @frame F).

Lemma slots_push_length {E : Type} (t : slots E) i v :
  i < 2 ->
  length (slots_push t i v).1 = length t.1 + grow_0 i (S i) /\
  length (slots_push t i v).2 = length t.2 + grow_1 i (S i).
Proof.
  destruct i as [|[|i]]; simpl; intros; rewrite ?length_app; simpl; lia.
Qed.

Ltac case_012 i :=
  destruct i as [|[|[|i]]]; try lia.

Lemma keypoint_person_lengths stride st i p st' i' :
  i <= 2 ->
  keypoint_person stride st i p = Ok (st', i') ->
  i' = i + (if is_valid p then 1 else 0) /\ i' <= 2 /\
  length st'.1.1 = length st.1.1 + grow_0 i i' /\
  length st'.2.1 = length st.2.1 + grow_0 i i' /\
  length st'.1.2 = length st.1.2 + grow_1 i i' /\
  length st'.2.2 = length st.2.2 + grow_1 i i'.
Proof.
  intros Hi2. unfold keypoint_person. destruct (is_valid p).
  - destruct (split_coords stride (landmarks p)) as [c|e]; simpl; [|done].
    destruct (le_lt_dec 2 i) as [Hi|Hi].
    + by rewrite slots_append_err by done.
    + rewrite !slots_append_ok by done. simpl. intros [= <- <-]. simpl.
      destruct (slots_push_length st.1 i c.1 Hi) as [H1 H2].
      destruct (slots_push_length st.2 i c.2 Hi) as [H3 H4].
      rewrite H1, H2, H3, H4. repeat split; lia.
  - intros [= <- <-]. case_012 i; simpl; repeat split; lia.
Qed.

Lemma grow_0_trans i j k :
  i <= j -> j <= k -> grow_0 i k = grow_0 i j + grow_0 j k.
Proof. intros. case_012 i; case_012 j; case_012 k; done. Qed.

Lemma grow_1_trans i j k :
  i <= j -> j <= k -> k <= 2 -> grow_1 i k = grow_1 i j + grow_1 j k.
Proof. intros. case_012 i; case_012 j; case_012 k; done. Qed.

Lemma people_loop_lengths stride people : forall st i st' i',
  i <= 2 ->
  people_loop stride st i people = Ok (st', i') ->
  i' = i + length (List.filter is_valid people) /\ i' <= 2 /\
  length st'.1.1 = length st.1.1 + grow_0 i i' /\
  length st'.2.1 = length st.2.1 + grow_0 i i' /\
  length st'.1.2 = length st.1.2 + grow_1 i i' /\
  length st'.2.2 = length st.2.2 + grow_1 i i'.
Proof.
  induction people as [|p people IH]; intros st i st' i' Hi2; simpl.
  - intros [= <- <-]. case_012 i; simpl; repeat split; lia.
  - destruct (keypoint_person stride st i p) as [[st1 i1]|e] eqn:Hp;
      simpl; [|done].
    intros Hrest.
    apply keypoint_person_lengths in Hp as (Hi1 & Hi12 & A1 & A2 & A3 & A4);
      [|done].
    apply IH in Hrest as (Hi' & Hi'2 & B1 & B2 & B3 & B4); [|done].
    assert (Hle1 : i <= i1) by lia.
    assert (Hle2 : i1 <= i') by lia.
    rewrite (grow_0_trans i i1 i'), (grow_1_trans i i1 i') by done.
    rewrite B1, B2, B3, B4, A1, A2, A3, A4.
    split; [destruct (is_valid p); simpl; lia|].
    repeat split; lia.
Qed.

Lemma keypoint_frame_lengths stride w2 w3 st people st' :
  keypoint_frame zero stride w2 w3 st people = Ok st' ->
  let d := if has_detection people then 1 else 0 in
  length st'.1.1 = S (length st.1.1) /\
  length st'.2.1 = S (length st.2.1) /\
  length st'.1.2 = length st.1.2 + d /\
  length st'.2.2 = length st.2.2 + d.
Proof.
  unfold keypoint_frame, has_detection.
  destruct (people_loop stride st 0 people) as [[st1 i1]|e] eqn:Hloop;
    simpl; [|done].
  apply people_loop_lengths in Hloop as (Hi1 & Hle & A1 & A2 & A3 & A4);
    [|lia].
  simpl in Hi1.
  destruct (i1 <? 2) eqn:Hlt.
  - apply Nat.ltb_lt in Hlt. rewrite !slots_append_ok by done. simpl.
    intros [= <-]. simpl.
    destruct (slots_push_length st1.1 i1 (replicate w2 zero) Hlt) as [H1 H2].
    destruct (slots_push_length st1.2 i1 (replicate w3 zero) Hlt) as [H3 H4].
    rewrite H1, H2, H3, H4, A1, A2, A3, A4.
    destruct (List.filter is_valid people) as [|a [|b l]];
      simpl in Hi1; subst i1; simpl; repeat split; lia.
  - apply Nat.ltb_ge in Hlt. intros [= <-].
    rewrite A1, A2, A3, A4.
    destruct (List.filter is_valid people) as [|a [|b [|c l]]];
      simpl in Hi1; subst i1; simpl; repeat split; lia.
Qed.

Lemma frames_loop_lengths stride w2 w3 files : forall st st',
  frames_loop zero stride w2 w3 st files = Ok st' ->
  let d := length (List.filter has_detection files) in
  length st'.1.1 = length st.1.1 + length files /\
  length st'.2.1 = length st.2.1 + length files /\
  length st'.1.2 = length st.1.2 + d /\
  length st'.2.2 = length st.2.2 + d.
Proof.
  induction files as [|f files IH]; intros st st'; simpl.
  - intros [= <-]. lia.
  - destruct (keypoint_frame zero stride w2 w3 st f) as [st1|e] eqn:Hf;
      simpl; [|done].
    intros Hrest. apply IH in Hrest. apply keypoint_frame_lengths in Hf.
    destruct (has_detection f); simpl in *; lia.
Qed.

(** What holds of C3 for the face and body extractors. *)
Lemma get_face_lengths files s2 s3 :
  get_face zero files = Ok (s2, s3) ->
  length s2.1 = length (drop_first files) /\
  length s3.1 = length (drop_first files) /\
  length s2.2 = length s3.2 /\
  length s2.2 = length (List.filter has_detection (drop_first files)).
Proof.
  unfold get_face. intros H. apply frames_loop_lengths in H. simpl in H. lia.
Qed.

Lemma get_body_lengths files s2 s3 :
  get_body zero files = Ok (s2, s3) ->
  length s2.1 = length (drop_last files) /\
  length s3.1 = length (drop_last files) /\
  length s2.2 = length s3.2 /\
  length s2.2 = length (List.filter has_detection (drop_last files)).
Proof.
  unfold get_body. intros H. apply frames_loop_lengths in H. simpl in H. lia.
Qed.
End ExtractorLengths.

(** ** Hands extractor *)

Ltac Zify.zify_post_hook ::= Z.to_euclidean_division_equations.

Section HandsFacts.
Context {F : Type} (zero : F).
Implicit Types (p : @hand_person F) (st : @hstate F).
Local Arguments replicate : simpl never.

Lemma hand_pick_loop_present p hand l n : forall k,
  hand_landmarks p hand = Ok l ->
  k + n <= length l ->
  hand_pick_loop p hand (seq k n) = Ok (xy_aux k (take n (drop k l))).
Proof.
  induction n as [|n IH]; intros k Hl Hk; cbn -[Nat.modulo]; [done|].
  destruct (lookup_lt_is_Some_2 l k) as [v Hv]; [lia|].
  rewrite (drop_S l v k Hv). cbn -[Nat.modulo].
  destruct ((k + 1) mod 3 =? 0).
  - by apply IH; [|lia].
  - rewrite Hl. simpl. unfold py_index. rewrite Hv. simpl.
    rewrite IH by (done || lia). done.
Qed.

Lemma hand_xy_present p hand l :
  hand_landmarks p hand = Ok l ->
  hand_xy p hand hand = Ok (xy_of l).
Proof.
  intros Hl. unfold hand_xy. rewrite Hl. simpl.
  rewrite (hand_pick_loop_present p hand l) by (done || simpl; lia).
  by rewrite drop_0, firstn_all.
Qed.

Lemma xy_aux_cons k (v : F) t :
  xy_aux k (v :: t) =
    if ((k + 1) mod 3 =? 0) then xy_aux (S k) t else v :: xy_aux (S k) t.
Proof. reflexivity. Qed.

Lemma xy_aux_length n : forall k (l : list F),
  k mod 3 = 0 -> length l = 3 * n -> length (xy_aux k l) = 2 * n.
Proof.
  induction n as [|n IH]; intros k l Hk Hl.
  - destruct l; [done|simpl in Hl; lia].
  - destruct l as [|x [|y [|z l]]]; simpl in Hl; try lia.
    rewrite !xy_aux_cons.
    destruct (Nat.eqb_spec ((k + 1) mod 3) 0); [lia|].
    destruct (Nat.eqb_spec ((S k + 1) mod 3) 0); [lia|].
    destruct (Nat.eqb_spec ((S (S k) + 1) mod 3) 0); [|lia].
    cbn [length]. rewrite (IH (S (S (S k))) l) by lia. lia.
Qed.

Lemma xy_of_length_63 (l : list F) : length l = 63 -> length (xy_of l) = 42.
Proof. intros Hl. apply (xy_aux_length 21); [done|by rewrite Hl]. Qed.

Lemma hand_z_length_63 (l : list F) :
  length l = 63 -> length (py_slice_step 2 3 l) = 21.
Proof. intros Hl. apply py_slice_step_length; [lia|by rewrite Hl]. Qed.

(** The left hand is missing: zeros stand in for it. *)
Lemma hands_person_left_missing st i h r :
  h <> (-1)%Z -> i < 2 -> r <> [] ->
  hands_person zero st i (HandPerson h None (Some r)) =
    Ok (HState
          (slots_push (hand_2D_seq st) i (Flat (replicate 42 zero ++ xy_of r)))
          (slots_push (hand_3D_seq st) i
             (Flat (replicate 21 zero ++ py_slice_step 2 3 r)))
          (Some (Flat (replicate 42 zero ++ xy_of r)))
          (Some (Flat (replicate 21 zero ++ py_slice_step 2 3 r))),
        S i).
Proof.
  intros Hh Hi Hr. unfold hands_person. simpl.
  replace (h =? -1)%Z with false by (symmetry; by apply Z.eqb_neq).
  destruct r as [|v r]; [done|].
  unfold try_block, hand_xy at 1. simpl.
  unfold handler, recover. simpl.
  rewrite (hand_xy_present _ RightHand (v :: r)) by done.
  simpl. unfold append_local.
  replace (i <? 2) with true by (symmetry; by apply Nat.ltb_lt).
  by rewrite !slots_append_ok by done.
Qed.

(** The right hand is missing: zeros stand in for it. *)
Lemma hands_person_right_missing st i h l :
  h <> (-1)%Z -> i < 2 ->
  hands_person zero st i (HandPerson h (Some l) None) =
    Ok (HState
          (slots_push (hand_2D_seq st) i (Flat (xy_of l ++ replicate 42 zero)))
          (slots_push (hand_3D_seq st) i
             (Flat (py_slice_step 2 3 l ++ replicate 21 zero)))
          (Some (Flat (xy_of l ++ replicate 42 zero)))
          (Some (Flat (py_slice_step 2 3 l ++ replicate 21 zero))),
        S i).
Proof.
  intros Hh Hi. unfold hands_person. simpl.
  replace (h =? -1)%Z with false by (symmetry; by apply Z.eqb_neq).
  unfold handler, recover. simpl.
  rewrite (hand_xy_present _ LeftHand l) by done.
  simpl. unfold append_local.
  replace (i <? 2) with true by (symmetry; by apply Nat.ltb_lt).
  by rewrite !slots_append_ok by done.
Qed.

(** Both hands are missing: the first exception names [right_hand], so the
    branch that reads [left_hand] runs and its [KeyError] is not caught. *)
Lemma hands_person_both_missing st i h :
  h <> (-1)%Z ->
  hands_person zero st i (HandPerson h None None) =
    Raise (KeyError "left_hand").
Proof.
  intros Hh. unfold hands_person. simpl.
  by replace (h =? -1)%Z with false by (symmetry; by apply Z.eqb_neq).
Qed.
End HandsFacts.

(** C4 at a person entry with neither [left_hand] nor [right_hand]: the
    extractor raises [KeyError] instead of appending zero vectors. *)
Theorem C4_both_hands_missing_raises :
  forall (F : Type) (zero : F),
    get_hands zero [[]; [HandPerson 7 None None]; []] =
      Raise (KeyError "left_hand").
Proof. intros F zero. reflexivity. Qed.

(** ** Exceptions that name neither hand *)

Section HandlerFacts.
Context {F : Type} (zero : F).
Implicit Types (p : @hand_person F) (st : @hstate F).

Lemma hand_landmarks_exc p hand e :
  hand_landmarks p hand = Raise e -> names_a_hand e = true.
Proof.
  unfold hand_landmarks.
  destruct hand; [destruct (left_hand p)|destruct (right_hand p)];
    intros [= <-]; reflexivity.
Qed.

Lemma hand_pick_loop_exc p hand cs e :
  hand_pick_loop p hand cs = Raise e ->
  names_a_hand e = true \/ e = IndexError list_index_msg.
Proof.
  induction cs as [|c cs IH]; cbn -[Nat.modulo]; [done|].
  destruct ((c + 1) mod 3 =? 0); [done|].
  destruct (hand_landmarks p hand) as [l|e0] eqn:Hl; simpl.
  - unfold py_index. destruct (l !! c) as [v|]; simpl.
    + destruct (hand_pick_loop p hand cs) as [vs|e1]; simpl; [done|].
      intros [= <-]. by apply IH.
    + intros [= <-]. by right.
  - intros [= <-]. left. by eapply hand_landmarks_exc.
Qed.

Lemma hand_xy_exc p hand range_hand e :
  hand_xy p hand range_hand = Raise e ->
  names_a_hand e = true \/ e = IndexError list_index_msg.
Proof.
  unfold hand_xy.
  destruct (hand_landmarks p range_hand) as [r|e0] eqn:Hr; simpl.
  - apply hand_pick_loop_exc.
  - intros [= <-]. left. by eapply hand_landmarks_exc.
Qed.

Lemma hand_z_exc p hand e :
  hand_z p hand = Raise e -> names_a_hand e = true.
Proof.
  unfold hand_z.
  destruct (hand_landmarks p hand) as [l|e0] eqn:Hl; simpl; [done|].
  intros [= <-]. by eapply hand_landmarks_exc.
Qed.

(** In slots 0 and 1 the only exception of the try block that names neither
    hand is the [IndexError] of a landmark list that is too short, and it is
    raised before the try block has changed anything. *)
Lemma try_block_unrecognised st i p st1 e :
  i < 2 ->
  try_block st i p = (st1, Some e) ->
  names_a_hand e = false ->
  st1 = st /\ e = IndexError list_index_msg.
Proof.
  intros Hi Htry Hname. unfold try_block in Htry.
  destruct (hand_xy p LeftHand RightHand) as [l|e0] eqn:Hl; simpl in Htry.
  2:{ injection Htry as <- <-.
      apply hand_xy_exc in Hl as [Hl|Hl]; [congruence|done]. }
  destruct (hand_xy p RightHand RightHand) as [r|e0] eqn:Hr; simpl in Htry.
  2:{ injection Htry as <- <-.
      apply hand_xy_exc in Hr as [Hr|Hr]; [congruence|done]. }
  rewrite slots_append_ok in Htry by done.
  destruct (hand_z p LeftHand) as [l3|e0] eqn:Hl3; simpl in Htry.
  2:{ injection Htry as <- <-. apply hand_z_exc in Hl3. congruence. }
  destruct (hand_z p RightHand) as [r3|e0] eqn:Hr3; simpl in Htry.
  2:{ injection Htry as <- <-. apply hand_z_exc in Hr3. congruence. }
  rewrite slots_append_ok in Htry by done. done.
Qed.
End HandlerFacts.

(** C10, as the code has it. When the try block of a person entry with
    [id != -1] raises an exception whose message contains neither
    ['left_hand'] nor ['right_hand'], no recovery branch assigns anything and
    the handler appends what [hands] and [hands_3d] hold from earlier entries
    of the same call: in slot 0 or 1 the try block has changed nothing, the
    extractor fails with an unbound-variable error if [hands] (or, after it,
    [hands_3d]) was never assigned, and otherwise appends the stale values
    without any error; for a third detected person it fails with
    [IndexError]. *)
Theorem C10_unrecognised_exception {F : Type} (zero : F)
    (st st1 : @hstate F) (i : nat) (p : @hand_person F) (e : PyExc) :
  (hid p =? -1)%Z = false ->
  try_block st i p = (st1, Some e) ->
  py_in "left_hand" (str_exc e) = false ->
  py_in "right_hand" (str_exc e) = false ->
  (2 <= i ->
     hands_person zero st i p = Raise (IndexError tuple_index_msg)) /\
  (i < 2 ->
     st1 = st /\ e = IndexError list_index_msg /\
     (v_hands st = None ->
        hands_person zero st i p = Raise (UnboundLocalError "hands")) /\
     (forall h, v_hands st = Some h -> v_hands_3d st = None ->
        hands_person zero st i p = Raise (UnboundLocalError "hands_3d")) /\
     (forall h h3, v_hands st = Some h -> v_hands_3d st = Some h3 ->
        hands_person zero st i p =
          Ok (HState (slots_push (hand_2D_seq st) i h)
                     (slots_push (hand_3D_seq st) i h3)
                     (Some h) (Some h3),
              S i))).
Proof.
  intros Hid Htry Hleft Hright.
  assert (Hstep : hands_person zero st i p =
                  (st2 <- handler zero e st1 i p ;; Ok (st2, S i)))
    by (unfold hands_person; by rewrite Hid, Htry).
  assert (Hrec : recover zero e st1 p = Ok st1)
    by (unfold recover; by rewrite Hleft, Hright).
  rewrite Hstep. unfold handler. rewrite Hrec. simpl.
  unfold append_local. split.
  - intros Hi. by replace (i <? 2) with false
      by (symmetry; apply Nat.ltb_ge; lia).
  - intros Hi.
    destruct (try_block_unrecognised st i p st1 e Hi Htry) as [-> ->];
      [unfold names_a_hand; by rewrite Hleft, Hright|].
    replace (i <? 2) with true by (symmetry; by apply Nat.ltb_lt).
    repeat split.
    + by intros ->.
    + intros h -> ->. by rewrite slots_append_ok by done.
    + intros h h3 Hh Hh3. rewrite Hh, Hh3.
      rewrite !slots_append_ok by done. simpl.
      unfold set_3D, set_2D. simpl. by rewrite Hh, Hh3.
Qed.

Lemma C10_unrecognised_exception_witness :
  (hid (short_left 0) =? -1)%Z = false /\
  try_block init_hstate 0 (short_left 0) =
    (init_hstate, Some (IndexError list_index_msg)) /\
  py_in "left_hand" (str_exc (IndexError list_index_msg)) = false /\
  py_in "right_hand" (str_exc (IndexError list_index_msg)) = false /\
  hands_person 0%float init_hstate 0 (short_left 0) =
    Raise (UnboundLocalError "hands").
Proof.
  assert (Htry : try_block init_hstate 0 (short_left 0) =
                 (init_hstate, Some (IndexError list_index_msg)))
    by (vm_compute; reflexivity).
  repeat (split; [first [reflexivity | exact Htry]|]).
  destruct (C10_unrecognised_exception 0%float init_hstate init_hstate 0
              (short_left 0) (IndexError list_index_msg)
              eq_refl Htry eq_refl eq_refl) as [_ Hslot].
  destruct (Hslot ltac:(lia)) as (_ & _ & Hunbound & _).
  apply Hunbound. reflexivity.
Defined.

(** C10, as stated, fails: after a complete person entry has bound [hands]
    and [hands_3d], an entry whose short left-hand list raises an
    [IndexError] makes the extractor append the stale values of the earlier
    entry and return normally; and for a third detected person the failure
    is an [IndexError], not an unbound-variable error. *)
Lemma C10_stale_values_appended :
  (exists st,
     hands_frame 0%float init_hstate [both_hands 0] = Ok st /\
     try_block st 0 (short_left 0) = (st, Some (IndexError list_index_msg)) /\
     py_in "left_hand" (str_exc (IndexError list_index_msg)) = false /\
     py_in "right_hand" (str_exc (IndexError list_index_msg)) = false) /\
  (exists s2 s3,
     get_hands 0%float stale_hands = Ok (s2, s3) /\
     s2.1 !! 1 = Some (Nested (xy_of (ramp 63)) (xy_of (ramp_from 101 63))) /\
     s3.1 !! 1 = Some (Nested (py_slice_step 2 3 (ramp 63))
                              (py_slice_step 2 3 (ramp_from 101 63)))) /\
  ~ (exists v, get_hands 0%float stale_hands = Raise (UnboundLocalError v)) /\
  get_hands 0%float three_hands = Raise (IndexError tuple_index_msg).
Proof.
  split; [|split; [|split]].
  - destruct (hands_frame 0%float init_hstate [both_hands 0]) as [st|e] eqn:Hst;
      [|vm_compute in Hst; discriminate].
    exists st. split; [done|].
    vm_compute in Hst. injection Hst as <-.
    repeat split; vm_compute; reflexivity.
  - destruct (get_hands 0%float stale_hands) as [[s2 s3]|e] eqn:Hget;
      [|vm_compute in Hget; discriminate].
    exists s2, s3. split; [done|].
    vm_compute in Hget. injection Hget as <- <-.
    split; vm_compute; reflexivity.
  - intros [v Hv]. vm_compute in Hv. discriminate.
  - vm_compute. reflexivity.
Qed.

(** ** Sequence padder *)

Lemma foldl_max_spec (l : list nat) : forall a,
  a <= foldl Nat.max a l /\
  (forall n, In n l -> n <= foldl Nat.max a l) /\
  In (foldl Nat.max a l) (a :: l).
Proof.
  induction l as [|b l IH]; intros a; simpl.
  - split; [lia|]. split; [tauto|]. by left.
  - destruct (IH (Nat.max a b)) as (Hge & Hall & Hin).
    split; [lia|]. split.
    + intros n [<-|Hn]; [lia|by apply Hall].
    + destruct Hin as [Hin|Hin]; [|right; by right].
      destruct (Nat.max_spec a b) as [[_ Hm]|[_ Hm]]; rewrite Hm in *.
      * right. by left.
      * by left.
Qed.

Lemma py_max_spec (ns : list nat) :
  ns <> [] ->
  exists L, py_max ns = Ok L /\ (forall n, In n ns -> n <= L) /\ In L ns.
Proof.
  destruct ns as [|a l]; [done|]. intros _.
  destruct (foldl_max_spec l a) as (Hge & Hall & Hin).
  exists (foldl Nat.max a l). split; [done|]. split; [|done].
  intros n [<-|Hn]; [done|by apply Hall].
Qed.

Section PaddingFacts.
Context {E : Type} (mk : list E -> res E) (pad : list E -> E).
Implicit Types (h : heap E) (seq : list E).

Lemma obj_insert_eq h r seq : r < length h -> obj (<[r := seq]> h) r = seq.
Proof. intros Hr. unfold obj. by rewrite list_lookup_insert_eq. Qed.

Lemma obj_insert_ne h r r' seq : r <> r' -> obj (<[r := seq]> h) r' = obj h r'.
Proof. intros Hr. unfold obj. by rewrite list_lookup_insert_ne. Qed.

Lemma padded_length L e seq : length seq <= L -> length (padded L e seq) = L.
Proof.
  intros Hl. unfold padded. rewrite length_app, length_replicate. lia.
Qed.

Lemma pad_loop_stable count : forall seq ext,
  stable mk pad seq ->
  pad_loop mk count (seq ++ ext) =
    Ok (seq ++ ext ++ replicate count (pad seq)).
Proof.
  induction count as [|c IH]; intros seq ext Hst; simpl.
  - by rewrite app_nil_r.
  - rewrite Hst. simpl. rewrite <- app_assoc. rewrite IH by done.
    by rewrite <- app_assoc.
Qed.

Lemma pad_loop_padded L seq :
  stable mk pad seq -> pad_loop mk (L - length seq) seq = Ok (padded L (pad seq) seq).
Proof.
  intros Hst. rewrite <- (app_nil_r seq) at 2.
  by rewrite pad_loop_stable.
Qed.

(** Visiting a sequence that is already padded appends nothing, so a
    sequence that occurs twice in [dataset] is padded once. *)
Lemma pad_loop_again L seq :
  length seq <= L ->
  pad_loop mk (L - length (padded L (pad seq) seq)) (padded L (pad seq) seq) =
    Ok (padded L (pad seq) seq).
Proof. intros Hl. rewrite padded_length by done. by rewrite Nat.sub_diag. Qed.

Lemma pad_refs_spec L h0 dataset : forall h,
  (forall r, In r dataset ->
     r < length h0 /\ length (obj h0 r) <= L /\ stable mk pad (obj h0 r)) ->
  length h = length h0 ->
  (forall r, obj h r = obj h0 r \/
             obj h r = padded L (pad (obj h0 r)) (obj h0 r)) ->
  exists h',
    pad_refs mk L h dataset = Ok h' /\
    length h' = length h0 /\
    (forall r, obj h r = padded L (pad (obj h0 r)) (obj h0 r) ->
               obj h' r = padded L (pad (obj h0 r)) (obj h0 r)) /\
    (forall r, In r dataset ->
               obj h' r = padded L (pad (obj h0 r)) (obj h0 r)) /\
    (forall r, ~ In r dataset -> obj h' r = obj h r).
Proof.
  induction dataset as [|r rest IH]; intros h Hds Hlen Hinv; simpl.
  - exists h. repeat split; (done || tauto).
  - destruct (Hds r (or_introl eq_refl)) as (Hr & HL & Hst).
    assert (Hvisit : pad_loop mk (L - length (obj h r)) (obj h r) =
                     Ok (padded L (pad (obj h0 r)) (obj h0 r))).
    { destruct (Hinv r) as [-> | ->];
        [by apply pad_loop_padded|by apply pad_loop_again]. }
    rewrite Hvisit. simpl.
    destruct (IH (<[r := padded L (pad (obj h0 r)) (obj h0 r)]> h))
      as (h' & Hrun & Hlen' & Hkeep & Hrest & Hout).
    + intros r' Hr'. apply Hds. by right.
    + by rewrite length_insert.
    + intros r'. destruct (decide (r = r')) as [<-|Hne].
      * right. apply obj_insert_eq. lia.
      * rewrite obj_insert_ne by done. apply Hinv.
    + exists h'. split; [done|]. split; [done|]. split; [|split].
      * intros r' Hr'. apply Hkeep.
        destruct (decide (r = r')) as [<-|Hne].
        -- apply obj_insert_eq. lia.
        -- by rewrite obj_insert_ne by done.
      * intros r' [<-|Hr']; [|by apply Hrest].
        apply Hkeep. apply obj_insert_eq. lia.
      * intros r' Hr'. rewrite Hout by tauto.
        apply obj_insert_ne. intros ->. apply Hr'. by left.
Qed.

Lemma padding_with_spec h dataset :
  dataset <> [] ->
  (forall r, In r dataset -> r < length h /\ stable mk pad (obj h r)) ->
  exists h' L,
    padding_with mk h dataset = Ok (h', L) /\
    is_max_len L h dataset /\
    length h' = length h /\
    (forall r, In r dataset ->
       obj h' r = padded L (pad (obj h r)) (obj h r) /\
       length (obj h' r) = L) /\
    (forall r, ~ In r dataset -> obj h' r = obj h r).
Proof.
  intros Hne Hds. unfold padding_with.
  destruct (py_max_spec (map (fun r => length (obj h r)) dataset))
    as (L & -> & Hall & Hin); [by destruct dataset|].
  simpl.
  assert (Hle : forall r, In r dataset -> length (obj h r) <= L).
  { intros r Hr. apply Hall. apply in_map_iff. by exists r. }
  destruct (pad_refs_spec L h dataset h) as (h' & -> & Hlen & _ & Hpad & Hout).
  - intros r Hr. destruct (Hds r Hr). split; [done|]. split; [by apply Hle|done].
  - done.
  - intros r. by left.
  - simpl. exists h', L. split; [done|]. split; [|split; [done|split]].
    + split; [done|]. apply in_map_iff in Hin as (r & Hr1 & Hr2). by exists r.
    + intros r Hr. split; [by apply Hpad|].
      rewrite Hpad by done. apply padded_length. by apply Hle.
    + done.
Qed.
End PaddingFacts.

Section PadderFacts.
Context {F : Type} (zero nan : F).

Lemma nan_vector_stable (seq : list (list F)) first :
  seq !! 0 = Some first ->
  stable (nan_vector nan) (fun _ => replicate (length first) nan) seq.
Proof.
  intros Hfirst ext. unfold nan_vector, py_index.
  by rewrite (lookup_app_l_Some _ _ _ _ Hfirst).
Qed.

Lemma kp_pad_stable labels (seq : list (@kp_elem F)) :
  stable (fun _ => Ok (kp_pad zero nan labels))
         (fun _ => kp_pad zero nan labels) seq.
Proof. by intros ext. Qed.
End PadderFacts.

(** C6, as the code has it. For a non-empty collection both padders compute
    L as the greatest sequence length, append exactly (L - len(s)) elements
    to the end of every sequence s and nothing anywhere else, so that every
    sequence has length L and its first len(s) elements are unchanged, and
    return L. The appended element is, in the full-keypoint padder (whose
    sequences must be non-empty), the vector of missing-value markers as wide
    as the first element of s; in the single-keypoint padder it is the scalar
    missing-value marker for label sequences and the zero pair [0., 0.] for
    input sequences. *)
Theorem C6_padding {F : Type} (zero nan : F)
    (h : heap (list F)) (dataset : list nat)
    (hk : heap (@kp_elem F)) (dataset_kp : list nat) (labels : bool) :
  dataset <> [] ->
  (forall r, In r dataset -> r < length h /\ obj h r <> []) ->
  dataset_kp <> [] ->
  (forall r, In r dataset_kp -> r < length hk) ->
  (exists h' L,
     padding_seq nan h dataset = Ok (h', L) /\
     is_max_len L h dataset /\
     forall r, In r dataset ->
       exists first,
         obj h r !! 0 = Some first /\
         obj h' r =
           obj h r ++
           replicate (L - length (obj h r)) (replicate (length first) nan) /\
         length (obj h' r) = L) /\
  (exists h' L,
     padding_seq_kp zero nan hk dataset_kp labels = Ok (h', L) /\
     is_max_len L hk dataset_kp /\
     forall r, In r dataset_kp ->
       obj h' r =
         obj hk r ++
         replicate (L - length (obj hk r))
           (if labels then Scalar nan else Vector [zero; zero]) /\
       length (obj h' r) = L).
Proof.
  intros Hne Hds Hnek Hdsk. split.
  - set (pad := fun seq : list (list F) =>
                  replicate (length (default [] (seq !! 0))) nan).
    destruct (padding_with_spec (nan_vector nan) pad h dataset Hne)
      as (h' & L & Hrun & Hmax & _ & Hpad & _).
    { intros r Hr. destruct (Hds r Hr) as [Hlt Hnonempty]. split; [done|].
      destruct (obj h r) as [|first seq] eqn:Hobj; [done|].
      intros ext. by apply (nan_vector_stable nan (first :: seq) first). }
    exists h', L. split; [done|]. split; [done|].
    intros r Hr. destruct (Hds r Hr) as [Hlt Hnonempty].
    destruct (Hpad r Hr) as [Heq Hlen].
    destruct (obj h r) as [|first seq] eqn:Hobj; [done|].
    exists first. by repeat split.
  - destruct (padding_with_spec (fun _ => Ok (kp_pad zero nan labels))
                (fun _ => kp_pad zero nan labels) hk dataset_kp Hnek)
      as (h' & L & Hrun & Hmax & _ & Hpad & _).
    { intros r Hr. split; [by apply Hdsk|]. apply kp_pad_stable. }
    exists h', L. split; [done|]. split; [done|].
    intros r Hr. destruct (Hpad r Hr) as [Heq Hlen]. split; [|done].
    rewrite Heq. unfold padded, kp_pad. by destruct labels.
Qed.

Lemma C6_padding_witness :
  [0; 1; 2; 0] <> [] /\
  (forall r, In r [0; 1; 2; 0] ->
     r < length full_inputs /\ obj full_inputs r <> []) /\
  [0; 1] <> [] /\
  (forall r, In r [0; 1] -> r < length kp_labels) /\
  (exists h' L,
     padding_seq nan full_inputs [0; 1; 2; 0] = Ok (h', L) /\
     is_max_len L full_inputs [0; 1; 2; 0] /\
     forall r, In r [0; 1; 2; 0] ->
       exists first,
         obj full_inputs r !! 0 = Some first /\
         obj h' r =
           obj full_inputs r ++
           replicate (L - length (obj full_inputs r))
             (replicate (length first) nan) /\
         length (obj h' r) = L) /\
  (exists h' L,
     padding_seq_kp 0%float nan kp_labels [0; 1] true = Ok (h', L) /\
     is_max_len L kp_labels [0; 1] /\
     forall r, In r [0; 1] ->
       obj h' r =
         obj kp_labels r ++
         replicate (L - length (obj kp_labels r)) (Scalar nan) /\
       length (obj h' r) = L).
Proof.
  assert (H1 : [0; 1; 2; 0] <> []) by discriminate.
  assert (H2 : forall r, In r [0; 1; 2; 0] ->
                 r < length full_inputs /\ obj full_inputs r <> []).
  { intros r [<-|[<-|[<-|[<-|[]]]]]; (split; [simpl; lia|discriminate]). }
  assert (H3 : [0; 1] <> []) by discriminate.
  assert (H4 : forall r, In r [0; 1] -> r < length kp_labels).
  { intros r [<-|[<-|[]]]; simpl; lia. }
  repeat (split; [assumption|]).
  exact (C6_padding 0%float nan full_inputs [0; 1; 2; 0] kp_labels [0; 1] true
           H1 H2 H3 H4).
Defined.

(** C6, as stated, fails on the single-keypoint padder: the element it
    appends to an input sequence is the zero pair, not a vector of
    missing-value markers. *)
Lemma C6_inputs_padded_with_zeros :
  exists h',
    padding_seq_kp 0%float nan kp_inputs [0; 1] false = Ok (h', 2) /\
    obj kp_inputs 0 = [Vector [1; 2]]%float /\
    obj h' 0 = [Vector [1; 2]; Vector [0; 0]]%float /\
    obj h' 0 !! 1 <> Some (Vector [nan; nan]).
Proof.
  exists [[Vector [1; 2]; Vector [0; 0]];
          [Vector [3; 4]; Vector [5; 6]]]%float.
  split; [vm_compute; reflexivity|].
  split; [reflexivity|]. split; [reflexivity|].
  intros H.
  apply (f_equal (fun o => match o with
                           | Some (Vector (x :: _)) => PrimFloat.is_nan x
                           | _ => false
                           end)) in H.
  vm_compute in H. discriminate.
Qed.

(** ** NumPy sums *)

Section ReductionFacts.
Context {F : Type} (ops : np_arith F).

(** Any fuel from the length of the array on gives the same sum. *)
Lemma pairwise_sum_enough (f1 : nat) : forall f2 (a : list F),
  length a <= f1 -> length a <= f2 ->
  pairwise_sum ops f1 a = pairwise_sum ops f2 a.
Proof.
  induction f1 as [|f1 IH]; intros f2 a H1 H2.
  - destruct a; [|simpl in H1; lia]. by destruct f2.
  - destruct f2 as [|f2].
    + destruct a; [done|simpl in H2; lia].
    + cbn [pairwise_sum].
      destruct (Nat.ltb_spec (length a) 8) as [|H8]; [done|].
      destruct (Nat.leb_spec (length a) 128) as [|H128]; [done|].
      assert (Hn2 : 64 <= length a / 2 - (length a / 2) mod 8 < length a).
      { pose proof (Nat.div_mod_eq (length a) 2).
        pose proof (Nat.mod_upper_bound (length a) 2).
        pose proof (Nat.div_mod_eq (length a / 2) 8).
        pose proof (Nat.mod_upper_bound (length a / 2) 8). lia. }
      f_equal; apply IH; rewrite ?length_take, ?length_drop; lia.
Qed.

(** The sums of an array of zeros. *)
Lemma sum_from_zeros n :
  fadd ops (fzero ops) (fzero ops) = fzero ops ->
  sum_from ops (fzero ops) (replicate n (fzero ops)) = fzero ops.
Proof.
  intros H0. unfold sum_from. induction n as [|n IH]; [done|].
  simpl. by rewrite H0.
Qed.

Lemma lanes_zeros b : forall n,
  fadd ops (fzero ops) (fzero ops) = fzero ops ->
  8 * b <= n ->
  lanes ops b (replicate 8 (fzero ops)) (replicate n (fzero ops)) =
    (replicate 8 (fzero ops), replicate (n - 8 * b) (fzero ops)).
Proof.
  induction b as [|b IH]; intros n H0 Hn.
  - simpl. by rewrite Nat.sub_0_r.
  - cbn [lanes]. rewrite take_replicate, drop_replicate.
    replace (8 `min` n) with 8 by lia.
    replace (zip_with (fadd ops) (replicate 8 (fzero ops))
               (replicate 8 (fzero ops)))
      with (replicate 8 (fzero ops)).
    + rewrite IH by (done || lia). do 2 f_equal. lia.
    + cbn. by rewrite !H0.
Qed.

Lemma block_sum_zeros n :
  fadd ops (fzero ops) (fzero ops) = fzero ops ->
  8 <= n ->
  block_sum ops (replicate n (fzero ops)) = fzero ops.
Proof.
  intros H0 Hn. unfold block_sum.
  rewrite length_replicate, take_replicate, drop_replicate.
  replace (8 `min` n) with 8 by lia.
  rewrite lanes_zeros; [|done|].
  - cbn [fst snd replicate]. rewrite !H0. by apply sum_from_zeros.
  - pose proof (Nat.div_mod_eq n 8). lia.
Qed.

Lemma pairwise_sum_zeros fuel : forall n,
  fadd ops (fzero ops) (fzero ops) = fzero ops ->
  pairwise_sum ops fuel (replicate n (fzero ops)) = fzero ops.
Proof.
  induction fuel as [|fuel IH]; intros n H0; cbn [pairwise_sum];
    rewrite length_replicate;
    destruct (Nat.ltb_spec n 8); try (by apply sum_from_zeros);
    destruct (Nat.leb_spec n 128); try (by apply block_sum_zeros);
    try (by apply sum_from_zeros).
  rewrite take_replicate, drop_replicate, !IH by done. done.
Qed.

Lemma np_sum_zeros n :
  fadd ops (fzero ops) (fzero ops) = fzero ops ->
  np_sum ops (replicate n (fzero ops)) = fzero ops.
Proof. intros H0. unfold np_sum. by rewrite pairwise_sum_zeros, H0. Qed.

Lemma not_nan_app (xs ys : list F) :
  not_nan (fis_nan ops) (xs ++ ys) =
  not_nan (fis_nan ops) xs ++ not_nan (fis_nan ops) ys.
Proof. unfold not_nan. apply List.filter_app. Qed.

Lemma not_nan_all_missing (xs : list F) :
  (forall v, In v xs -> fis_nan ops v = true) -> not_nan (fis_nan ops) xs = [].
Proof.
  unfold not_nan. induction xs as [|x xs IH]; intros Hall; simpl; [done|].
  rewrite (Hall x) by (by left). simpl. apply IH.
  intros v Hv. apply Hall. by right.
Qed.

Lemma count_kept_app (xs ys : list F) :
  count_kept ops (xs ++ ys) = count_kept ops xs + count_kept ops ys.
Proof. unfold count_kept. by rewrite not_nan_app, length_app. Qed.

Lemma count_kept_all_missing (xs : list F) :
  (forall v, In v xs -> fis_nan ops v = true) -> count_kept ops xs = 0.
Proof. intros H. unfold count_kept. by rewrite not_nan_all_missing. Qed.

Lemma replace_nan_app (xs ys : list F) :
  replace_nan ops (xs ++ ys) = replace_nan ops xs ++ replace_nan ops ys.
Proof. unfold replace_nan. apply map_app. Qed.

Lemma replace_nan_all_missing (xs : list F) :
  (forall v, In v xs -> fis_nan ops v = true) ->
  replace_nan ops xs = replicate (length xs) (fzero ops).
Proof.
  unfold replace_nan. induction xs as [|x xs IH]; intros Hall; [done|].
  simpl. rewrite (Hall x) by (by left). f_equal. apply IH.
  intros v Hv. apply Hall. by right.
Qed.

(** The mean of an array of missing values is [0./0.]. *)
Lemma nanmean_all_missing (xs : list F) :
  fadd ops (fzero ops) (fzero ops) = fzero ops ->
  (forall v, In v xs -> fis_nan ops v = true) ->
  nanmean ops xs = fdiv ops (fzero ops) (fcount ops 0).
Proof.
  intros H0 Hall. unfold nanmean.
  rewrite replace_nan_all_missing, count_kept_all_missing by done.
  by rewrite np_sum_zeros.
Qed.
End ReductionFacts.

(** *** Sums in exact arithmetic *)

Section ExactSums.
Context {F : Type} (ops : np_arith F).
Hypothesis Hexact : exact_sums ops.

Lemma add_assoc' x y z :
  fadd ops x (fadd ops y z) = fadd ops (fadd ops x y) z.
Proof. by destruct Hexact as (H & _). Qed.

Lemma add_comm' x y : fadd ops x y = fadd ops y x.
Proof. by destruct Hexact as (_ & H & _). Qed.

Lemma add_zero_r x : fadd ops x (fzero ops) = x.
Proof. by destruct Hexact as (_ & _ & H & _). Qed.

Lemma add_zero_l x : fadd ops (fzero ops) x = x.
Proof. by rewrite add_comm', add_zero_r. Qed.

Lemma sum_from_total r (a : list F) :
  sum_from ops r a = fadd ops r (foldr (fadd ops) (fzero ops) a).
Proof.
  unfold sum_from. revert r. induction a as [|x a IH]; intros r; simpl.
  - by rewrite add_zero_r.
  - by rewrite IH, add_assoc'.
Qed.

Lemma total_app (a b : list F) :
  foldr (fadd ops) (fzero ops) (a ++ b) =
  fadd ops (foldr (fadd ops) (fzero ops) a) (foldr (fadd ops) (fzero ops) b).
Proof.
  induction a as [|x a IH]; simpl.
  - by rewrite add_zero_l.
  - by rewrite IH, add_assoc'.
Qed.

Lemma total_zip (r : list F) : forall s,
  length r = length s ->
  foldr (fadd ops) (fzero ops) (zip_with (fadd ops) r s) =
  fadd ops (foldr (fadd ops) (fzero ops) r) (foldr (fadd ops) (fzero ops) s).
Proof.
  induction r as [|x r IH]; intros [|y s] Hl; simpl in *; try lia.
  - by rewrite add_zero_l.
  - rewrite IH by lia.
    rewrite <- !add_assoc'. f_equal.
    rewrite !add_assoc'. f_equal. apply add_comm'.
Qed.

Lemma lanes_total b : forall (r a : list F),
  length r = 8 -> 8 * b <= length a ->
  length (lanes ops b r a).1 = 8 /\
  fadd ops (foldr (fadd ops) (fzero ops) (lanes ops b r a).1)
           (foldr (fadd ops) (fzero ops) (lanes ops b r a).2) =
  fadd ops (foldr (fadd ops) (fzero ops) r) (foldr (fadd ops) (fzero ops) a).
Proof.
  induction b as [|b IH]; intros r a Hr Ha; [done|].
  cbn [lanes].
  assert (Ht : length (take 8 a) = 8) by (rewrite length_take; lia).
  destruct (IH (zip_with (fadd ops) r (take 8 a)) (drop 8 a)) as [Hl Hs].
  { rewrite length_zip_with. lia. }
  { rewrite length_drop. lia. }
  split; [exact Hl|]. rewrite Hs, total_zip by lia.
  by rewrite <- add_assoc', <- total_app, take_drop.
Qed.

Lemma block_sum_total (a : list F) :
  8 <= length a -> block_sum ops a = foldr (fadd ops) (fzero ops) a.
Proof.
  intros Ha. unfold block_sum.
  destruct (lanes_total (length a / 8 - 1) (take 8 a) (drop 8 a)) as [Hl Hs].
  { rewrite length_take. lia. }
  { rewrite length_drop. pose proof (Nat.div_mod_eq (length a) 8). lia. }
  rewrite <- (total_app (take 8 a) (drop 8 a)), take_drop in Hs.
  rewrite <- Hs.
  destruct (lanes ops (length a / 8 - 1) (take 8 a) (drop 8 a)) as [r rest].
  simpl in *.
  destruct r as [|r0 [|r1 [|r2 [|r3 [|r4 [|r5 [|r6 [|r7 [|r8 r]]]]]]]]];
    simpl in Hl; try lia.
  rewrite sum_from_total. f_equal. simpl.
  by rewrite add_zero_r, !add_assoc'.
Qed.

Lemma pairwise_sum_total fuel : forall (a : list F),
  pairwise_sum ops fuel a = foldr (fadd ops) (fzero ops) a.
Proof.
  induction fuel as [|fuel IH]; intros a; cbn [pairwise_sum];
    destruct (Nat.ltb_spec (length a) 8);
    try (by rewrite sum_from_total, add_zero_l);
    destruct (Nat.leb_spec (length a) 128);
    try (by apply block_sum_total);
    try (by rewrite sum_from_total, add_zero_l).
  rewrite !IH, <- total_app. by rewrite take_drop.
Qed.

Lemma np_sum_total (a : list F) :
  np_sum ops a = foldr (fadd ops) (fzero ops) a.
Proof. unfold np_sum. by rewrite pairwise_sum_total, add_zero_l. Qed.

Lemma total_zeros n :
  foldr (fadd ops) (fzero ops) (replicate n (fzero ops)) = fzero ops.
Proof. induction n as [|n IH]; [done|]. simpl. by rewrite IH, add_zero_l. Qed.

(** Zeros put into the array do not change an exact sum. *)
Lemma np_sum_without_zeros (xs ys : list F) n :
  np_sum ops (xs ++ replicate n (fzero ops) ++ ys) = np_sum ops (xs ++ ys).
Proof.
  rewrite !np_sum_total, !total_app, total_zeros. by rewrite add_zero_l.
Qed.
End ExactSums.

(** ** Normalizer *)

Section NormalizeFacts.
Context {F : Type} (ops : np_arith F).

Lemma slice_step_aux_In (v : F) step l : forall skip,
  In v (slice_step_aux step skip l) -> In v l.
Proof.
  induction l as [|x t IH]; intros skip; simpl; [done|].
  destruct skip as [|s].
  - intros [->|Hin]; [by left|right; by eapply IH].
  - intros Hin. right. by eapply IH.
Qed.

Lemma subchannel_app (t1 t2 : @tensor F) i c :
  subchannel (t1 ++ t2) i c = subchannel t1 i c ++ subchannel t2 i c.
Proof. unfold subchannel. by rewrite map_app, concat_app. Qed.

Lemma subchannel_In (slot : list (list F)) i c v :
  In v (subchannel [slot] i c) ->
  exists frame, In frame slot /\ In v frame.
Proof.
  unfold subchannel. simpl. rewrite app_nil_r.
  induction slot as [|frame slot IH]; simpl; [done|].
  intros Hin. apply in_app_or in Hin as [Hin|Hin].
  - exists frame. split; [by left|]. by eapply slice_step_aux_In.
  - destruct (IH Hin) as (frame' & H1 & H2). exists frame'. split; [by right|done].
Qed.

(** The view is taken vector by vector, in row-major order. *)
Lemma subchannel_by_vector (t : @tensor F) k c :
  subchannel t k c =
    concat (map (fun s => concat (map (fun v => subchannel [[v]] k c) s)) t).
Proof.
  unfold subchannel. f_equal. apply map_ext. intros s. f_equal.
  apply map_ext. intros v. simpl. by rewrite !app_nil_r.
Qed.

Lemma subchannel_lookup (v : list F) k c j :
  0 < c -> subchannel [[v]] k c !! j = v !! (k + j * c).
Proof.
  intros Hc. unfold subchannel. simpl. rewrite !app_nil_r.
  by apply py_slice_step_lookup.
Qed.

(** A slot of missing values in the view: a block of missing values. *)
Lemma subchannel_with_slot (t1 t2 : @tensor F) slot k c :
  subchannel (t1 ++ slot :: t2) k c =
    subchannel t1 k c ++ subchannel [slot] k c ++ subchannel t2 k c.
Proof.
  change (slot :: t2) with ([slot] ++ t2). by rewrite !subchannel_app.
Qed.

Lemma slot_all_missing (slot : list (list F)) k c :
  (forall frame, In frame slot -> forall v, In v frame -> fis_nan ops v = true) ->
  forall v, In v (subchannel [slot] k c) -> fis_nan ops v = true.
Proof.
  intros Hall v Hv. apply subchannel_In in Hv as (frame & Hf & Hin).
  by eapply Hall.
Qed.

Lemma count_with_slot (t1 t2 : @tensor F) slot k c :
  (forall frame, In frame slot -> forall v, In v frame -> fis_nan ops v = true) ->
  count_kept ops (subchannel (t1 ++ slot :: t2) k c) =
  count_kept ops (subchannel (t1 ++ t2) k c).
Proof.
  intros Hall. rewrite subchannel_with_slot, subchannel_app, !count_kept_app.
  rewrite (count_kept_all_missing ops (subchannel [slot] k c)); [done|].
  by apply slot_all_missing.
Qed.

Lemma replace_nan_with_slot (t1 t2 : @tensor F) slot k c :
  (forall frame, In frame slot -> forall v, In v frame -> fis_nan ops v = true) ->
  replace_nan ops (subchannel (t1 ++ slot :: t2) k c) =
    replace_nan ops (subchannel t1 k c) ++
    replicate (length (subchannel [slot] k c)) (fzero ops) ++
    replace_nan ops (subchannel t2 k c).
Proof.
  intros Hall. rewrite subchannel_with_slot, !replace_nan_app.
  rewrite (replace_nan_all_missing ops (subchannel [slot] k c)); [done|].
  by apply slot_all_missing.
Qed.

Lemma normalize_stats (t : @tensor F) c :
  (normalize ops t c).2 =
    map (fun k => (nanmean ops (subchannel t k c),
                   nanstd ops (subchannel t k c))) (seq 0 c).
Proof.
  unfold normalize. simpl.
  generalize (seq 0 c). intros ks.
  induction ks as [|k ks IH]; simpl; [done|]. by rewrite IH.
Qed.

Lemma normalize_pair (t : @tensor F) c k :
  k < c ->
  (normalize ops t c).2 !! k =
    Some (nanmean ops (subchannel t k c), nanstd ops (subchannel t k c)).
Proof.
  intros Hk. rewrite normalize_stats, list_lookup_fmap.
  by rewrite lookup_seq_lt by done.
Qed.

(** In exact arithmetic a slot of missing values changes no statistic. *)
Lemma nanmean_with_slot (t1 t2 : @tensor F) slot k c :
  exact_sums ops ->
  (forall frame, In frame slot -> forall v, In v frame -> fis_nan ops v = true) ->
  nanmean ops (subchannel (t1 ++ slot :: t2) k c) =
  nanmean ops (subchannel (t1 ++ t2) k c).
Proof.
  intros Hex Hall. unfold nanmean.
  rewrite count_with_slot, replace_nan_with_slot by done.
  rewrite np_sum_without_zeros by done.
  by rewrite subchannel_app, replace_nan_app.
Qed.

Lemma squared_deviations_app (xs ys : list F) m :
  map (fun x => let d := if fis_nan ops x then fzero ops else fsub ops x m in
                fmul ops d d) (xs ++ ys) =
  map (fun x => let d := if fis_nan ops x then fzero ops else fsub ops x m in
                fmul ops d d) xs ++
  map (fun x => let d := if fis_nan ops x then fzero ops else fsub ops x m in
                fmul ops d d) ys.
Proof. apply map_app. Qed.

Lemma squared_deviations_missing (xs : list F) m :
  (forall v, In v xs -> fis_nan ops v = true) ->
  map (fun x => let d := if fis_nan ops x then fzero ops else fsub ops x m in
                fmul ops d d) xs =
  replicate (length xs) (fmul ops (fzero ops) (fzero ops)).
Proof.
  induction xs as [|x xs IH]; intros Hall; [done|].
  simpl. rewrite (Hall x) by (by left). f_equal. apply IH.
  intros v Hv. apply Hall. by right.
Qed.

Lemma nanstd_with_slot (t1 t2 : @tensor F) slot k c :
  exact_sums ops ->
  (forall frame, In frame slot -> forall v, In v frame -> fis_nan ops v = true) ->
  nanstd ops (subchannel (t1 ++ slot :: t2) k c) =
  nanstd ops (subchannel (t1 ++ t2) k c).
Proof.
  intros Hex Hall. unfold nanstd, nanvar, squared_deviations.
  rewrite nanmean_with_slot, count_with_slot by done.
  f_equal. destruct (count_kept ops (subchannel (t1 ++ t2) k c) =? 0); [done|].
  f_equal. rewrite subchannel_with_slot, subchannel_app.
  rewrite !squared_deviations_app.
  rewrite (squared_deviations_missing (subchannel [slot] k c))
    by (by apply slot_all_missing).
  pose proof Hex as (_ & _ & _ & Hmul). rewrite Hmul.
  by apply np_sum_without_zeros.
Qed.
End NormalizeFacts.

(** C8, as the code has it. The pair that the normalizer returns for
    sub-channel k is taken over the view that holds the entries at positions
    k, k+c, k+2c, ... of every vector of every slot, in row-major order.
    Missing values are left out of the count and enter NumPy's sums as
    zeros: the mean is the sum of the view with 0 in place of every missing
    value, divided by the number of values that are not missing, and the
    standard deviation is taken likewise over the squared deviations.  A slot
    that holds nothing but missing values therefore leaves every count as it
    is and puts only zeros into the arrays that are summed; in exact
    arithmetic the pairs are those of the tensor without the slot. *)
Theorem C8_missing_slot_not_counted {F : Type} (ops : np_arith F)
    (t1 t2 : @tensor F) (slot : list (list F)) (c : nat) :
  (forall frame, In frame slot -> forall v, In v frame -> fis_nan ops v = true) ->
  (forall t : @tensor F,
     length (normalize ops t c).2 = c /\
     forall k, k < c ->
       (normalize ops t c).2 !! k =
         Some (fdiv ops (np_sum ops (replace_nan ops (subchannel t k c)))
                 (fcount ops (count_kept ops (subchannel t k c))),
               fsqrt ops
                 (if count_kept ops (subchannel t k c) =? 0 then fnan ops
                  else fdiv ops
                         (np_sum ops (squared_deviations ops (subchannel t k c)))
                         (fcount ops (count_kept ops (subchannel t k c)))))) /\
  (forall (t : @tensor F) k,
     subchannel t k c =
       concat (map (fun s => concat (map (fun v => subchannel [[v]] k c) s)) t)) /\
  (forall (v : list F) k j,
     0 < c -> subchannel [[v]] k c !! j = v !! (k + j * c)) /\
  (forall k,
     count_kept ops (subchannel (t1 ++ slot :: t2) k c) =
       count_kept ops (subchannel (t1 ++ t2) k c) /\
     replace_nan ops (subchannel (t1 ++ slot :: t2) k c) =
       replace_nan ops (subchannel t1 k c) ++
       replicate (length (subchannel [slot] k c)) (fzero ops) ++
       replace_nan ops (subchannel t2 k c) /\
     replace_nan ops (subchannel (t1 ++ t2) k c) =
       replace_nan ops (subchannel t1 k c) ++
       replace_nan ops (subchannel t2 k c)) /\
  (exact_sums ops ->
   (normalize ops (t1 ++ slot :: t2) c).2 = (normalize ops (t1 ++ t2) c).2).
Proof.
  intros Hall. split; [|split; [|split; [|split]]].
  - intros t. split.
    + by rewrite normalize_stats, length_map, length_seq.
    + intros k Hk. by rewrite normalize_pair.
  - intros t k. apply subchannel_by_vector.
  - intros v k j Hc. by apply subchannel_lookup.
  - intros k. split; [by apply count_with_slot|].
    split; [by apply replace_nan_with_slot|].
    by rewrite subchannel_app, replace_nan_app.
  - intros Hex. rewrite !normalize_stats. apply map_ext. intros k.
    by rewrite nanmean_with_slot, nanstd_with_slot.
Qed.

Lemma missing_slot_all_nan :
  forall frame, In frame missing_slot ->
  forall v, In v frame -> fis_nan double_arith v = true.
Proof.
  intros frame [<-|[<-|[]]] v [<-|[<-|[]]]; reflexivity.
Qed.

Lemma integer_arith_exact : exact_sums integer_arith.
Proof.
  split; [|split; [|split]].
  - intros [x|] [y|] [z|]; simpl; try done. f_equal. lia.
  - intros [x|] [y|]; simpl; try done. f_equal. lia.
  - intros [x|]; simpl; [|done]. f_equal. lia.
  - reflexivity.
Qed.

Lemma integers_missing_all_nan :
  forall frame, In frame integers_missing ->
  forall v, In v frame -> fis_nan integer_arith v = true.
Proof.
  intros frame [<-|[]] v [<-|[<-|[]]]; reflexivity.
Qed.

Lemma C8_missing_slot_not_counted_witness :
  (forall frame, In frame missing_slot ->
     forall v, In v frame -> fis_nan double_arith v = true) /\
  (normalize double_arith (slots_before ++ missing_slot :: slots_after) 2).2
    !! 1 = Some (5, 0x1.1e3779b97f4a8p+1)%float /\
  count_kept double_arith
    (subchannel (slots_before ++ missing_slot :: slots_after) 1 2) = 4 /\
  replace_nan double_arith
    (subchannel (slots_before ++ missing_slot :: slots_after) 1 2) =
    [2; 4; 0; 0; 6; 8]%float /\
  (forall frame, In frame integers_missing ->
     forall v, In v frame -> fis_nan integer_arith v = true) /\
  exact_sums integer_arith /\
  (normalize integer_arith
     (integers_before ++ integers_missing :: integers_after) 2).2 =
  (normalize integer_arith (integers_before ++ integers_after) 2).2.
Proof.
  split; [exact missing_slot_all_nan|].
  destruct (C8_missing_slot_not_counted double_arith slots_before slots_after
              missing_slot 2 missing_slot_all_nan)
    as (Hpairs & _ & _ & Hslot & _).
  destruct (Hpairs (slots_before ++ missing_slot :: slots_after))
    as [_ Hpair].
  destruct (Hslot 1) as (Hcount & Hzero & _).
  split; [rewrite (Hpair 1) by lia; reflexivity|].
  split; [rewrite Hcount; reflexivity|].
  split; [rewrite Hzero; reflexivity|].
  split; [exact integers_missing_all_nan|].
  split; [exact integer_arith_exact|].
  destruct (C8_missing_slot_not_counted integer_arith integers_before
              integers_after integers_missing 2 integers_missing_all_nan)
    as (_ & _ & _ & _ & Hexact).
  exact (Hexact integer_arith_exact).
Defined.

(** C8, as stated, fails on doubles: with the slot of missing values the
    view has eight entries and NumPy sums them in eight partial sums, without
    it the four values are summed one after the other, and the two means
    differ in the last bit. *)
Lemma C8_missing_slot_changes_mean :
  (forall frame, In frame rounding_slot ->
     forall v, In v frame -> fis_nan double_arith v = true) /\
  map fst (normalize double_arith (rounding_values ++ [rounding_slot]) 1).2 =
    [0x1.8cccccccccccdp-1]%float /\
  map fst (normalize double_arith rounding_values 1).2 =
    [0x1.8cccccccccccep-1]%float /\
  (normalize double_arith (rounding_values ++ [rounding_slot]) 1).2 <>
  (normalize double_arith rounding_values 1).2.
Proof.
  split.
  { intros frame [<-|[<-|[<-|[<-|[]]]]] v [<-|[]]; reflexivity. }
  split; [reflexivity|]. split; [reflexivity|].
  intros H.
  apply (f_equal (fun l => match l with
                           | (m, _) :: _ => (m <? 0x1.8cccccccccccep-1)%float
                           | [] => false
                           end)) in H.
  vm_compute in H. discriminate.
Qed.

(** ** Train / validation / test split *)

Lemma py_round_ratio_nearest (num den : Z) :
  (0 < den)%Z ->
  (2 * num - den <= 2 * den * py_round_ratio num den <= 2 * num + den)%Z.
Proof.
  intros Hden. unfold py_round_ratio.
  destruct (Z.ltb_spec (2 * (num mod den)) den);
    [|destruct (Z.ltb_spec den (2 * (num mod den)));
      [|destruct (Z.even (num / den))]]; nia.
Qed.

(** Up to 4096 entries the rounded double products are integers nearest to
    the exact products, by computation on the doubles. *)
Lemma bounds_nearest (n : nat) :
  n <= 4096 ->
  exists a b,
    bound_67 n = Ok a /\ bound_85 n = Ok b /\
    nearest_int (67 * Z.of_nat n) 100 a /\
    nearest_int (85 * Z.of_nat n) 100 b.
Proof.
  intros Hn.
  assert (Hall : forallb bounds_are_nearest (seq 0 4097) = true)
    by (vm_compute; reflexivity).
  rewrite forallb_forall in Hall.
  assert (Hin : In n (seq 0 4097)) by (apply in_seq; lia).
  specialize (Hall n Hin). unfold bounds_are_nearest in Hall.
  destruct (bound_67 n) as [a|]; [|done].
  destruct (bound_85 n) as [b|]; [|done].
  apply andb_prop in Hall as [Ha Hb].
  unfold nearest_intb in Ha, Hb.
  apply andb_prop in Ha as [Ha1 Ha2]. apply andb_prop in Hb as [Hb1 Hb2].
  exists a, b. unfold nearest_int. repeat split; lia.
Qed.

(** On a tie of the exact product the double product decides: 0.67*750 is
    502.5, the double product is a little above it and rounds to 503, where
    rounding the exact product to even gives 502. *)
Lemma bound_67_at_750 :
  bound_67 750 = Ok 503 /\ py_round_ratio (67 * 750) 100 = 502%Z.
Proof. split; vm_compute; reflexivity. Qed.

Lemma nearest_ordered (n a b : nat) :
  nearest_int (67 * Z.of_nat n) 100 a ->
  nearest_int (85 * Z.of_nat n) 100 b ->
  a <= b /\ b <= n.
Proof. unfold nearest_int. lia. Qed.

(** Slices at ordered bounds cut the list into three consecutive parts. *)
Lemma split_at_covers {A : Type} (dataset : list A) (a b : nat) :
  a <= b -> b <= length dataset ->
  (split_at a b dataset).1.1 ++ (split_at a b dataset).1.2 ++
    (split_at a b dataset).2 = dataset /\
  length (split_at a b dataset).1.1 = a /\
  length (split_at a b dataset).1.2 = b - a /\
  length (split_at a b dataset).2 = length dataset - b /\
  (forall i, i < a -> (split_at a b dataset).1.1 !! i = dataset !! i) /\
  (forall i, i < b - a ->
     (split_at a b dataset).1.2 !! i = dataset !! (a + i)) /\
  (forall i, (split_at a b dataset).2 !! i = dataset !! (b + i)).
Proof.
  intros Hab Hbn. unfold split_at, py_slice. simpl. split.
  { rewrite <- (take_drop a dataset) at 4.
    f_equal. rewrite <- (take_drop (b - a) (drop a dataset)) at 2.
    f_equal. rewrite drop_drop. f_equal. lia. }
  split; [apply length_take_le; lia|].
  split; [rewrite length_take_le; [done|rewrite length_drop; lia]|].
  split; [by rewrite length_drop|].
  split; [intros i Hi; by apply lookup_take_lt|].
  split; [intros i Hi; by rewrite lookup_take_lt, lookup_drop by done|].
  intros i. by rewrite lookup_drop.
Qed.



(** The split cell is the instance of C9 at the rounded bounds. *)
Lemma split_dataset_covers {A : Type} (dataset : list A) :
  length dataset <= 4096 ->
  exists a b,
    split_dataset dataset = Ok (split_at a b dataset) /\
    bound_67 (length dataset) = Ok a /\ bound_85 (length dataset) = Ok b /\
    a <= b /\ b <= length dataset /\
    (split_at a b dataset).1.1 ++ (split_at a b dataset).1.2 ++
      (split_at a b dataset).2 = dataset.
Proof.
  intros Hn.
  destruct (bounds_nearest (length dataset) Hn) as (a & b & Ea & Eb & H67 & H85).
  destruct (nearest_ordered _ _ _ H67 H85) as [Hab Hbn].
  destruct (split_at_covers dataset _ _ Hab Hbn) as (Hcover & _).
  exists a, b. unfold split_dataset. rewrite Ea, Eb. by repeat split.
Qed.

(** At N = 20 the double products are not near a tie: with the doubles
    nearest to 0.67 and 0.85 the first product lies strictly between 13 and
    13.5 and the second is exactly 17. *)
Lemma double_products_at_20 :
  (13 <? 0x1.570a3d70a3d71p-1 * 20)%float = true /\
  (0x1.570a3d70a3d71p-1 * 20 <? 13.5)%float = true /\
  (0x1.b333333333333p-1 * 20 =? 17)%float = true.
Proof. repeat split; vm_compute; reflexivity. Qed.

(** * Further properties of the pipeline *)

(** ** What the face and body extractors return *)

Section ExtractorOutput.
Context {F : Type} (zero : F).
Implicit Types (p : @person F) (st : @seqs F) (people : @frame F).

Lemma planar_depth_of_ok stride p :
  2 <= stride -> well_formed stride p ->
  split_coords stride (landmarks p) = Ok (planar_of stride p, depth_of stride p).
Proof.
  intros Hs [n Hn]. unfold planar_of, depth_of.
  by rewrite (split_coords_ok stride (landmarks p) n).
Qed.

(** One frame with at most two detections appends its contribution to slot 0
    and, if it has a detection, to slot 1. *)
Lemma keypoint_frame_output stride w2 w3 st people :
  2 <= stride ->
  Forall (well_formed stride) people ->
  length (List.filter is_valid people) <= 2 ->
  keypoint_frame zero stride w2 w3 st people =
    Ok ((st.1.1 ++ [slot_0_of zero w2 (planar_of stride) people],
         st.1.2 ++ (if has_detection people
                    then [slot_1_of zero w2 (planar_of stride) people]
                    else [])),
        (st.2.1 ++ [slot_0_of zero w3 (depth_of stride) people],
         st.2.2 ++ (if has_detection people
                    then [slot_1_of zero w3 (depth_of stride) people]
                    else []))).
Proof.
  intros Hs Hwf Hlen.
  pose proof (keypoint_frame_by_valid zero stride w2 w3 st people Hs Hwf)
    as Hframe.
  pose proof (Forall_list_filter _ is_valid _ Hwf) as Hwf'.
  unfold slot_0_of, slot_1_of, has_detection.
  destruct (List.filter is_valid people) as [|a [|b [|c rest]]];
    simpl in Hlen; try lia.
  - rewrite Hframe. by rewrite !app_nil_r.
  - destruct Hframe as (ca & Hca & ->).
    apply Forall_cons in Hwf' as [Ha _].
    rewrite (planar_depth_of_ok stride a Hs Ha) in Hca.
    by injection Hca as <-.
  - destruct Hframe as (ca & cb & Hca & Hcb & ->).
    apply Forall_cons in Hwf' as [Ha Hwf'].
    apply Forall_cons in Hwf' as [Hb _].
    rewrite (planar_depth_of_ok stride a Hs Ha) in Hca.
    rewrite (planar_depth_of_ok stride b Hs Hb) in Hcb.
    injection Hca as <-. by injection Hcb as <-.
Qed.

Lemma frames_loop_output stride w2 w3 fs : forall st,
  2 <= stride ->
  extractable stride fs ->
  frames_loop zero stride w2 w3 st fs =
    Ok ((st.1.1 ++ (sequences_of zero stride w2 w3 fs).1.1,
         st.1.2 ++ (sequences_of zero stride w2 w3 fs).1.2),
        (st.2.1 ++ (sequences_of zero stride w2 w3 fs).2.1,
         st.2.2 ++ (sequences_of zero stride w2 w3 fs).2.2)).
Proof.
  induction fs as [|f fs IH]; intros st Hs Hex; simpl.
  - rewrite !app_nil_r. by destruct st as [[? ?] [? ?]].
  - apply Forall_cons in Hex as [[Hwf Hlen] Hex].
    rewrite (keypoint_frame_output stride w2 w3 st f Hs Hwf Hlen). simpl.
    rewrite IH by done. simpl.
    destruct (has_detection f); simpl; by rewrite <- !app_assoc.
Qed.
End ExtractorOutput.

Lemma extractors_return_sequences_aux {F : Type} (zero : F)
    (faces bodies : list (@frame F)) :
  extractable 3 (drop_first faces) ->
  extractable 4 (drop_last bodies) ->
  get_face zero faces = Ok (sequences_of zero 3 140 70 (drop_first faces)) /\
  get_body zero bodies = Ok (sequences_of zero 4 52 26 (drop_last bodies)).
Proof.
  intros Hf Hb. unfold get_face, get_body. split.
  - by rewrite (frames_loop_output zero 3 140 70 _ empty_seqs) by (lia || done).
  - by rewrite (frames_loop_output zero 4 52 26 _ empty_seqs) by (lia || done).
Qed.

(** X1. The face and the body extractor succeed on every folder whose retained
    frames hold well-formed entries and at most two detected people each, and
    what they return is determined frame by frame: slot 0 has one element per
    retained frame, the vector of the first detected person or zeros; slot 1
    has one element per retained frame with a detection, the vector of the
    second detected person or zeros. *)
Theorem extractors_return_sequences {F : Type} (zero : F)
    (faces bodies : list (@frame F)) :
  extractable 3 (drop_first faces) ->
  extractable 4 (drop_last bodies) ->
  get_face zero faces = Ok (sequences_of zero 3 140 70 (drop_first faces)) /\
  get_body zero bodies = Ok (sequences_of zero 4 52 26 (drop_last bodies)).
Proof.
  intros Hf Hb. unfold get_face, get_body.
  rewrite (frames_loop_output zero 3 140 70 _ empty_seqs) by (lia || done).
  by rewrite (frames_loop_output zero 4 52 26 _ empty_seqs) by (lia || done).
Qed.

(** ** What the hands extractor returns *)

Section HandsOutput.
Context {F : Type} (zero : F).
Implicit Types (p : @hand_person F) (st : @hstate F).
Local Arguments replicate : simpl never.

Lemma hand_xy_complete p l r :
  left_hand p = Some l -> right_hand p = Some r -> length l = length r ->
  hand_xy p LeftHand RightHand = Ok (xy_of l).
Proof.
  intros Hl Hr Hlen. unfold hand_xy, hand_landmarks at 1. rewrite Hr. simpl.
  rewrite (hand_pick_loop_present p LeftHand l).
  - by rewrite drop_0, <- Hlen, firstn_all.
  - unfold hand_landmarks. by rewrite Hl.
  - simpl. lia.
Qed.

(** A regular entry in slot 0 or 1 appends its combined vectors, whatever
    the locals hold. *)
Lemma hands_person_regular st i p :
  hand_is_valid p = true -> regular p -> i < 2 ->
  exists st',
    hands_person zero st i p = Ok (st', S i) /\
    hand_2D_seq st' =
      slots_push (hand_2D_seq st) i (Flat (hands_planar zero p)) /\
    hand_3D_seq st' =
      slots_push (hand_3D_seq st) i (Flat (hands_depth zero p)).
Proof.
  intros Hv Hreg Hi. destruct p as [h left right].
  assert (Hh : h <> (-1)%Z).
  { unfold hand_is_valid in Hv. simpl in Hv.
    apply negb_true_iff in Hv. by apply Z.eqb_neq. }
  unfold regular, hands_planar, hands_depth in *. simpl in *.
  destruct left as [l|], right as [r|]; try done.
  - eexists. split.
    { unfold hands_person. simpl.
      replace (h =? -1)%Z with false by (symmetry; by apply Z.eqb_neq).
      unfold try_block.
      rewrite (hand_xy_complete _ l r) by done.
      rewrite (hand_xy_present _ RightHand r) by done.
      simpl. rewrite ?slots_append_ok by done. simpl.
      rewrite ?slots_append_ok by done. reflexivity. }
    split; reflexivity.
  - eexists. split; [by apply hands_person_right_missing|]. by split.
  - eexists. split; [by apply hands_person_left_missing|]. by split.
Qed.

Lemma hands_person_skip st i p :
  hand_is_valid p = false -> hands_person zero st i p = Ok (st, i).
Proof.
  unfold hand_is_valid, hands_person. intros Hv.
  apply negb_false_iff in Hv. by rewrite Hv.
Qed.

Lemma hands_people_loop_filter people : forall st i,
  hands_people_loop zero st i people =
  hands_people_loop zero st i (List.filter hand_is_valid people).
Proof.
  induction people as [|p people IH]; intros st i; [done|].
  simpl. destruct (hand_is_valid p) eqn:Hv.
  - simpl. destruct (hands_person zero st i p) as [[st' i']|e]; simpl;
      [apply IH|done].
  - rewrite hands_person_skip by done. simpl. apply IH.
Qed.

Lemma hands_frame_output st people :
  Forall regular (List.filter hand_is_valid people) ->
  length (List.filter hand_is_valid people) <= 2 ->
  exists st',
    hands_frame zero st people = Ok st' /\
    hand_2D_seq st' =
      ((hand_2D_seq st).1 ++ [hands_slot_0 zero 84 (hands_planar zero) people],
       (hand_2D_seq st).2 ++
         (if hands_has_detection people
          then [hands_slot_1 zero 84 (hands_planar zero) people] else [])) /\
    hand_3D_seq st' =
      ((hand_3D_seq st).1 ++ [hands_slot_0 zero 42 (hands_depth zero) people],
       (hand_3D_seq st).2 ++
         (if hands_has_detection people
          then [hands_slot_1 zero 42 (hands_depth zero) people] else [])).
Proof.
  intros Hreg Hlen. unfold hands_frame. rewrite hands_people_loop_filter.
  pose proof (list_filter_all hand_is_valid people) as Hval.
  unfold hands_slot_0, hands_slot_1, hands_has_detection.
  destruct (List.filter hand_is_valid people) as [|a [|b [|c rest]]];
    simpl in Hlen; try lia.
  - eexists. split; [reflexivity|]. simpl. by rewrite !app_nil_r.
  - apply Forall_cons in Hreg as [Ha _]. apply Forall_cons in Hval as [Hva _].
    destruct (hands_person_regular st 0 a Hva Ha ltac:(lia))
      as (st1 & Hrun & H2 & H3).
    simpl. rewrite Hrun. simpl. eexists. split; [reflexivity|].
    simpl. by rewrite H2, H3.
  - apply Forall_cons in Hreg as [Ha Hreg].
    apply Forall_cons in Hreg as [Hb _].
    apply Forall_cons in Hval as [Hva Hval].
    apply Forall_cons in Hval as [Hvb _].
    destruct (hands_person_regular st 0 a Hva Ha ltac:(lia))
      as (st1 & Hrun1 & H2 & H3).
    destruct (hands_person_regular st1 1 b Hvb Hb ltac:(lia))
      as (st2 & Hrun2 & H2' & H3').
    simpl. rewrite Hrun1. simpl. rewrite Hrun2. simpl.
    eexists. split; [reflexivity|].
    by rewrite H2', H3', H2, H3.
Qed.

Lemma hands_frames_loop_output fs : forall st,
  hands_extractable fs ->
  exists st',
    hands_frames_loop zero st fs = Ok st' /\
    hand_2D_seq st' =
      ((hand_2D_seq st).1 ++ (hands_sequences_of zero fs).1.1,
       (hand_2D_seq st).2 ++ (hands_sequences_of zero fs).1.2) /\
    hand_3D_seq st' =
      ((hand_3D_seq st).1 ++ (hands_sequences_of zero fs).2.1,
       (hand_3D_seq st).2 ++ (hands_sequences_of zero fs).2.2).
Proof.
  induction fs as [|f fs IH]; intros st Hex; simpl.
  - exists st. split; [done|]. rewrite !app_nil_r.
    by destruct (hand_2D_seq st), (hand_3D_seq st).
  - apply Forall_cons in Hex as [[Hreg Hlen] Hex].
    destruct (hands_frame_output st f Hreg Hlen) as (st1 & -> & H2 & H3).
    simpl. destruct (IH st1 Hex) as (st' & -> & H2' & H3').
    exists st'. split; [done|]. rewrite H2', H3', H2, H3. simpl.
    destruct (hands_has_detection f); simpl; by rewrite <- !app_assoc.
Qed.
End HandsOutput.

Lemma get_hands_returns_sequences_aux {F : Type} (zero : F)
    (files : list (list (@hand_person F))) :
  hands_extractable (drop_first_last files) ->
  get_hands zero files = Ok (hands_sequences_of zero (drop_first_last files)).
Proof.
  intros Hex. unfold get_hands.
  destruct (hands_frames_loop_output zero _ init_hstate Hex)
    as (st' & -> & H2 & H3).
  simpl. rewrite H2, H3. reflexivity.
Qed.

(** X2. The hands extractor succeeds on every folder whose retained frames hold
    at most two detected people each, all of them regular (at least one hand,
    two hands with lists of equal length), and returns per slot the combined
    vectors frame by frame: left hand then right hand, each as x1,y1,x2,y2,...
    for the planar and z1,z2,... for the depth sequence, with 42 resp. 21
    zeros in place of a missing hand. *)
Theorem get_hands_returns_sequences {F : Type} (zero : F)
    (files : list (list (@hand_person F))) :
  hands_extractable (drop_first_last files) ->
  get_hands zero files = Ok (hands_sequences_of zero (drop_first_last files)).
Proof.
  intros Hex. unfold get_hands.
  destruct (hands_frames_loop_output zero _ init_hstate Hex)
    as (st' & Hrun & H2 & H3).
  rewrite Hrun. simpl. by rewrite H2, H3.
Qed.

(** ** Session aggregator and corpus builder *)

Section AggregatorFacts.
Context {F : Type} (zero : F).

Lemma zip_concat_lookup (face : list (list F)) : forall hands pose t,
  zip_concat face hands pose !! t =
    match face !! t, hands !! t, pose !! t with
    | Some fa, Some ha, Some po => Some (concat_frame fa ha po)
    | _, _, _ => None
    end.
Proof.
  induction face as [|fa face IH]; intros hands pose t; [done|].
  destruct hands as [|ha hands].
  { simpl. by destruct ((fa :: face) !! t). }
  destruct pose as [|po pose].
  { simpl. destruct ((fa :: face) !! t); [|done].
    by destruct ((ha :: hands) !! t). }
  destruct t as [|t]; simpl; [done|apply IH].
Qed.

Lemma zip_concat_length (face : list (list F)) : forall hands pose,
  length (zip_concat face hands pose) =
    Nat.min (length face) (Nat.min (length hands) (length pose)).
Proof.
  induction face as [|fa face IH]; intros [|ha hands] [|po pose]; simpl;
    try done.
  by rewrite IH.
Qed.

Lemma keypoints_folder_output acc (p : @recording F) :
  conforming p ->
  keypoints_folder zero acc p =
    Ok (acc.1 ++ folder_inputs zero p, acc.2 ++ folder_labels zero p).
Proof.
  intros (Hf & Hh & Hb). unfold keypoints_folder.
  destruct (extractors_return_sequences_aux zero (hdFace3d p)
              (hdPose3d_stage1_op25 p) Hf Hb) as [-> ->].
  rewrite (get_hands_returns_sequences_aux zero (hdHand3d p) Hh). done.
Qed.

Lemma keypoints_loop_output (folders : list (@recording F)) : forall acc,
  Forall conforming folders ->
  keypoints_loop zero acc folders =
    Ok (acc.1 ++ concat (map (folder_inputs zero) folders),
        acc.2 ++ concat (map (folder_labels zero) folders)).
Proof.
  induction folders as [|p folders IH]; intros acc Hall; simpl.
  - rewrite !app_nil_r. by destruct acc.
  - apply Forall_cons in Hall as [Hp Hall].
    rewrite keypoints_folder_output by done. simpl.
    rewrite IH by done. simpl. by rewrite <- !app_assoc.
Qed.

Lemma concat_pairs_lookup {A B : Type} (g : A -> list B) (x y : A -> B)
    (l : list A) :
  (forall a, g a = [x a; y a]) ->
  forall j a, l !! j = Some a ->
    concat (map g l) !! (2 * j) = Some (x a) /\
    concat (map g l) !! (2 * j + 1) = Some (y a).
Proof.
  intros Hg. induction l as [|b l IH]; intros j a Hj; [done|].
  simpl. rewrite Hg. destruct j as [|j]; simpl in *.
  - by injection Hj as ->.
  - replace (j + S (j + 0)) with (S (2 * j)) by lia.
    replace (j + S (j + 0) + 1) with (S (2 * j + 1)) by lia.
    simpl. by apply IH.
Qed.

Lemma concat_pairs_length {A B : Type} (g : A -> list B) (x y : A -> B)
    (l : list A) :
  (forall a, g a = [x a; y a]) -> length (concat (map g l)) = 2 * length l.
Proof.
  intros Hg. induction l as [|b l IH]; [done|].
  simpl. rewrite Hg. simpl. rewrite IH. lia.
Qed.
End AggregatorFacts.

(** X3. On recordings on which the extractors succeed, [get_keypoints] returns
    two entries per recording in the order of the folders: entries 2j and
    2j+1 of [dataset] and of [groundtruth] are slot 0 and slot 1 of recording
    j, each the frame-wise concatenation face + hands + body. *)
Theorem get_keypoints_corpus {F : Type} (zero : F)
    (folders : list (@recording F)) :
  Forall conforming folders ->
  exists dataset groundtruth,
    get_keypoints zero folders = Ok (dataset, groundtruth) /\
    dataset = concat (map (folder_inputs zero) folders) /\
    groundtruth = concat (map (folder_labels zero) folders) /\
    length dataset = 2 * length folders /\
    length groundtruth = 2 * length folders /\
    forall j p, folders !! j = Some p ->
      dataset !! (2 * j) = folder_inputs zero p !! 0 /\
      dataset !! (2 * j + 1) = folder_inputs zero p !! 1 /\
      groundtruth !! (2 * j) = folder_labels zero p !! 0 /\
      groundtruth !! (2 * j + 1) = folder_labels zero p !! 1.
Proof.
  intros Hall.
  exists (concat (map (folder_inputs zero) folders)),
         (concat (map (folder_labels zero) folders)).
  split.
  { unfold get_keypoints. by rewrite keypoints_loop_output by done. }
  split; [done|]. split; [done|]. split; [|split].
  - by eapply concat_pairs_length.
  - by eapply concat_pairs_length.
  - intros j p Hj.
    destruct (concat_pairs_lookup (folder_inputs zero) _ _ folders
                (fun a => eq_refl) j p Hj) as [H0 H1].
    destruct (concat_pairs_lookup (folder_labels zero) _ _ folders
                (fun a => eq_refl) j p Hj) as [H2 H3].
    by rewrite H0, H1, H2, H3.
Qed.

Section AlignmentFacts.
Context {F : Type} (zero : F).

Lemma drop_first_lookup {A : Type} (l : list A) t :
  drop_first l !! t = l !! (t + 1).
Proof. unfold drop_first. rewrite lookup_drop. f_equal. lia. Qed.

Lemma drop_last_lookup {A : Type} (l : list A) t :
  t + 1 < length l -> drop_last l !! t = l !! t.
Proof. intros Ht. unfold drop_last. apply lookup_take_lt. lia. Qed.

Lemma drop_first_last_lookup {A : Type} (l : list A) t :
  t + 2 < length l -> drop_first_last l !! t = l !! (t + 1).
Proof.
  intros Ht. unfold drop_first_last. rewrite lookup_drop.
  rewrite lookup_take_lt by lia. f_equal. lia.
Qed.

Lemma trimmed_lengths {A : Type} (l : list A) :
  length (drop_first l) = length l - 1 /\
  length (drop_last l) = length l - 1 /\
  length (drop_first_last l) = length l - 2.
Proof.
  unfold drop_first, drop_last, drop_first_last.
  rewrite !length_drop, !length_take. lia.
Qed.
End AlignmentFacts.

(** X4. For a recording on which the extractors succeed, the slot-0 sequences
    that [get_keypoints] builds are cut to the shortest of the three
    modalities, and their t-th vector joins the contributions of face file
    t+1, hands file t+1 and body file t: the file lists are trimmed
    differently (face loses its first file, hands its first and last, body
    its last), and [zip] pairs what is left by position. *)
Theorem slot_0_joins_files_by_position {F : Type} (zero : F)
    (p : @recording F) :
  conforming p ->
  exists in0 in1 lb0 lb1,
    get_keypoints zero [p] = Ok ([in0; in1], [lb0; lb1]) /\
    length in0 =
      Nat.min (length (hdFace3d p) - 1)
        (Nat.min (length (hdHand3d p) - 2)
                 (length (hdPose3d_stage1_op25 p) - 1)) /\
    length lb0 = length in0 /\
    forall t ff hf bf,
      t < length in0 ->
      hdFace3d p !! (t + 1) = Some ff ->
      hdHand3d p !! (t + 1) = Some hf ->
      hdPose3d_stage1_op25 p !! t = Some bf ->
      in0 !! t =
        Some (concat_frame (slot_0_of zero 140 (planar_of 3) ff)
                (hands_slot_0 zero 84 (hands_planar zero) hf)
                (slot_0_of zero 52 (planar_of 4) bf)) /\
      lb0 !! t =
        Some (concat_frame (slot_0_of zero 70 (depth_of 3) ff)
                (hands_slot_0 zero 42 (hands_depth zero) hf)
                (slot_0_of zero 26 (depth_of 4) bf)).
Proof.
  intros Hp. eexists _, _, _, _. split.
  { unfold get_keypoints. simpl.
    rewrite keypoints_folder_output by done. reflexivity. }
  destruct (trimmed_lengths (hdFace3d p)) as (Hf & _ & _).
  destruct (trimmed_lengths (hdHand3d p)) as (_ & _ & Hh).
  destruct (trimmed_lengths (hdPose3d_stage1_op25 p)) as (_ & Hb & _).
  simpl. rewrite !zip_concat_length, !length_map, Hf, Hh, Hb.
  split; [done|]. split; [done|].
  intros t ff hf bf Ht Hff Hhf Hbf.
  rewrite !zip_concat_lookup, !list_lookup_fmap.
  rewrite drop_first_lookup, Hff.
  rewrite drop_first_last_lookup, Hhf by lia.
  rewrite drop_last_lookup, Hbf by lia.
  done.
Qed.

(** ** Widths of the aggregated vectors *)

Section WidthFacts.
Context {F : Type} (zero : F).

Lemma planar_depth_of_length stride n (q : @person F) :
  3 <= stride ->
  length (landmarks q) = stride * n ->
  length (planar_of stride q) = 2 * n /\ length (depth_of stride q) = n.
Proof.
  intros Hs Hl.
  destruct (split_coords_deinterleaved stride n (landmarks q) Hs Hl)
    as (planar & depth & Hsplit & H2 & H3 & _).
  unfold planar_of, depth_of. by rewrite Hsplit.
Qed.

Lemma slot_of_length (w : nat) (vec : @person F -> list F) (f : @frame F) :
  Forall (fun q => length (vec q) = w) f ->
  length (slot_0_of zero w vec f) = w /\ length (slot_1_of zero w vec f) = w.
Proof.
  intros Hf. apply (Forall_list_filter _ is_valid) in Hf.
  unfold slot_0_of, slot_1_of.
  destruct (List.filter is_valid f) as [|a [|b l]].
  - by rewrite length_replicate.
  - apply Forall_cons in Hf as [Ha _]. by rewrite length_replicate.
  - apply Forall_cons in Hf as [Ha Hf]. by apply Forall_cons in Hf as [Hb _].
Qed.

Lemma sequences_of_widths stride n (fs : list (@frame F)) :
  3 <= stride ->
  Forall (Forall (fun q => length (landmarks q) = stride * n)) fs ->
  let s := sequences_of zero stride (2 * n) n fs in
  Forall (fun v => length v = 2 * n) s.1.1 /\
  Forall (fun v => length v = 2 * n) s.1.2 /\
  Forall (fun v => length v = n) s.2.1 /\
  Forall (fun v => length v = n) s.2.2.
Proof.
  intros Hs Hfs. simpl.
  assert (Hp : Forall (fun f =>
    (length (slot_0_of zero (2 * n) (planar_of stride) f) = 2 * n /\
     length (slot_1_of zero (2 * n) (planar_of stride) f) = 2 * n) /\
    (length (slot_0_of zero n (depth_of stride) f) = n /\
     length (slot_1_of zero n (depth_of stride) f) = n)) fs).
  { eapply Forall_impl; [exact Hfs|]. intros f Hf. split.
    - apply slot_of_length. eapply Forall_impl; [exact Hf|].
      intros q Hq. by apply planar_depth_of_length.
    - apply slot_of_length. eapply Forall_impl; [exact Hf|].
      intros q Hq. by apply planar_depth_of_length. }
  repeat split; apply Forall_fmap;
    try apply (Forall_list_filter _ has_detection);
    (eapply Forall_impl; [exact Hp|]); intros f [[? ?] [? ?]]; done.
Qed.

Lemma hands_vectors_length (q : @hand_person F) :
  match left_hand q, right_hand q with
  | Some l, Some r => length l = 63 /\ length r = 63
  | Some l, None => length l = 63
  | None, Some r => length r = 63
  | None, None => False
  end ->
  regular q /\
  length (hands_planar zero q) = 84 /\ length (hands_depth zero q) = 42.
Proof.
  unfold regular, hands_planar, hands_depth.
  destruct (left_hand q) as [l|], (right_hand q) as [r|]; try done.
  - intros [Hl Hr]. rewrite !length_app.
    rewrite !xy_of_length_63, !hand_z_length_63 by done.
    repeat split; (done || lia).
  - intros Hl. rewrite !length_app, !length_replicate.
    rewrite xy_of_length_63, hand_z_length_63 by done. done.
  - intros Hr. rewrite !length_app, !length_replicate.
    rewrite xy_of_length_63, hand_z_length_63 by done.
    repeat split; [|done..]. intros ->. done.
Qed.

Lemma hands_slot_length (w : nat) (vec : @hand_person F -> list F)
    (f : list (@hand_person F)) :
  Forall (fun q => length (vec q) = w) (List.filter hand_is_valid f) ->
  flat_of_length w (hands_slot_0 zero w vec f) /\
  flat_of_length w (hands_slot_1 zero w vec f).
Proof.
  intros Hf. unfold hands_slot_0, hands_slot_1, flat_of_length.
  destruct (List.filter hand_is_valid f) as [|a [|b l]].
  - split; eexists; (split; [done|by rewrite length_replicate]).
  - apply Forall_cons in Hf as [Ha _].
    split; eexists; (split; [done|]); [done|by rewrite length_replicate].
  - apply Forall_cons in Hf as [Ha Hf]. apply Forall_cons in Hf as [Hb _].
    split; eexists; by split.
Qed.

Lemma zip_concat_Forall (P : list F -> Prop) (Q : @hands_val F -> Prop)
    (R : list F -> Prop) (S : list (@cell F) -> Prop) :
  (forall fa ha po, P fa -> Q ha -> R po -> S (concat_frame fa ha po)) ->
  forall face hands pose,
    Forall P face -> Forall Q hands -> Forall R pose ->
    Forall S (zip_concat face hands pose).
Proof.
  intros HS face. induction face as [|fa face IH];
    intros [|ha hands] [|po pose] HP HQ HR; simpl; try constructor.
  - apply Forall_cons in HP as [? ?]. apply Forall_cons in HQ as [? ?].
    apply Forall_cons in HR as [? ?]. by apply HS.
  - apply Forall_cons in HP as [? ?]. apply Forall_cons in HQ as [? ?].
    apply Forall_cons in HR as [? ?]. by apply IH.
Qed.

Lemma concat_frame_flat a b c fa (ha : @hands_val F) po :
  length fa = a -> flat_of_length b ha -> length po = c ->
  flat_width (a + b + c) (concat_frame fa ha po).
Proof.
  intros Ha (v & -> & Hv) Hc. exists (fa ++ v ++ po). split.
  - unfold concat_frame. simpl. by rewrite !map_app.
  - rewrite !length_app. lia.
Qed.
End WidthFacts.

Section SchemaFacts.
Context {F : Type} (zero : F).

Lemma hands_sequences_widths (fs : list (list (@hand_person F))) :
  Forall (fun f =>
    Forall (fun q =>
      match left_hand q, right_hand q with
      | Some l, Some r => length l = 63 /\ length r = 63
      | Some l, None => length l = 63
      | None, Some r => length r = 63
      | None, None => False
      end) (List.filter hand_is_valid f)) fs ->
  let s := hands_sequences_of zero fs in
  Forall (flat_of_length 84) s.1.1 /\
  Forall (flat_of_length 84) s.1.2 /\
  Forall (flat_of_length 42) s.2.1 /\
  Forall (flat_of_length 42) s.2.2.
Proof.
  intros Hfs. simpl.
  assert (Hp : Forall (fun f =>
    (flat_of_length 84 (hands_slot_0 zero 84 (hands_planar zero) f) /\
     flat_of_length 84 (hands_slot_1 zero 84 (hands_planar zero) f)) /\
    (flat_of_length 42 (hands_slot_0 zero 42 (hands_depth zero) f) /\
     flat_of_length 42 (hands_slot_1 zero 42 (hands_depth zero) f))) fs).
  { eapply Forall_impl; [exact Hfs|]. intros f Hf. split.
    - apply hands_slot_length. eapply Forall_impl; [exact Hf|].
      intros q Hq. by destruct (hands_vectors_length zero q Hq) as (_ & ? & ?).
    - apply hands_slot_length. eapply Forall_impl; [exact Hf|].
      intros q Hq. by destruct (hands_vectors_length zero q Hq) as (_ & ? & ?). }
  repeat split; apply Forall_fmap;
    try apply (Forall_list_filter _ hands_has_detection);
    (eapply Forall_impl; [exact Hp|]); intros f [[? ?] [? ?]]; done.
Qed.

Lemma in_schema_conforming (p : @recording F) : in_schema p -> conforming p.
Proof.
  intros (Hf & Hb & Hh & Hf2 & Hb2 & Hh2). split; [|split].
  - apply Forall_and. split; [|done].
    eapply Forall_impl; [exact Hf|]. intros f Hq.
    eapply Forall_impl; [exact Hq|]. intros q Hl. exists 70. by rewrite Hl.
  - apply Forall_and. split; [|done].
    eapply Forall_impl; [exact Hh|]. intros f Hq.
    eapply Forall_impl; [exact Hq|]. intros q Hl.
    by destruct (hands_vectors_length zero q Hl).
  - apply Forall_and. split; [|done].
    eapply Forall_impl; [exact Hb|]. intros f Hq.
    eapply Forall_impl; [exact Hq|]. intros q Hl. exists 26. by rewrite Hl.
Qed.

Lemma folder_widths (p : @recording F) :
  in_schema p ->
  Forall (Forall (flat_width 276)) (folder_inputs zero p) /\
  Forall (Forall (flat_width 138)) (folder_labels zero p).
Proof.
  intros (Hf & Hb & Hh & _).
  destruct (sequences_of_widths zero 3 70 _ ltac:(lia) Hf)
    as (F1 & F2 & F3 & F4).
  destruct (sequences_of_widths zero 4 26 _ ltac:(lia) Hb)
    as (B1 & B2 & B3 & B4).
  destruct (hands_sequences_widths _ Hh) as (H1 & H2 & H3 & H4).
  unfold folder_inputs, folder_labels.
  split; (constructor; [|constructor; [|constructor]]).
  - apply (zip_concat_Forall _ _ _ _ (concat_frame_flat 140 84 52)); done.
  - apply (zip_concat_Forall _ _ _ _ (concat_frame_flat 140 84 52)); done.
  - apply (zip_concat_Forall _ _ _ _ (concat_frame_flat 70 42 26)); done.
  - apply (zip_concat_Forall _ _ _ _ (concat_frame_flat 70 42 26)); done.
Qed.
End SchemaFacts.

Lemma corpus_vectors_have_fixed_width_aux {F : Type} (zero : F)
    (folders : list (@recording F)) :
  Forall in_schema folders ->
  get_keypoints zero folders =
    Ok (concat (map (folder_inputs zero) folders),
        concat (map (folder_labels zero) folders)) /\
  Forall (Forall (flat_width 276)) (concat (map (folder_inputs zero) folders)) /\
  Forall (Forall (flat_width 138)) (concat (map (folder_labels zero) folders)).
Proof.
  intros Hall. split.
  { unfold get_keypoints. rewrite keypoints_loop_output; [done|].
    eapply Forall_impl; [exact Hall|]. apply in_schema_conforming. exact zero. }
  split; apply Forall_concat, Forall_fmap;
    (eapply Forall_impl; [exact Hall|]); intros p Hp;
    by destruct (folder_widths zero p Hp).
Qed.

(** X5. On recordings that follow the file layout (210 floats per face entry, 63
    per hand, 104 per body entry, every detected person with at least one
    hand, at most two detected people per retained frame) [get_keypoints]
    succeeds, every vector of [dataset] holds exactly 276 coordinates and
    every vector of [groundtruth] exactly 138, frames without a detection
    included. *)
Theorem corpus_vectors_have_fixed_width {F : Type} (zero : F)
    (folders : list (@recording F)) :
  Forall in_schema folders ->
  exists dataset groundtruth,
    get_keypoints zero folders = Ok (dataset, groundtruth) /\
    Forall (Forall (flat_width 276)) dataset /\
    Forall (Forall (flat_width 138)) groundtruth.
Proof.
  intros Hall.
  exists (concat (map (folder_inputs zero) folders)),
         (concat (map (folder_labels zero) folders)).
  split.
  { unfold get_keypoints. rewrite keypoints_loop_output; [done|].
    eapply Forall_impl; [exact Hall|]. apply in_schema_conforming. exact zero. }
  split; apply Forall_concat, Forall_fmap;
    (eapply Forall_impl; [exact Hall|]); intros p Hp;
    by destruct (folder_widths zero p Hp).
Qed.

(** ** Single-keypoint extractor *)

Section SingleKeypointFacts.
Context {F : Type} (zero : F).
Implicit Types (q : @person F) (st : @kp_seqs F) (people : @frame F).

Lemma body_kp_person_skip kp st i q :
  is_valid q = false -> body_kp_person kp st i q = Ok (st, i).
Proof. unfold body_kp_person. by intros ->. Qed.

Lemma body_kp_person_valid kp st i q :
  is_valid q = true -> kp * 4 + 2 < length (landmarks q) -> i < 2 ->
  body_kp_person kp st i q =
    Ok ((slots_push st.1 i (kp_planar kp q),
         slots_push st.2 i (kp_depth zero kp q)), S i).
Proof.
  intros Hv Hlen Hi. unfold body_kp_person, py_index, kp_depth. rewrite Hv.
  destruct (lookup_lt_is_Some_2 (landmarks q) (kp * 4 + 2) Hlen) as [z Hz].
  rewrite Hz. simpl. by rewrite !slots_append_ok by done.
Qed.

(** The scalar is read before anything is appended, so a list without joint
    [kp] raises in every slot, even where the tuple index would. *)
Lemma body_kp_person_short kp st i q :
  is_valid q = true -> length (landmarks q) <= kp * 4 + 2 ->
  body_kp_person kp st i q = Raise (IndexError list_index_msg).
Proof.
  intros Hv Hlen. unfold body_kp_person, py_index. rewrite Hv.
  by rewrite (lookup_ge_None_2 (landmarks q) (kp * 4 + 2)) by lia.
Qed.

Lemma body_kp_people_filter kp people : forall st i,
  body_kp_people kp st i people =
  body_kp_people kp st i (List.filter is_valid people).
Proof.
  induction people as [|q people IH]; intros st i; [done|].
  simpl. destruct (is_valid q) eqn:Hv.
  - simpl. destruct (body_kp_person kp st i q) as [[st' i']|e]; simpl;
      [apply IH|done].
  - rewrite body_kp_person_skip by done. simpl. apply IH.
Qed.

Lemma body_kp_frame_output kp st people :
  Forall (fun q => kp * 4 + 2 < length (landmarks q))
    (List.filter is_valid people) ->
  length (List.filter is_valid people) <= 2 ->
  body_kp_frame zero kp st people =
    Ok ((st.1.1 ++ [kp_slot_0 (Vector [zero; zero]) (kp_planar kp) people],
         st.1.2 ++ (if has_detection people
                    then [kp_slot_1 (Vector [zero; zero]) (kp_planar kp) people]
                    else [])),
        (st.2.1 ++ [kp_slot_0 (Scalar zero) (kp_depth zero kp) people],
         st.2.2 ++ (if has_detection people
                    then [kp_slot_1 (Scalar zero) (kp_depth zero kp) people]
                    else []))).
Proof.
  intros Hlong Hlen. unfold body_kp_frame. rewrite body_kp_people_filter.
  pose proof (list_filter_all is_valid people) as Hval.
  unfold kp_slot_0, kp_slot_1, has_detection.
  destruct (List.filter is_valid people) as [|a [|b [|c rest]]];
    simpl in Hlen; try lia.
  - simpl. by rewrite !app_nil_r.
  - apply Forall_cons in Hlong as [Ha _]. apply Forall_cons in Hval as [Hva _].
    simpl. by rewrite (body_kp_person_valid kp st 0 a) by (done || lia).
  - apply Forall_cons in Hlong as [Ha Hlong].
    apply Forall_cons in Hlong as [Hb _].
    apply Forall_cons in Hval as [Hva Hval].
    apply Forall_cons in Hval as [Hvb _].
    simpl. rewrite (body_kp_person_valid kp st 0 a) by (done || lia).
    simpl. by rewrite (body_kp_person_valid kp _ 1 b) by (done || lia).
Qed.

Lemma body_kp_frames_output kp fs : forall st,
  kp_extractable kp fs ->
  body_kp_frames zero kp st fs =
    Ok ((st.1.1 ++ (kp_sequences_of zero kp fs).1.1,
         st.1.2 ++ (kp_sequences_of zero kp fs).1.2),
        (st.2.1 ++ (kp_sequences_of zero kp fs).2.1,
         st.2.2 ++ (kp_sequences_of zero kp fs).2.2)).
Proof.
  induction fs as [|f fs IH]; intros st Hex; simpl.
  - rewrite !app_nil_r. by destruct st as [[? ?] [? ?]].
  - apply Forall_cons in Hex as [[Hlong Hlen] Hex].
    rewrite (body_kp_frame_output kp st f Hlong Hlen). simpl.
    rewrite IH by done. simpl.
    destruct (has_detection f); simpl; by rewrite <- !app_assoc.
Qed.

Lemma get_body_kp_output kp files :
  kp_extractable kp (drop_last files) ->
  get_body_kp zero files kp = Ok (kp_sequences_of zero kp (drop_last files)).
Proof.
  intros Hex. unfold get_body_kp.
  by rewrite (body_kp_frames_output kp _ empty_kp_seqs).
Qed.

Lemma kp_planar_pair kp q :
  kp * 4 + 2 < length (landmarks q) ->
  exists x y z,
    landmarks q !! (kp * 4) = Some x /\
    landmarks q !! (kp * 4 + 1) = Some y /\
    landmarks q !! (kp * 4 + 2) = Some z /\
    kp_planar kp q = Vector [x; y] /\
    kp_depth zero kp q = Scalar z.
Proof.
  intros Hlen.
  destruct (lookup_lt_is_Some_2 (landmarks q) (kp * 4)) as [x Hx]; [lia|].
  destruct (lookup_lt_is_Some_2 (landmarks q) (kp * 4 + 1)) as [y Hy]; [lia|].
  destruct (lookup_lt_is_Some_2 (landmarks q) (kp * 4 + 2)) as [z Hz]; [lia|].
  exists x, y, z. repeat split; try done.
  - unfold kp_planar, py_slice. f_equal.
    replace (kp * 4 + 2 - kp * 4) with 2 by lia.
    rewrite (drop_S _ x _ Hx).
    replace (S (kp * 4)) with (kp * 4 + 1) by lia.
    by rewrite (drop_S _ y _ Hy).
  - unfold kp_depth. by rewrite Hz.
Qed.
End SingleKeypointFacts.

(** X6. [get_body(path, kp)] succeeds on every folder whose retained frames hold
    at most two detected people, each with joint kp in its list, and returns
    per slot one element per frame as the other extractors do; the elements
    of a detected person are the pair [x, y] at entries 4kp and 4kp+1 of its
    list and the scalar z at entry 4kp+2, the elements of a missing one are
    [0., 0.] and 0. *)
Theorem get_body_kp_returns_sequences {F : Type} (zero : F)
    (files : list (@frame F)) (kp : nat) :
  kp_extractable kp (drop_last files) ->
  get_body_kp zero files kp = Ok (kp_sequences_of zero kp (drop_last files)) /\
  forall f q, In f (drop_last files) -> In q (List.filter is_valid f) ->
    exists x y z,
      landmarks q !! (kp * 4) = Some x /\
      landmarks q !! (kp * 4 + 1) = Some y /\
      landmarks q !! (kp * 4 + 2) = Some z /\
      kp_planar kp q = Vector [x; y] /\
      kp_depth zero kp q = Scalar z.
Proof.
  intros Hex. split; [by apply get_body_kp_output|].
  intros f q Hf Hq. apply kp_planar_pair.
  unfold kp_extractable in Hex.
  rewrite List.Forall_forall in Hex. destruct (Hex f Hf) as [Hlong _].
  rewrite List.Forall_forall in Hlong. by apply Hlong.
Qed.

(** X7. The scalar [joints26[kp*4+2]] is read before anything is appended: a
    folder whose earlier retained frames are fine and whose next frame has a
    first detected person without joint kp in its list makes
    [get_body(path, kp)] raise [IndexError], although the slice that takes
    the pair would not. *)
Theorem get_body_kp_short_list_raises {F : Type} (zero : F)
    (files pre post : list (@frame F)) (f : @frame F) (q : @person F)
    (rest : list (@person F)) (kp : nat) :
  drop_last files = pre ++ f :: post ->
  kp_extractable kp pre ->
  List.filter is_valid f = q :: rest ->
  length (landmarks q) <= kp * 4 + 2 ->
  get_body_kp zero files kp = Raise (IndexError list_index_msg).
Proof.
  intros Hfiles Hpre Hf Hq. unfold get_body_kp. rewrite Hfiles.
  assert (Hval : is_valid q = true).
  { pose proof (list_filter_all is_valid f) as H. rewrite Hf in H.
    by apply Forall_cons in H as [? _]. }
  assert (Hframe : forall st,
    body_kp_frame zero kp st f = Raise (IndexError list_index_msg)).
  { intros st. unfold body_kp_frame. rewrite body_kp_people_filter, Hf.
    simpl. by rewrite body_kp_person_short. }
  generalize (@empty_kp_seqs F). clear Hfiles.
  induction pre as [|g pre IH]; intros st; simpl.
  - by rewrite Hframe.
  - apply Forall_cons in Hpre as [[Hlong Hlen] Hpre].
    rewrite (body_kp_frame_output zero kp st g Hlong Hlen). simpl.
    by apply IH.
Qed.

(** ** Padding a freshly built corpus

    The corpus builders return lists of distinct sequences: the heap is the
    corpus itself and [dataset] refers to its entries in order. *)

Section FreshPadding.
Context {E : Type} (mk : list E -> res E) (pad : list E -> E).

Lemma obj_lookup (ds : list (list E)) i s : ds !! i = Some s -> obj ds i = s.
Proof. unfold obj. by intros ->. Qed.

Lemma lengths_of_refs (ds : list (list E)) :
  map (fun r => length (obj ds r)) (seq 0 (length ds)) = map length ds.
Proof.
  apply list_eq. intros i. rewrite !list_lookup_fmap.
  destruct (ds !! i) as [s|] eqn:Hs; simpl.
  - rewrite lookup_seq_lt by (by eapply lookup_lt_Some). simpl.
    by rewrite (obj_lookup ds i s).
  - rewrite lookup_seq_ge; [done|]. by apply lookup_ge_None.
Qed.

Lemma padding_fresh (ds : list (list E)) :
  ds <> [] ->
  Forall (stable mk pad) ds ->
  exists h' L,
    padding_with mk ds (seq 0 (length ds)) = Ok (h', L) /\
    py_max (map length ds) = Ok L /\
    length h' = length ds /\
    forall i s, ds !! i = Some s -> h' !! i = Some (padded L (pad s) s).
Proof.
  intros Hne Hst.
  destruct (padding_with_spec mk pad ds (seq 0 (length ds)))
    as (h' & L & Hrun & _ & Hlen & Hpad & _).
  { destruct ds; [done|]. simpl. discriminate. }
  { intros r Hr. apply in_seq in Hr. split; [lia|].
    destruct (lookup_lt_is_Some_2 ds r) as [s Hs]; [lia|].
    rewrite (obj_lookup ds r s Hs).
    rewrite Forall_lookup in Hst. by eapply Hst. }
  exists h', L. split; [done|]. split; [|split; [done|]].
  - unfold padding_with in Hrun. rewrite lengths_of_refs in Hrun.
    destruct (py_max (map length ds)) as [L'|e]; simpl in Hrun; [|done].
    destruct (pad_refs mk L' ds (seq 0 (length ds))); simpl in Hrun; [|done].
    by injection Hrun as _ ->.
  - intros i s Hs.
    assert (Hi : i < length ds) by (by eapply lookup_lt_Some).
    destruct (Hpad i) as [Heq _]; [apply in_seq; lia|].
    rewrite (obj_lookup ds i s Hs) in Heq.
    destruct (lookup_lt_is_Some_2 h' i) as [s' Hs']; [lia|].
    rewrite (obj_lookup h' i s' Hs') in Heq. by rewrite Hs', Heq.
Qed.

Lemma py_max_bound (ns : list nat) L n :
  py_max ns = Ok L -> In n ns -> n <= L.
Proof.
  intros Hmax Hn. destruct (py_max_spec ns) as (L' & HL' & Hall & _).
  { by destruct ns. }
  rewrite Hmax in HL'. injection HL' as <-. by apply Hall.
Qed.

(** After padding, every sequence has length [L] and holds its old elements
    followed by copies of its pad element. *)
Lemma padded_rows (P : E -> Prop) (ds h' : list (list E)) L :
  py_max (map length ds) = Ok L ->
  length h' = length ds ->
  (forall i s, ds !! i = Some s -> h' !! i = Some (padded L (pad s) s)) ->
  Forall (fun s => Forall P s /\ P (pad s)) ds ->
  Forall (fun s => length s = L /\ Forall P s) h'.
Proof.
  intros Hmax Hlen Hrows HP. apply Forall_lookup. intros i s' Hs'.
  destruct (lookup_lt_is_Some_2 ds i) as [s Hs].
  { rewrite <- Hlen. by eapply lookup_lt_Some. }
  rewrite (Hrows i s Hs) in Hs'. injection Hs' as <-.
  rewrite Forall_lookup in HP. destruct (HP i s Hs) as [Hall Hpad].
  split.
  - apply (padded_length mk pad).
    apply (py_max_bound (map length ds) L (length s) Hmax).
    apply in_map. apply list_elem_of_In. by eapply list_elem_of_lookup_2.
  - unfold padded. apply Forall_app. split; [done|].
    by apply Forall_replicate.
Qed.
End FreshPadding.

(** ** Single-keypoint pipeline: extraction, then padding *)

Section KpPipelineFacts.
Context {F : Type} (zero nan : F).

Lemma keypoints_kp_loop_output kp (fs : list (@recording F)) : forall acc,
  Forall (fun p => kp_extractable kp (drop_last (hdPose3d_stage1_op25 p))) fs ->
  keypoints_kp_loop zero kp acc fs =
    Ok (acc.1 ++
          map (fun p => (kp_sequences_of zero kp
                           (drop_last (hdPose3d_stage1_op25 p))).1.1) fs,
        acc.2 ++
          map (fun p => (kp_sequences_of zero kp
                           (drop_last (hdPose3d_stage1_op25 p))).2.1) fs).
Proof.
  induction fs as [|p fs IH]; intros acc Hall; simpl.
  - rewrite !app_nil_r. by destruct acc.
  - apply Forall_cons in Hall as [Hp Hall].
    rewrite (get_body_kp_output zero kp _ Hp). simpl.
    rewrite IH by done. simpl. by rewrite <- !app_assoc.
Qed.

Lemma kp_slot_0_elements kp (f : @frame F) :
  Forall (fun q => kp * 4 + 2 < length (landmarks q))
    (List.filter is_valid f) ->
  is_pair (kp_slot_0 (Vector [zero; zero]) (kp_planar kp) f) /\
  is_scalar (kp_slot_0 (Scalar zero) (kp_depth zero kp) f).
Proof.
  intros Hlong. unfold kp_slot_0.
  destruct (List.filter is_valid f) as [|a l].
  - split; [by exists zero, zero|by exists zero].
  - apply Forall_cons in Hlong as [Ha _].
    destruct (kp_planar_pair zero kp a Ha) as (x & y & z & _ & _ & _ & -> & ->).
    split; [by exists x, y|by exists z].
Qed.

Lemma kp_slot_0_rows kp (fs : list (@frame F)) :
  kp_extractable kp fs ->
  Forall is_pair (kp_sequences_of zero kp fs).1.1 /\
  Forall is_scalar (kp_sequences_of zero kp fs).2.1.
Proof.
  intros Hex. simpl. split; apply Forall_fmap;
    (eapply Forall_impl; [exact Hex|]); intros f [Hlong _];
    by destruct (kp_slot_0_elements kp f Hlong).
Qed.
End KpPipelineFacts.

(** X8. The data cells of the single-keypoint notebook, run on at least five
    recording folders whose body frames hold at most two detected people with
    joint 5 in their lists: [get_keypoints] keeps slot 0 of the folders
    [3:-1]; padding the inputs and padding the labels return the same length
    L; afterwards every input sequence holds L pairs [x, y] and every label
    sequence L scalars, so that both convert to arrays of shape (N-4, L, 2)
    and (N-4, L).  The sequences are, folder by folder, what slot 0 holds:
    per retained body frame the pair at 20:22 and the scalar at 22 of the
    first detected person, or [0., 0.] and 0. when nobody is detected; the
    padded inputs are these followed by pairs [0., 0.] and the padded labels
    these followed by missing-value markers. *)
Theorem kp_pipeline_is_rectangular {F : Type} (zero nan : F)
    (folders : list (@recording F)) :
  5 <= length folders ->
  Forall (fun p => kp_extractable 5 (drop_last (hdPose3d_stage1_op25 p)))
    (drop_3_last folders) ->
  exists dataset groundtruth inputs labels L,
    get_keypoints_kp zero folders = Ok (dataset, groundtruth) /\
    length dataset = length folders - 4 /\
    length groundtruth = length folders - 4 /\
    padding_seq_kp zero nan dataset (seq 0 (length dataset)) false =
      Ok (inputs, L) /\
    padding_seq_kp zero nan groundtruth (seq 0 (length groundtruth)) true =
      Ok (labels, L) /\
    length inputs = length folders - 4 /\
    length labels = length folders - 4 /\
    Forall (fun s => length s = L /\ Forall is_pair s) inputs /\
    Forall (fun s => length s = L /\ Forall is_scalar s) labels /\
    dataset =
      map (fun p => map (kp_slot_0 (Vector [zero; zero]) (kp_planar 5))
                      (drop_last (hdPose3d_stage1_op25 p)))
        (drop 3 (take (length folders - 1) folders)) /\
    groundtruth =
      map (fun p => map (kp_slot_0 (Scalar zero) (kp_depth zero 5))
                      (drop_last (hdPose3d_stage1_op25 p)))
        (drop 3 (take (length folders - 1) folders)) /\
    py_max (map length dataset) = Ok L /\
    (forall i s, dataset !! i = Some s ->
       inputs !! i = Some (s ++ replicate (L - length s) (Vector [zero; zero]))) /\
    (forall i s, groundtruth !! i = Some s ->
       labels !! i = Some (s ++ replicate (L - length s) (Scalar nan))).
Proof.
  intros Hlen Hall.
  set (fs := drop_3_last folders) in *.
  assert (Hfs : length fs = length folders - 4).
  { unfold fs, drop_3_last. rewrite length_drop, length_take. lia. }
  set (ds := map (fun p => (kp_sequences_of zero 5
                    (drop_last (hdPose3d_stage1_op25 p))).1.1) fs).
  set (gt := map (fun p => (kp_sequences_of zero 5
                    (drop_last (hdPose3d_stage1_op25 p))).2.1) fs).
  assert (Hrun : get_keypoints_kp zero folders = Ok (ds, gt)).
  { unfold get_keypoints_kp. fold fs.
    by rewrite (keypoints_kp_loop_output zero 5 fs ([], []) Hall). }
  assert (Hds : length ds = length folders - 4)
    by (unfold ds; by rewrite length_map).
  assert (Hgt : length gt = length folders - 4)
    by (unfold gt; by rewrite length_map).
  assert (Hlens : map length ds = map length gt).
  { unfold ds, gt. rewrite !map_map. apply map_ext. intros p. simpl.
    by rewrite !length_map. }
  destruct (padding_fresh (fun _ => Ok (kp_pad zero nan false))
              (fun _ => kp_pad zero nan false) ds)
    as (hi & L & Hpi & Hmi & Hli & Hri).
  { destruct ds; [simpl in Hds; lia|done]. }
  { apply Forall_forall. intros s _. apply kp_pad_stable. }
  destruct (padding_fresh (fun _ => Ok (kp_pad zero nan true))
              (fun _ => kp_pad zero nan true) gt)
    as (hl & L' & Hpl & Hml & Hll & Hrl).
  { destruct gt; [simpl in Hgt; lia|done]. }
  { apply Forall_forall. intros s _. apply kp_pad_stable. }
  assert (HL : L' = L) by (rewrite Hlens in Hmi; congruence).
  subst L'.
  exists ds, gt, hi, hl, L.
  split; [done|]. split; [done|]. split; [done|].
  split; [exact Hpi|]. split; [exact Hpl|].
  split; [lia|]. split; [lia|]. split; [|split].
  - apply (padded_rows (fun _ => Ok (kp_pad zero nan false))
             (fun _ => kp_pad zero nan false) is_pair ds hi L Hmi Hli Hri).
    unfold ds. apply Forall_fmap. eapply Forall_impl; [exact Hall|].
    intros p Hp. simpl. split; [|by exists zero, zero].
    by destruct (kp_slot_0_rows zero 5 _ Hp).
  - apply (padded_rows (fun _ => Ok (kp_pad zero nan true))
             (fun _ => kp_pad zero nan true) is_scalar gt hl L Hml Hll Hrl).
    unfold gt. apply Forall_fmap. eapply Forall_impl; [exact Hall|].
    intros p Hp. simpl. split; [|by exists nan].
    by destruct (kp_slot_0_rows zero 5 _ Hp).
  - split; [reflexivity|]. split; [reflexivity|]. split; [exact Hmi|].
    split; [exact Hri|exact Hrl].
Qed.

(** ** Full-keypoint pipeline: aggregation, then padding *)

Section CorpusPaddingFacts.
Context {F : Type} (zero nan : F).

Lemma nan_row_stable {E : Type} (n : E) (seq : list (list E)) :
  seq <> [] -> stable (nan_vector n) (nan_row n) seq.
Proof.
  intros Hne. destruct seq as [|first seq]; [done|].
  intros ext. by apply (nan_vector_stable n (first :: seq) first).
Qed.

Lemma folder_lengths (p : @recording F) :
  map length (folder_inputs zero p) = map length (folder_labels zero p).
Proof.
  unfold folder_inputs, folder_labels. simpl.
  by rewrite !zip_concat_length, !length_map.
Qed.

Lemma corpus_lengths (folders : list (@recording F)) :
  map length (concat (map (folder_inputs zero) folders)) =
  map length (concat (map (folder_labels zero) folders)).
Proof.
  induction folders as [|p folders IH]; [done|].
  rewrite !map_cons, !concat_cons, !map_app, IH. f_equal.
  apply folder_lengths.
Qed.

Lemma flat_width_length w (x : list (@cell F)) :
  flat_width w x -> length x = w.
Proof. intros (v & -> & Hv). by rewrite length_map. Qed.

Lemma rows_of_width w (ds : list (list (list (@cell F)))) :
  Forall (fun s => s <> []) ds ->
  Forall (Forall (flat_width w)) ds ->
  Forall (fun s => Forall (fun x => length x = w) s /\
                   length (nan_row (Num nan) s) = w) ds.
Proof.
  intros Hne Hw. apply Forall_lookup. intros i s Hs.
  rewrite Forall_lookup in Hne. rewrite Forall_lookup in Hw.
  pose proof (Hne i s Hs) as Hs_ne. pose proof (Hw i s Hs) as Hs_w.
  split.
  - eapply Forall_impl; [exact Hs_w|]. apply flat_width_length.
  - destruct s as [|first s]; [done|].
    apply Forall_cons in Hs_w as [Hfirst _].
    unfold nan_row. simpl. rewrite length_replicate.
    by apply flat_width_length.
Qed.
End CorpusPaddingFacts.

(** X9. The data cells of the full-keypoint notebooks, run on recordings that
    follow the file layout: when no sequence of the corpus is empty, padding
    [dataset] and padding [groundtruth] return the same length L, and
    afterwards every sequence holds L vectors of 276 resp. 138 entries: the
    two lists convert to arrays of shape (2R, L, 276) and (2R, L, 138). *)
Theorem corpus_padding_is_rectangular {F : Type} (zero nan : F)
    (folders : list (@recording F))
    (dataset groundtruth : list (list (list (@cell F)))) :
  Forall in_schema folders ->
  get_keypoints zero folders = Ok (dataset, groundtruth) ->
  dataset <> [] ->
  Forall (fun s => s <> []) dataset ->
  exists inputs labels L,
    padding_seq (Num nan) dataset (seq 0 (length dataset)) = Ok (inputs, L) /\
    padding_seq (Num nan) groundtruth (seq 0 (length groundtruth)) =
      Ok (labels, L) /\
    length inputs = 2 * length folders /\
    length labels = 2 * length folders /\
    Forall (fun s => length s = L /\ Forall (fun x => length x = 276) s)
      inputs /\
    Forall (fun s => length s = L /\ Forall (fun x => length x = 138) s)
      labels.
Proof.
  intros Hall Hrun Hne Hrows.
  destruct (corpus_vectors_have_fixed_width_aux zero folders Hall)
    as (Hrun' & Hw276 & Hw138).
  rewrite Hrun' in Hrun. injection Hrun as <- <-.
  set (ds := concat (map (folder_inputs zero) folders)) in *.
  set (gt := concat (map (folder_labels zero) folders)) in *.
  assert (Hlens : map length ds = map length gt) by apply corpus_lengths.
  assert (Hds : length ds = 2 * length folders)
    by (by eapply concat_pairs_length).
  assert (Hgt : length gt = 2 * length folders)
    by (by eapply concat_pairs_length).
  assert (Hrows' : Forall (fun s => s <> []) gt).
  { apply Forall_lookup. intros i s Hs.
    assert (Hl : map length gt !! i = Some (length s))
      by (by rewrite list_lookup_fmap, Hs).
    rewrite <- Hlens, list_lookup_fmap in Hl.
    destruct (ds !! i) as [s'|] eqn:Hs'; [|done].
    rewrite Forall_lookup in Hrows. pose proof (Hrows i s' Hs') as Hs'_ne.
    simpl in Hl. injection Hl as Hl. intros ->. destruct s'; done. }
  destruct (padding_fresh (nan_vector (Num nan)) (nan_row (Num nan)) ds)
    as (hi & L & Hpi & Hmi & Hli & Hri); [done| |].
  { eapply Forall_impl; [exact Hrows|]. intros s. apply nan_row_stable. }
  destruct (padding_fresh (nan_vector (Num nan)) (nan_row (Num nan)) gt)
    as (hl & L' & Hpl & Hml & Hll & Hrl).
  { destruct gt; [|done]. destruct ds; [done|]. simpl in *. lia. }
  { eapply Forall_impl; [exact Hrows'|]. intros s. apply nan_row_stable. }
  assert (HL : L' = L) by (rewrite Hlens in Hmi; congruence).
  subst L'.
  exists hi, hl, L.
  split; [exact Hpi|]. split; [exact Hpl|].
  split; [lia|]. split; [lia|]. split.
  - apply (padded_rows (nan_vector (Num nan)) (nan_row (Num nan))
             (fun x => length x = 276) ds hi L Hmi Hli Hri).
    by apply rows_of_width.
  - apply (padded_rows (nan_vector (Num nan)) (nan_row (Num nan))
             (fun x => length x = 138) gt hl L Hml Hll Hrl).
    by apply rows_of_width.
Qed.

(** ** Edge cases of the padder *)

Section PaddingEdges.
Context {E : Type} (mk : list E -> res E) (pad : list E -> E).

Lemma pad_refs_app L (l1 l2 : list nat) : forall h : list (list E),
  pad_refs mk L h (l1 ++ l2) =
    (h1 <- pad_refs mk L h l1 ;; pad_refs mk L h1 l2).
Proof.
  induction l1 as [|r l1 IH]; intros h; simpl; [done|].
  destruct (pad_loop mk (L - length (obj h r)) (obj h r)); simpl;
    [apply IH|done].
Qed.

Lemma insert_obj (h : list (list E)) r : r < length h -> <[r := obj h r]> h = h.
Proof.
  intros Hr. destruct (lookup_lt_is_Some_2 h r Hr) as [s Hs].
  rewrite (obj_lookup h r s Hs). by apply list_insert_id.
Qed.

(** Sequences that already have length [L] are left as they are. *)
Lemma pad_refs_full L (dataset : list nat) (h : list (list E)) :
  (forall r, In r dataset -> r < length h /\ length (obj h r) = L) ->
  pad_refs mk L h dataset = Ok h.
Proof.
  induction dataset as [|r rest IH]; intros Hall; simpl; [done|].
  destruct (Hall r (or_introl eq_refl)) as [Hr HL].
  rewrite HL, Nat.sub_diag. simpl. rewrite insert_obj by done.
  apply IH. intros r' Hr'. apply Hall. by right.
Qed.

Lemma py_max_const (dataset : list nat) L :
  dataset <> [] -> py_max (map (fun _ => L) dataset) = Ok L.
Proof.
  intros Hne.
  destruct (py_max_spec (map (fun _ => L) dataset)) as (L' & -> & _ & Hin).
  { by destruct dataset. }
  apply in_map_iff in Hin as (r & <- & _). done.
Qed.

Lemma padding_with_again (h h' : list (list E)) (dataset : list nat) L :
  (forall r, In r dataset -> r < length h /\ stable mk pad (obj h r)) ->
  padding_with mk h dataset = Ok (h', L) ->
  padding_with mk h' dataset = Ok (h', L).
Proof.
  intros Hds Hrun.
  assert (Hne : dataset <> []).
  { intros ->. unfold padding_with in Hrun. simpl in Hrun. done. }
  destruct (padding_with_spec mk pad h dataset Hne Hds)
    as (h2 & L2 & Hrun2 & _ & Hlen & Hpad & _).
  rewrite Hrun in Hrun2. injection Hrun2 as <- <-.
  unfold padding_with.
  rewrite (map_ext_in _ (fun _ => L)).
  2:{ intros r Hr. by destruct (Hpad r Hr). }
  rewrite py_max_const by done. simpl.
  rewrite pad_refs_full; [done|].
  intros r Hr. destruct (Hds r Hr) as [Hlt _]. destruct (Hpad r Hr) as [_ HL].
  split; [lia|done].
Qed.
End PaddingEdges.

Lemma padding_seq_empty_raises_aux {F : Type} (nan : F)
    (h : list (list (list F))) (pre post : list nat) (r r' : nat) :
  (forall q, In q pre -> q < length h /\ obj h q <> []) ->
  obj h r = [] ->
  In r' (pre ++ r :: post) -> obj h r' <> [] ->
  padding_seq nan h (pre ++ r :: post) = Raise (IndexError list_index_msg).
Proof.
  intros Hpre Hr Hin' Hne'. unfold padding_seq, padding_with.
  destruct (py_max_spec (map (fun q => length (obj h q)) (pre ++ r :: post)))
    as (L & -> & Hall & _).
  { by destruct pre. }
  simpl.
  assert (HL : 0 < L).
  { assert (length (obj h r') <= L).
    { apply Hall. apply in_map_iff. by exists r'. }
    destruct (obj h r'); [done|]. simpl in *. lia. }
  rewrite pad_refs_app.
  destruct (pad_refs_spec (nan_vector nan) (nan_row nan) L h pre h)
    as (h1 & -> & _ & _ & _ & Hout).
  - intros q Hq. destruct (Hpre q Hq) as [Hlt Hq_ne]. split; [done|]. split.
    + apply Hall. apply in_map_iff. exists q. split; [done|].
      apply in_or_app. by left.
    + by apply nan_row_stable.
  - done.
  - intros q. by left.
  - simpl. rewrite Hout.
    + rewrite Hr. simpl. destruct L as [|c]; [lia|]. done.
    + intros Hin. destruct (Hpre r Hin) as [_ Hr_ne]. by apply Hr_ne.
Qed.

(** X10. In the full-keypoint padder an empty sequence has no first vector to
    take the width from: when the collection holds an empty sequence and a
    non-empty one (and the sequences before the empty one are non-empty),
    [padding_seq] raises IndexError ('list index out of range'). *)
Theorem padding_seq_empty_sequence_raises {F : Type} (nan : F)
    (h : list (list (list F))) (pre post : list nat) (r r' : nat) :
  (forall q, In q pre -> q < length h /\ obj h q <> []) ->
  r < length h ->
  obj h r = [] ->
  In r' (pre ++ r :: post) -> obj h r' <> [] ->
  padding_seq nan h (pre ++ r :: post) = Raise (IndexError list_index_msg).
Proof.
  intros Hpre _ Hr Hin' Hne'. unfold padding_seq, padding_with.
  destruct (py_max_spec (map (fun q => length (obj h q)) (pre ++ r :: post)))
    as (L & HmaxL & Hall & _).
  { by destruct pre. }
  rewrite HmaxL. simpl.
  assert (Hle : forall q, In q (pre ++ r :: post) -> length (obj h q) <= L).
  { intros q Hq. apply Hall. apply in_map_iff. by exists q. }
  assert (HL : 0 < L).
  { pose proof (Hle r' Hin'). destruct (obj h r'); [done|]. simpl in *. lia. }
  assert (Hfresh : ~ In r pre).
  { intros Hin. destruct (Hpre r Hin) as [_ Hr_ne]. by apply Hr_ne. }
  rewrite pad_refs_app.
  destruct (pad_refs_spec (nan_vector nan) (nan_row nan) L h pre h)
    as (h1 & Hrun & _ & _ & _ & Hout).
  - intros q Hq. destruct (Hpre q Hq) as [Hlt Hq_ne]. split; [done|]. split.
    + apply Hle. apply in_or_app. by left.
    + by apply nan_row_stable.
  - done.
  - intros q. by left.
  - rewrite Hrun. simpl. rewrite (Hout r Hfresh), Hr. simpl.
    destruct L as [|c]; [lia|]. done.
Qed.

(** X11. Padding is idempotent: running either padder a second time on the
    padded collection appends nothing and returns the same length. *)
Theorem padding_again_changes_nothing {F : Type} (zero nan : F)
    (h h' : list (list (list F))) (dataset : list nat) (L : nat)
    (hk hk' : list (list (@kp_elem F))) (dataset_kp : list nat)
    (labels : bool) (Lk : nat) :
  (forall r, In r dataset -> r < length h /\ obj h r <> []) ->
  (forall r, In r dataset_kp -> r < length hk) ->
  padding_seq nan h dataset = Ok (h', L) ->
  padding_seq_kp zero nan hk dataset_kp labels = Ok (hk', Lk) ->
  padding_seq nan h' dataset = Ok (h', L) /\
  padding_seq_kp zero nan hk' dataset_kp labels = Ok (hk', Lk).
Proof.
  intros Hds Hdsk Hrun Hrunk. split.
  - apply (padding_with_again (nan_vector nan) (nan_row nan) h h' dataset L);
      [|exact Hrun].
    intros r Hr. destruct (Hds r Hr) as [Hlt Hne]. split; [done|].
    by apply nan_row_stable.
  - apply (padding_with_again (fun _ => Ok (kp_pad zero nan labels))
             (fun _ => kp_pad zero nan labels) hk hk' dataset_kp Lk);
      [|exact Hrunk].
    intros r Hr. split; [by apply Hdsk|]. apply kp_pad_stable.
Qed.

Section EmptySlot.
Context {F : Type} (zero nan : F).

(** A collection with an empty sequence splits at its first one. *)
Lemma first_empty {E : Type} (ds : list (list E)) :
  In [] ds ->
  exists pre post, ds = pre ++ [] :: post /\ Forall (fun s => s <> []) pre.
Proof.
  induction ds as [|s ds IH]; [done|]. intros Hin.
  destruct s as [|x s].
  - exists [], ds. by split.
  - destruct Hin as [Hin|Hin]; [done|].
    destruct (IH Hin) as (pre & post & -> & Hpre).
    exists ((x :: s) :: pre), post. split; [done|].
    constructor; [done|exact Hpre].
Qed.

Lemma padding_fresh_empty_raises (n : F) (ds : list (list (list F))) s :
  In [] ds -> In s ds -> s <> [] ->
  padding_seq n ds (seq 0 (length ds)) = Raise (IndexError list_index_msg).
Proof.
  intros Hempty Hs Hs_ne.
  destruct (first_empty ds Hempty) as (pre & post & Hds & Hpre).
  apply list_elem_of_In, list_elem_of_lookup_1 in Hs as [i Hi].
  assert (Hlen : length ds = length pre + S (length post)).
  { rewrite Hds, length_app. done. }
  assert (Hrefs : seq 0 (length ds) =
                  seq 0 (length pre) ++
                  length pre :: seq (S (length pre)) (length post)).
  { rewrite Hlen, seq_app. simpl. done. }
  rewrite Hrefs.
  apply (padding_seq_empty_raises_aux n ds _ _ (length pre) i).
  - intros q Hq. apply in_seq in Hq. split; [lia|].
    destruct (lookup_lt_is_Some_2 pre q) as [sq Hsq]; [lia|].
    rewrite (obj_lookup ds q sq).
    + rewrite Forall_lookup in Hpre. by eapply Hpre.
    + rewrite Hds. by apply lookup_app_l_Some.
  - apply obj_lookup. rewrite Hds. by apply list_lookup_middle.
  - rewrite <- Hrefs. apply in_seq. apply lookup_lt_Some in Hi. lia.
  - by rewrite (obj_lookup ds i s Hi).
Qed.

Lemma undetected_inputs (p : @recording F) :
  Forall (fun f => has_detection f = false) (drop_first (hdFace3d p)) ->
  2 <= length (hdFace3d p) ->
  3 <= length (hdHand3d p) ->
  2 <= length (hdPose3d_stage1_op25 p) ->
  exists first, first <> [] /\ folder_inputs zero p = [first; []].
Proof.
  intros Hnone Hf Hh Hb. unfold folder_inputs. simpl.
  assert (Hfilter : List.filter has_detection (drop_first (hdFace3d p)) = []).
  { induction (drop_first (hdFace3d p)) as [|f fs IH]; [done|].
    apply Forall_cons in Hnone as [Hf0 Hnone]. simpl. rewrite Hf0.
    by apply IH. }
  rewrite Hfilter. simpl. eexists. split; [|reflexivity].
  intros Hnil. apply (f_equal length) in Hnil.
  rewrite zip_concat_length, !length_map in Hnil.
  destruct (trimmed_lengths (hdFace3d p)) as (Hlf & _ & _).
  destruct (trimmed_lengths (hdHand3d p)) as (_ & _ & Hlh).
  destruct (trimmed_lengths (hdPose3d_stage1_op25 p)) as (_ & Hlb & _).
  rewrite Hlf, Hlh, Hlb in Hnil. simpl in Hnil.
  destruct (length (hdFace3d p) - 1) as [|a] eqn:Ha; [lia|].
  destruct (length (hdHand3d p) - 2) as [|b] eqn:Hb'; [lia|].
  destruct (length (hdPose3d_stage1_op25 p) - 1) as [|c] eqn:Hc; [lia|].
  simpl in Hnil. done.
Qed.
End EmptySlot.

(** X12. A recording in which the face folder has frames but no detected person
    (every entry has id -1) contributes a slot-0 sequence of zero face
    vectors and an empty slot-1 sequence, since a frame without detection
    pads slot 0 only.  The corpus is built without error, and
    [padding_seq(dataset)] then raises IndexError ('list index out of
    range') at the empty sequence. *)
Theorem undetected_recording_breaks_padding {F : Type} (zero nan : F)
    (folders : list (@recording F)) (p : @recording F) :
  Forall conforming folders ->
  In p folders ->
  Forall (fun f => has_detection f = false) (drop_first (hdFace3d p)) ->
  2 <= length (hdFace3d p) ->
  3 <= length (hdHand3d p) ->
  2 <= length (hdPose3d_stage1_op25 p) ->
  exists dataset groundtruth,
    get_keypoints zero folders = Ok (dataset, groundtruth) /\
    In [] dataset /\
    padding_seq (Num nan) dataset (seq 0 (length dataset)) =
      Raise (IndexError list_index_msg).
Proof.
  intros Hall Hp Hnone Hf Hh Hb.
  exists (concat (map (folder_inputs zero) folders)),
         (concat (map (folder_labels zero) folders)).
  split.
  { unfold get_keypoints. by rewrite keypoints_loop_output. }
  destruct (undetected_inputs zero p Hnone Hf Hh Hb) as (first & Hne & Hin).
  assert (Hsub : forall s, In s [first; []] ->
                 In s (concat (map (folder_inputs zero) folders))).
  { intros s Hs. apply in_concat. exists (folder_inputs zero p).
    split; [by apply in_map|by rewrite Hin]. }
  assert (Hempty : In [] (concat (map (folder_inputs zero) folders))).
  { apply Hsub. right. by left. }
  split; [exact Hempty|].
  apply (padding_fresh_empty_raises (Num nan) _ first Hempty); [|exact Hne].
  apply Hsub. by left.
Qed.

(** ** What the normalizer does to the tensor *)

Section NormalizeTensor.
Context {F : Type} (ops : np_arith F).

Lemma map_step_aux_lookup (f : F -> F) step (v : list F) : forall skip p,
  skip < step ->
  map_step_aux f step skip v !! p =
    (fun x => if p mod step =? skip then f x else x) <$> v !! p.
Proof.
  induction v as [|x t IH]; intros skip p Hskip; [done|].
  destruct skip as [|s], p as [|p]; cbn -[Nat.modulo Nat.eqb].
  - by rewrite Nat.Div0.mod_0_l.
  - rewrite IH by lia. destruct (t !! p) as [y|]; [|done].
    cbn -[Nat.modulo Nat.eqb]. f_equal.
    destruct (Nat.eqb_spec (p mod step) (step - 1)) as [H1|H1],
             (Nat.eqb_spec (S p mod step) 0) as [H2|H2]; try done; exfalso.
    + apply H2. replace (S p) with (p + 1) by lia.
      rewrite <- Nat.Div0.add_mod_idemp_l, H1.
      replace (step - 1 + 1) with step by lia. apply Nat.Div0.mod_same.
    + apply H1. apply Nat.Lcm0.mod_divide in H2 as [k Hk].
      destruct k as [|k]; [lia|].
      replace p with (step - 1 + k * step) by lia.
      rewrite Nat.Div0.mod_add. apply Nat.mod_small. lia.
  - rewrite Nat.Div0.mod_0_l. done.
  - rewrite IH by lia. destruct (t !! p) as [y|]; [|done].
    cbn -[Nat.modulo Nat.eqb]. f_equal.
    destruct (Nat.eqb_spec (p mod step) s) as [H1|H1],
             (Nat.eqb_spec (S p mod step) (S s)) as [H2|H2]; try done; exfalso.
    + apply H2. replace (S p) with (p + 1) by lia.
      rewrite <- Nat.Div0.add_mod_idemp_l, H1.
      replace (s + 1) with (S s) by lia. apply Nat.mod_small. lia.
    + apply H1.
      pose proof (Nat.div_mod_eq (S p) step) as Hd. rewrite H2 in Hd.
      replace p with (s + (S p / step) * step) by lia.
      rewrite Nat.Div0.mod_add. apply Nat.mod_small. lia.
Qed.

(** One more sub-channel in front of the loop. *)
Lemma rescale_step (sub div : F -> F -> F) (pm a n : nat) (x m s : F)
    (sts : list (F * F)) :
  (if (S a <=? pm) && (pm <? S a + n) then
     match sts !! (pm - S a) with
     | Some ms => div (sub (if pm =? a then div (sub x m) s else x) ms.1) ms.2
     | None => if pm =? a then div (sub x m) s else x
     end
   else if pm =? a then div (sub x m) s else x) =
  (if (a <=? pm) && (pm <? a + S n) then
     match ((m, s) :: sts) !! (pm - a) with
     | Some ms => div (sub x ms.1) ms.2
     | None => x
     end
   else x).
Proof.
  destruct (Nat.eqb_spec pm a) as [->|Hne].
  - replace (S a <=? a) with false by (symmetry; apply Nat.leb_gt; lia).
    replace (a <=? a) with true by (symmetry; apply Nat.leb_le; lia).
    replace (a <? a + S n) with true by (symmetry; apply Nat.ltb_lt; lia).
    rewrite Nat.sub_diag. done.
  - destruct (Nat.leb_spec (S a) pm) as [Hle|Hgt].
    + replace (a <=? pm) with true by (symmetry; apply Nat.leb_le; lia).
      replace (a + S n) with (S a + n) by lia.
      destruct (pm <? S a + n); [|done].
      replace (pm - a) with (S (pm - S a)) by lia. done.
    + replace (a <=? pm) with false by (symmetry; apply Nat.leb_gt; lia).
      done.
Qed.

(** The loop over the sub-channels [a, a+1, ..., a+n-1]: an entry at a
    position of one of these residues is rescaled once, with the pair of its
    sub-channel; the others are untouched. *)
Lemma rescale_loop_spec c n : forall a sts (t : @tensor F),
  length sts = n -> a + n <= c ->
  rescale_loop ops t c (seq a n) sts =
    map (map (imap (fun p x =>
      if (a <=? p mod c) && (p mod c <? a + n) then
        match sts !! (p mod c - a) with
        | Some ms => fdiv ops (fsub ops x ms.1) ms.2
        | None => x
        end
      else x))) t.
Proof.
  induction n as [|n IH]; intros a sts t Hlen Hc.
  - simpl. symmetry. rewrite <- (map_id t) at 2. apply map_ext. intros slot.
    rewrite <- (map_id slot) at 2. apply map_ext. intros v.
    apply list_eq. intros p. rewrite list_lookup_imap.
    destruct (v !! p) as [x|]; [|done]. simpl.
    replace (p mod c <? a + 0) with (negb (a <=? p mod c)).
    + by destruct (a <=? p mod c).
    + destruct (Nat.leb_spec a (p mod c)), (Nat.ltb_spec (p mod c) (a + 0));
        simpl; (done || lia).
  - destruct sts as [|[m s] sts]; [done|]. simpl in Hlen.
    cbn [seq rescale_loop]. rewrite IH by lia.
    unfold rescale. rewrite map_map. apply map_ext. intros slot.
    rewrite map_map. apply map_ext. intros v.
    apply list_eq. intros p. rewrite !list_lookup_imap.
    rewrite map_step_aux_lookup by lia.
    destruct (v !! p) as [x|]; [|done].
    cbn -[Nat.modulo Nat.eqb Nat.leb Nat.ltb]. f_equal.
    exact (rescale_step (fsub ops) (fdiv ops) (p mod c) a n x m s sts).
Qed.

Lemma normalize_tensor_aux (t : @tensor F) c :
  (normalize ops t c).1 =
    map (map (standardised (fsub ops) (fdiv ops)
                (normalize ops t c).2 c)) t.
Proof.
  set (stats := (normalize ops t c).2).
  assert (Hlen : length stats = c).
  { unfold stats. by rewrite normalize_stats, length_map, length_seq. }
  change ((normalize ops t c).1)
    with (rescale_loop ops t c (seq 0 c) stats).
  rewrite (rescale_loop_spec c c 0 stats t Hlen) by lia.
  apply map_ext. intros slot. apply map_ext. intros v.
  unfold standardised. apply imap_ext. intros p x _.
  rewrite Nat.sub_0_r. simpl.
  destruct (Nat.ltb_spec (p mod c) c) as [Hlt|Hge]; [done|].
  by rewrite lookup_ge_None_2 by lia.
Qed.
End NormalizeTensor.

(** X13. The normalizer keeps the shape of the tensor and replaces the entry [x]
    at position p of every vector by [(x - mean_k) / std_k], where k = p mod
    coordinates and [(mean_k, std_k)] is the k-th pair it returns: every
    entry is rescaled exactly once, with statistics that were all taken from
    the tensor as it was before the first rescaling. *)
Theorem normalize_standardises_each_channel {F : Type} (ops : np_arith F)
    (t : @tensor F) (c : nat) :
  0 < c ->
  let stats :=
    map (fun k => (nanmean ops (subchannel t k c),
                   nanstd ops (subchannel t k c))) (seq 0 c) in
  normalize ops t c =
    (map (map (standardised (fsub ops) (fdiv ops) stats c)) t, stats) /\
  forall s k p slot v x,
    t !! s = Some slot -> slot !! k = Some v -> v !! p = Some x ->
    exists slot' v',
      (normalize ops t c).1 !! s = Some slot' /\
      length slot' = length slot /\
      slot' !! k = Some v' /\
      length v' = length v /\
      v' !! p =
        Some (fdiv ops (fsub ops x (nanmean ops (subchannel t (p mod c) c)))
                (nanstd ops (subchannel t (p mod c) c))).
Proof.
  intros Hc stats.
  assert (Hstats : (normalize ops t c).2 = stats)
    by apply normalize_stats.
  assert (Htensor : (normalize ops t c).1 =
                    map (map (standardised (fsub ops) (fdiv ops) stats c)) t).
  { rewrite <- Hstats. apply normalize_tensor_aux. }
  split.
  { rewrite <- Htensor, <- Hstats. by destruct (normalize _ _ _). }
  intros s k p slot v x Hs Hk Hp.
  exists (map (standardised (fsub ops) (fdiv ops) stats c) slot),
         (standardised (fsub ops) (fdiv ops) stats c v).
  rewrite Htensor. unfold tensor in *.
  split; [by rewrite list_lookup_fmap, Hs|].
  split; [by rewrite length_map|].
  split; [by rewrite list_lookup_fmap, Hk|].
  unfold standardised. split; [by rewrite length_imap|].
  rewrite list_lookup_imap, Hp. simpl.
  assert (Hpc : p mod c < c) by (apply Nat.mod_upper_bound; lia).
  unfold stats. rewrite list_lookup_fmap, lookup_seq_lt by done. done.
Qed.


(** ** Undoing the normalization *)





(** ** Sizes of the three partitions *)

Lemma nearest_small (n a b : nat) :
  nearest_int (67 * Z.of_nat n) 100 a ->
  nearest_int (85 * Z.of_nat n) 100 b ->
  (a = 0 <-> n = 0) /\
  (b - a = 0 <-> n = 0 \/ n = 1 \/ n = 4) /\
  (n - b = 0 <-> n <= 3).
Proof.
  unfold nearest_int. intros Ha Hb.
  assert (Hn : n <= 5 \/ 6 <= n) by lia.
  destruct Hn as [Hn|Hn]; [|lia].
  destruct n as [|[|[|[|[|[|n]]]]]]; try lia.
Qed.

(** X14. With bounds nearest to 0.67*N and 0.85*N, the training part is empty
    only for an empty collection, the test part is empty exactly when N <= 3,
    and the validation part is empty exactly when N is 0, 1 or 4; from N = 5
    on all three parts are non-empty. *)
Theorem split_parts_nonempty {A : Type} (dataset : list A) (a b : nat) :
  nearest_int (67 * Z.of_nat (length dataset)) 100 a ->
  nearest_int (85 * Z.of_nat (length dataset)) 100 b ->
  ((split_at a b dataset).1.1 = [] <-> length dataset = 0) /\
  ((split_at a b dataset).1.2 = [] <->
     length dataset = 0 \/ length dataset = 1 \/ length dataset = 4) /\
  ((split_at a b dataset).2 = [] <-> length dataset <= 3) /\
  (5 <= length dataset ->
     (split_at a b dataset).1.1 <> [] /\
     (split_at a b dataset).1.2 <> [] /\
     (split_at a b dataset).2 <> []).
Proof.
  intros Ha Hb.
  destruct (nearest_ordered _ a b Ha Hb) as [Hab Hbn].
  destruct (split_at_covers dataset a b Hab Hbn)
    as (_ & H1 & H2 & H3 & _).
  destruct (nearest_small _ a b Ha Hb) as (Ea & Eb & En).
  assert (Hnil : forall l : list A, l = [] <-> length l = 0).
  { intros l. destruct l; simpl; split; (done || lia). }
  rewrite !Hnil, H1, H2, H3.
  split; [exact Ea|]. split; [exact Eb|]. split; [exact En|].
  intros H5. split; [|split].
  - destruct Ea as [Ea _]. intros H0. apply Ea in H0. lia.
  - destruct Eb as [Eb _]. intros H0. apply Eb in H0. lia.
  - destruct En as [En _]. intros H0. apply En in H0. lia.
Qed.

(** ** De-interleaving in the hands extractor *)

Section HandsDeinterleave.
Context {F : Type} (zero : F).

Lemma xy_aux_lookup j : forall k (l : list F),
  k mod 3 = 0 ->
  xy_aux k l !! (2 * j) = l !! (3 * j) /\
  xy_aux k l !! (2 * j + 1) = l !! (3 * j + 1).
Proof.
  induction j as [|j IH]; intros k l Hk.
  - destruct l as [|x [|y l]]; rewrite ?xy_aux_cons.
    + done.
    + destruct (Nat.eqb_spec ((k + 1) mod 3) 0); [lia|]. done.
    + destruct (Nat.eqb_spec ((k + 1) mod 3) 0); [lia|].
      destruct (Nat.eqb_spec ((S k + 1) mod 3) 0); [lia|]. done.
  - replace (2 * S j) with (S (S (2 * j))) by lia.
    replace (2 * S j + 1) with (S (S (2 * j + 1))) by lia.
    replace (3 * S j) with (S (S (S (3 * j)))) by lia.
    replace (3 * S j + 1) with (S (S (S (3 * j + 1)))) by lia.
    destruct l as [|x [|y [|z l]]]; rewrite ?xy_aux_cons.
    + done.
    + destruct (Nat.eqb_spec ((k + 1) mod 3) 0); [lia|]. done.
    + destruct (Nat.eqb_spec ((k + 1) mod 3) 0); [lia|].
      destruct (Nat.eqb_spec ((S k + 1) mod 3) 0); [lia|]. done.
    + destruct (Nat.eqb_spec ((k + 1) mod 3) 0); [lia|].
      destruct (Nat.eqb_spec ((S k + 1) mod 3) 0); [lia|].
      destruct (Nat.eqb_spec ((S (S k) + 1) mod 3) 0); [|lia].
      cbn [lookup list_lookup]. apply IH. lia.
Qed.

(** The comprehension with [(c+1)%3 != 0] and the slice [[2::3]] take a hand
    list of [n] joints apart like the face and body extractors do. *)
Lemma hand_deinterleaved n (l : list F) :
  length l = 3 * n ->
  deinterleaved 3 n l (xy_of l) (py_slice_step 2 3 l).
Proof.
  intros Hl. split; [|split].
  - by apply xy_aux_length.
  - apply py_slice_step_length; [lia|done].
  - intros j Hj. destruct (xy_aux_lookup j 0 l eq_refl) as [Hx Hy].
    split; [exact Hx|]. split; [exact Hy|].
    rewrite py_slice_step_lookup by lia. f_equal. lia.
Qed.
End HandsDeinterleave.

(** X15. A detected person with both hands, each a list of n joints (x, y, z):
    the hands extractor appends to the person's slot the planar vector
    [left x1,y1,...,xn,yn] followed by [right x1,y1,...,xn,yn] and the depth
    vector [left z1..zn] followed by [right z1..zn], whatever the function's
    locals held before. *)
Theorem hands_person_deinterleaves {F : Type} (zero : F) (st : @hstate F)
    (i n : nat) (p : @hand_person F) (l r : list F) :
  hand_is_valid p = true ->
  left_hand p = Some l -> right_hand p = Some r ->
  length l = 3 * n -> length r = 3 * n ->
  i < 2 ->
  exists st' pl pr dl dr,
    hands_person zero st i p = Ok (st', S i) /\
    hand_2D_seq st' = slots_push (hand_2D_seq st) i (Flat (pl ++ pr)) /\
    hand_3D_seq st' = slots_push (hand_3D_seq st) i (Flat (dl ++ dr)) /\
    deinterleaved 3 n l pl dl /\
    deinterleaved 3 n r pr dr.
Proof.
  intros Hv Hl Hr Hll Hlr Hi.
  assert (Hreg : regular p).
  { unfold regular. rewrite Hl, Hr. lia. }
  destruct (hands_person_regular zero st i p Hv Hreg Hi)
    as (st' & Hrun & H2 & H3).
  unfold hands_planar in H2. unfold hands_depth in H3.
  rewrite Hl, Hr in H2, H3.
  exists st', (xy_of l), (xy_of r), (py_slice_step 2 3 l),
         (py_slice_step 2 3 r).
  split; [exact Hrun|]. split; [exact H2|]. split; [exact H3|].
  split; by apply hand_deinterleaved.
Qed.

(** ** Lengths of the extracted sequences *)

(** X16. Whenever the face and the body extractor return, whatever the entries
    hold: per slot the planar and the depth sequence have the same length;
    slot 0 has one element per retained file (all files but the first for
    the face, all but the last for the body) and slot 1 one element per
    retained file with at least one detected person. *)
Theorem extractor_sequence_lengths {F : Type} (zero : F)
    (faces bodies : list (@frame F)) (f2 f3 b2 b3 : slots (list F)) :
  get_face zero faces = Ok (f2, f3) ->
  get_body zero bodies = Ok (b2, b3) ->
  (length f2.1 = length faces - 1 /\ length f3.1 = length faces - 1 /\
   length f2.2 = length (List.filter has_detection (drop_first faces)) /\
   length f3.2 = length f2.2 /\ length f2.2 <= length f2.1) /\
  (length b2.1 = length bodies - 1 /\ length b3.1 = length bodies - 1 /\
   length b2.2 = length (List.filter has_detection (drop_last bodies)) /\
   length b3.2 = length b2.2 /\ length b2.2 <= length b2.1).
Proof.
  intros Hf Hb.
  destruct (get_face_lengths zero faces f2 f3 Hf) as (F1 & F2 & F3 & F4).
  destruct (get_body_lengths zero bodies b2 b3 Hb) as (B1 & B2 & B3 & B4).
  destruct (trimmed_lengths faces) as (Tf & _ & _).
  destruct (trimmed_lengths bodies) as (_ & Tb & _).
  pose proof (List.filter_length_le has_detection (drop_first faces)) as Lf.
  pose proof (List.filter_length_le has_detection (drop_last bodies)) as Lb.
  split.
  - rewrite F1, F2, <- F3, F4, Tf. repeat split; lia.
  - rewrite B1, B2, <- B3, B4, Tb. repeat split; lia.
Qed.

(** ** Too few folders for the single-keypoint notebook *)

(** X17. [get_keypoints] of the single-keypoint notebook reads the folders
    [[3:-1]] only: with four folders or fewer it reads none, returns two
    empty lists without opening a file, and [padding_seq] then raises
    ValueError since [max] gets an empty list. *)
Theorem kp_corpus_of_few_folders {F : Type} (zero nan : F)
    (folders : list (@recording F)) (labels : bool) :
  length folders <= 4 ->
  get_keypoints_kp zero folders = Ok ([], []) /\
  padding_seq_kp zero nan [] (seq 0 0) labels =
    Raise (ValueError max_empty_msg).
Proof.
  intros Hlen. split; [|done].
  unfold get_keypoints_kp, drop_3_last.
  assert (Hnone : drop 3 (take (length folders - 1) folders) = []).
  { apply length_zero_iff_nil. rewrite length_drop, length_take. lia. }
  by rewrite Hnone.
Qed.

(** ** A third detected person *)

Section ThirdPerson.
Context {F : Type} (zero : F).

Lemma frames_loop_third stride w2 w3 (pre : list (@frame F)) f post :
  forall st,
  2 <= stride ->
  extractable stride pre ->
  Forall (well_formed stride) f ->
  3 <= length (List.filter is_valid f) ->
  frames_loop zero stride w2 w3 st (pre ++ f :: post) =
    Raise (IndexError tuple_index_msg).
Proof.
  induction pre as [|g pre IH]; intros st Hs Hex Hwf Hlen; simpl.
  - pose proof (keypoint_frame_by_valid zero stride w2 w3 st f Hs Hwf)
      as Hframe.
    destruct (List.filter is_valid f) as [|a [|b [|c rest]]];
      simpl in Hlen; try lia.
    by rewrite Hframe.
  - apply Forall_cons in Hex as [[Hg Hg2] Hex].
    rewrite (keypoint_frame_output zero stride w2 w3 st g Hs Hg Hg2). simpl.
    by apply IH.
Qed.

Lemma keypoints_loop_failing (pre : list (@recording F)) p post e :
  forall acc,
  Forall conforming pre ->
  get_face zero (hdFace3d p) = Raise e ->
  keypoints_loop zero acc (pre ++ p :: post) = Raise e.
Proof.
  induction pre as [|q pre IH]; intros acc Hpre Hface; simpl.
  - unfold keypoints_folder. by rewrite Hface.
  - apply Forall_cons in Hpre as [Hq Hpre].
    rewrite (keypoints_folder_output zero acc q Hq). simpl. by apply IH.
Qed.
End ThirdPerson.

(** X18. A face frame with three or more detected people, anywhere in any
    recording, makes [get_face] raise IndexError ('tuple index out of
    range') at that frame, and with it the whole corpus build: when the
    recordings and frames before it are processed without error,
    [get_keypoints] raises the same exception and returns nothing, whatever
    the later frames and recordings hold. *)
Theorem third_person_aborts_corpus {F : Type} (zero : F)
    (pre post : list (@recording F)) (p : @recording F)
    (fpre fpost : list (@frame F)) (f : @frame F) :
  Forall conforming pre ->
  drop_first (hdFace3d p) = fpre ++ f :: fpost ->
  extractable 3 fpre ->
  Forall (well_formed 3) f ->
  3 <= length (List.filter is_valid f) ->
  get_face zero (hdFace3d p) = Raise (IndexError tuple_index_msg) /\
  get_keypoints zero (pre ++ p :: post) = Raise (IndexError tuple_index_msg).
Proof.
  intros Hpre Hsplit Hex Hwf Hlen.
  assert (Hface : get_face zero (hdFace3d p) =
                  Raise (IndexError tuple_index_msg)).
  { unfold get_face. rewrite Hsplit.
    apply frames_loop_third; (lia || done). }
  split; [exact Hface|].
  unfold get_keypoints. by apply keypoints_loop_failing.
Qed.

(** ** Statistics of a padded corpus *)

Section StatsIndexing.
Context {F : Type} (ops : np_arith F).

Lemma np_index_lt rect (fr : list F) i :
  i < length fr -> exists x, fr !! i = Some x /\ np_index rect fr i = Ok x.
Proof.
  intros Hi. unfold np_index.
  destruct (lookup_lt_is_Some_2 fr i Hi) as [e ->]. by exists e.
Qed.

Lemma np_index_width rect (fr : list F) :
  np_index rect fr (length fr) =
    Raise (IndexError (if rect then bounds_msg (length fr) (length fr)
                       else list_index_msg)).
Proof. unfold np_index. by rewrite lookup_ge_None_2. Qed.

(** Inside the frame the loops do not depend on what the frame is a row
    of. *)
Lemma inner_loop_ok rect (fr : list F) i js : forall a,
  i < length fr -> Forall (fun j => j < length fr) js ->
  exists a',
    inner_loop ops rect fr i js a = Ok a' /\
    inner_loop ops true fr i js a = Ok a'.
Proof.
  induction js as [|j js IH]; intros a Hi Hjs; simpl; [by exists a|].
  apply Forall_cons in Hjs as [Hj Hjs]. unfold pair_step.
  destruct (np_index_lt rect fr i Hi) as (x & Hx & ->).
  destruct (np_index_lt rect fr j Hj) as (y & Hy & ->).
  destruct (np_index_lt true fr i Hi) as (x' & Hx' & ->).
  destruct (np_index_lt true fr j Hj) as (y' & Hy' & ->).
  rewrite Hx in Hx'. rewrite Hy in Hy'.
  injection Hx' as <-. injection Hy' as <-. simpl. by apply IH.
Qed.

Lemma outer_loop_ok rect (fr : list F) hi ks : forall a,
  hi <= length fr -> Forall (fun i => i < length fr) ks ->
  exists a',
    outer_loop ops rect fr ks hi a = Ok a' /\
    outer_loop ops true fr ks hi a = Ok a'.
Proof.
  induction ks as [|i ks IH]; intros a Hhi Hks; simpl; [by exists a|].
  apply Forall_cons in Hks as [Hi Hks].
  destruct (inner_loop_ok rect fr i (seq (i + 1) (hi - (i + 1))) a Hi)
    as (a1 & -> & ->).
  { apply Forall_forall. intros j Hj. apply elem_of_seq in Hj. lia. }
  simpl. by apply IH.
Qed.

Lemma group_step_ok rect (fr : list F) lo hi (v : @vstate F) :
  hi <= length fr ->
  exists v',
    group_step ops rect fr lo hi v = Ok v' /\
    group_step ops true fr lo hi v = Ok v'.
Proof.
  intros Hhi. unfold group_step, group_pairs.
  destruct (outer_loop_ok rect fr hi (seq lo (hi - lo))
              (Running (finf ops) (fzero ops) []) Hhi) as (a & -> & ->).
  { apply Forall_forall. intros i Hi. apply elem_of_seq in Hi. lia. }
  simpl. by eexists.
Qed.

Lemma frame_step_ok rect (fr : list F) v :
  112 <= length fr ->
  exists v',
    frame_step ops rect fr v = Ok v' /\ frame_step ops true fr v = Ok v'.
Proof.
  intros Hw. unfold frame_step.
  destruct (group_step_ok rect fr 0 70 v.1.1) as (v0 & -> & ->); [lia|].
  destruct (group_step_ok rect fr 70 112 v.1.2) as (v1 & -> & ->); [lia|].
  destruct (group_step_ok rect fr 112 (length fr) v.2) as (v2 & -> & ->);
    [lia|].
  simpl. by eexists.
Qed.

Lemma vid_loop_ok rect (vid : list (list F)) : forall v,
  Forall (fun fr => 112 <= length fr) vid ->
  exists v',
    vid_loop ops rect vid v = Ok v' /\ vid_loop ops true vid v = Ok v'.
Proof.
  induction vid as [|fr vid IH]; intros v Hvid; simpl; [by exists v|].
  apply Forall_cons in Hvid as [Hfr Hvid].
  destruct (frame_step_ok rect fr v Hfr) as (v1 & -> & ->). simpl.
  by apply IH.
Qed.

Lemma vid_stats_ok rect (vid : list (list F)) :
  Forall (fun fr => 112 <= length fr) vid ->
  exists s,
    vid_stats ops rect vid = Ok s /\
    length s.1.1 = 3 /\ length s.1.2 = 3 /\ length s.2 = 3.
Proof.
  intros Hvid. unfold vid_stats.
  destruct (vid_loop_ok rect vid (init_vstate ops, init_vstate ops,
                                  init_vstate ops) Hvid) as (v & -> & _).
  simpl. eexists. split; [reflexivity|]. done.
Qed.

Lemma stats_loop_ok rect (t : list (list (list F))) : forall acc,
  Forall (Forall (fun fr => 112 <= length fr)) t ->
  exists out,
    stats_loop ops rect t acc = Ok out /\
    (exists d, out.1.1 = acc.1.1 ++ d /\ length d = length t /\
               Forall (fun x => length x = 3) d) /\
    (exists d, out.1.2 = acc.1.2 ++ d /\ length d = length t /\
               Forall (fun x => length x = 3) d) /\
    (exists d, out.2 = acc.2 ++ d /\ length d = length t /\
               Forall (fun x => length x = 3) d).
Proof.
  induction t as [|vid t IH]; intros acc Ht; simpl.
  - exists acc. split; [done|].
    repeat split; exists []; by rewrite app_nil_r.
  - apply Forall_cons in Ht as [Hvid Ht].
    destruct (vid_stats_ok rect vid Hvid) as (s & -> & H1 & H2 & H3). simpl.
    destruct (IH (acc.1.1 ++ [s.1.1], acc.1.2 ++ [s.1.2], acc.2 ++ [s.2]) Ht)
      as (out & -> & (d1 & E1 & L1 & W1) & (d2 & E2 & L2 & W2) &
          (d3 & E3 & L3 & W3)).
    simpl in *. exists out. split; [done|]. split; [|split].
    + exists (s.1.1 :: d1). rewrite E1, <- app_assoc. simpl.
      split; [done|]. split; [by rewrite L1|by constructor].
    + exists (s.1.2 :: d2). rewrite E2, <- app_assoc. simpl.
      split; [done|]. split; [by rewrite L2|by constructor].
    + exists (s.2 :: d3). rewrite E3, <- app_assoc. simpl.
      split; [done|]. split; [by rewrite L3|by constructor].
Qed.

(** The loop over [j] reaches the first index past the end of the frame. *)
Lemma inner_loop_raises rect (fr : list F) i n : forall s a,
  i < length fr -> s <= length fr < s + n ->
  inner_loop ops rect fr i (seq s n) a =
    Raise (IndexError (if rect then bounds_msg (length fr) (length fr)
                       else list_index_msg)).
Proof.
  induction n as [|n IH]; intros s a Hi Hs; [lia|]. simpl. unfold pair_step.
  destruct (np_index_lt rect fr i Hi) as (x & _ & ->). simpl.
  destruct (decide (s = length fr)) as [->|Hne].
  - by rewrite np_index_width.
  - destruct (np_index_lt rect fr s) as (y & _ & ->); [lia|]. simpl.
    apply IH; lia.
Qed.

Lemma group_pairs_raises rect (fr : list F) lo hi :
  lo <= length fr < hi -> lo + 1 < hi ->
  group_pairs ops rect fr lo hi =
    Raise (IndexError (if rect then bounds_msg (length fr) (length fr)
                       else list_index_msg)).
Proof.
  intros Hw Hlo. unfold group_pairs.
  destruct (hi - lo) as [|k] eqn:Hk; [lia|]. simpl.
  destruct (decide (lo = length fr)) as [->|Hne].
  - destruct (hi - (length fr + 1)) as [|k'] eqn:Hk'; [lia|]. simpl.
    unfold pair_step. by rewrite np_index_width.
  - rewrite inner_loop_raises by lia. done.
Qed.

Lemma frame_step_raises rect (fr : list F) v :
  length fr < 112 ->
  frame_step ops rect fr v =
    Raise (IndexError (if rect then bounds_msg (length fr) (length fr)
                       else list_index_msg)).
Proof.
  intros Hw. unfold frame_step.
  destruct (decide (length fr < 70)) as [Hlt|Hge].
  - unfold group_step at 1. by rewrite group_pairs_raises by lia.
  - destruct (group_step_ok rect fr 0 70 v.1.1) as (v0 & -> & _); [lia|].
    simpl. unfold group_step. by rewrite group_pairs_raises by lia.
Qed.

Lemma vid_loop_app rect (vid pad : list (list F)) : forall v,
  vid_loop ops rect (vid ++ pad) v =
    (v' <- vid_loop ops rect vid v ;; vid_loop ops rect pad v').
Proof.
  induction vid as [|fr vid IH]; intros v; simpl; [done|].
  destruct (frame_step ops rect fr v); simpl; [apply IH|done].
Qed.

Lemma stats_loop_raises rect (pre post : list (list (list F))) vid e :
  forall acc,
  Forall (Forall (fun fr => 112 <= length fr)) pre ->
  vid_stats ops rect vid = Raise e ->
  stats_loop ops rect (pre ++ vid :: post) acc = Raise e.
Proof.
  induction pre as [|w pre IH]; intros acc Hpre Hvid; simpl.
  - by rewrite Hvid.
  - apply Forall_cons in Hpre as [Hw Hpre].
    destruct (vid_stats_ok rect w Hw) as (s & -> & _). simpl. by apply IH.
Qed.
End StatsIndexing.

Section StatsFacts.
Context {F : Type} (ops : np_arith F).
Hypothesis Hcmp : compares_like_doubles ops.

Lemma np_index_pad rect (fr : list F) i :
  Forall (fun e => e = fnan ops) fr -> i < length fr ->
  np_index rect fr i = Ok (fnan ops).
Proof.
  intros Hall Hi. unfold np_index.
  destruct (lookup_lt_is_Some_2 fr i Hi) as [e He]. rewrite He.
  rewrite Forall_lookup in Hall. by rewrite (Hall i e He).
Qed.

Lemma inner_loop_pad rect (fr : list F) i js : forall d,
  Forall (fun e => e = fnan ops) fr -> i < length fr ->
  Forall (fun j => j < length fr) js ->
  inner_loop ops rect fr i js (Running (finf ops) (fzero ops) d) =
    Ok (Running (finf ops) (fzero ops)
          (d ++ replicate (length js)
                  (fabs ops (fsub ops (fnan ops) (fnan ops))))).
Proof.
  destruct Hcmp as (_ & _ & _ & _ & Hlo & Hhi & _).
  induction js as [|j js IH]; intros d Hall Hi Hjs; simpl.
  - by rewrite app_nil_r.
  - apply Forall_cons in Hjs as [Hj Hjs]. unfold pair_step.
    rewrite !np_index_pad by done. simpl. rewrite Hlo, Hhi.
    rewrite IH by done. by rewrite <- app_assoc.
Qed.

Lemma outer_loop_pad rect (fr : list F) hi ks : forall d,
  Forall (fun e => e = fnan ops) fr -> hi <= length fr ->
  Forall (fun i => i < length fr) ks ->
  Forall (fun m => fis_nan ops m = true) d ->
  exists d',
    outer_loop ops rect fr ks hi (Running (finf ops) (fzero ops) d) =
      Ok (Running (finf ops) (fzero ops) d') /\
    Forall (fun m => fis_nan ops m = true) d'.
Proof.
  destruct Hcmp as (_ & _ & _ & Hnan & _).
  induction ks as [|i ks IH]; intros d Hall Hhi Hks Hd; simpl.
  - by exists d.
  - apply Forall_cons in Hks as [Hi Hks].
    rewrite inner_loop_pad; [|done|done|].
    + simpl. apply IH; try done.
      apply Forall_app. split; [done|]. by apply Forall_replicate.
    + apply Forall_forall. intros j Hj. apply elem_of_seq in Hj. lia.
Qed.

(** A padding frame changes neither bound of a group and adds [0./0] to
    the means of its frames. *)
Lemma group_step_pad rect (fr : list F) lo hi (v : @vstate F) :
  Forall (fun e => e = fnan ops) fr -> hi <= length fr ->
  flt ops (v_max v) (fzero ops) = false ->
  group_step ops rect fr lo hi v =
    Ok (VState (v_min v) (v_max v)
          (v_means v ++ [fdiv ops (fzero ops) (fcount ops 0)])).
Proof.
  intros Hall Hhi Hv. unfold group_step, group_pairs.
  destruct (outer_loop_pad rect fr hi (seq lo (hi - lo)) [] Hall Hhi)
    as (d & -> & Hd).
  { apply Forall_forall. intros i Hi. apply elem_of_seq in Hi. lia. }
  { constructor. }
  destruct Hcmp as (Hinf & _ & _ & _ & _ & _ & H0 & _).
  simpl. rewrite Hinf, Hv.
  rewrite (nanmean_all_missing ops d H0); [done|].
  intros m Hm. rewrite Forall_forall in Hd. apply Hd.
  by apply list_elem_of_In.
Qed.

(** The running maximum is never below [0.]. *)
Lemma inner_loop_nonneg rect (fr : list F) i js : forall a a',
  inner_loop ops rect fr i js a = Ok a' ->
  flt ops (r_max a) (fzero ops) = false ->
  flt ops (r_max a') (fzero ops) = false.
Proof.
  destruct Hcmp as (_ & _ & Habs & _).
  induction js as [|j js IH]; intros a a' Hrun Ha; simpl in Hrun.
  - by injection Hrun as <-.
  - unfold pair_step in Hrun.
    destruct (np_index rect fr i) as [x|]; simpl in Hrun; [|done].
    destruct (np_index rect fr j) as [y|]; simpl in Hrun; [|done].
    apply (IH _ _ Hrun). simpl.
    by destruct (flt ops (r_max a) (fabs ops (fsub ops x y))).
Qed.

Lemma outer_loop_nonneg rect (fr : list F) hi ks : forall a a',
  outer_loop ops rect fr ks hi a = Ok a' ->
  flt ops (r_max a) (fzero ops) = false ->
  flt ops (r_max a') (fzero ops) = false.
Proof.
  induction ks as [|i ks IH]; intros a a' Hrun Ha; simpl in Hrun.
  - by injection Hrun as <-.
  - destruct (inner_loop ops rect fr i _ a) as [a1|] eqn:Hin;
      simpl in Hrun; [|done].
    apply (IH _ _ Hrun). by eapply inner_loop_nonneg.
Qed.

Lemma group_step_nonneg rect (fr : list F) lo hi (v v' : @vstate F) :
  group_step ops rect fr lo hi v = Ok v' ->
  flt ops (v_max v) (fzero ops) = false ->
  flt ops (v_max v') (fzero ops) = false.
Proof.
  unfold group_step, group_pairs. intros Hrun Hv.
  destruct (outer_loop ops rect fr _ hi _) as [a|] eqn:Hout;
    simpl in Hrun; [|done].
  injection Hrun as <-. simpl.
  destruct (flt ops (v_max v) (r_max a)); [|done].
  apply (outer_loop_nonneg _ _ _ _ _ _ Hout). simpl.
  by destruct Hcmp as (_ & Hzero & _).
Qed.

Lemma vid_loop_nonneg rect (vid : list (list F)) : forall v v',
  vid_loop ops rect vid v = Ok v' ->
  nonneg3 ops v -> nonneg3 ops v'.
Proof.
  induction vid as [|fr vid IH]; intros v v' Hrun Hv; simpl in Hrun.
  - by injection Hrun as <-.
  - unfold frame_step in Hrun. destruct Hv as (H0 & H1 & H2).
    destruct (group_step ops rect fr 0 70 v.1.1) as [v0|] eqn:E0;
      simpl in Hrun; [|done].
    destruct (group_step ops rect fr 70 112 v.1.2) as [v1|] eqn:E1;
      simpl in Hrun; [|done].
    destruct (group_step ops rect fr 112 (length fr) v.2) as [v2|] eqn:E2;
      simpl in Hrun; [|done].
    apply (IH _ _ Hrun). repeat split; simpl;
      by eapply group_step_nonneg.
Qed.

(** Padding frames change neither the least nor the greatest distance; each
    adds [0./0] to the means of the frames. *)
Lemma vid_loop_pad rect (pad : list (list F)) : forall v,
  Forall (padding_frame ops) pad -> nonneg3 ops v ->
  vid_loop ops rect pad v =
    Ok (VState (v_min v.1.1) (v_max v.1.1)
          (v_means v.1.1 ++
           replicate (length pad) (fdiv ops (fzero ops) (fcount ops 0))),
        VState (v_min v.1.2) (v_max v.1.2)
          (v_means v.1.2 ++
           replicate (length pad) (fdiv ops (fzero ops) (fcount ops 0))),
        VState (v_min v.2) (v_max v.2)
          (v_means v.2 ++
           replicate (length pad) (fdiv ops (fzero ops) (fcount ops 0)))).
Proof.
  induction pad as [|fr pad IH]; intros [[v0 v1] v2] Hpad (H0 & H1 & H2).
  - simpl. rewrite !app_nil_r. by destruct v0, v1, v2.
  - apply Forall_cons in Hpad as [[Hlen Hall] Hpad]. simpl in *.
    unfold frame_step. simpl.
    rewrite !group_step_pad by (done || lia). simpl.
    rewrite IH by done. simpl. by rewrite <- !app_assoc.
Qed.

(** The mean over the frames: the means of the padding frames are not
    counted and are summed as zeros. *)
Lemma nanmean_of_padded (means : list F) n :
  nanmean ops (means ++ replicate n (fdiv ops (fzero ops) (fcount ops 0))) =
  nanmean_padded ops n means.
Proof.
  destruct Hcmp as (_ & _ & _ & _ & _ & _ & _ & Hq).
  unfold nanmean, nanmean_padded.
  assert (Hall : forall v,
            In v (replicate n (fdiv ops (fzero ops) (fcount ops 0))) ->
            fis_nan ops v = true).
  { intros v Hv. apply list_elem_of_In, elem_of_replicate in Hv as [-> _].
    exact Hq. }
  rewrite replace_nan_app, count_kept_app.
  rewrite (replace_nan_all_missing ops _ Hall).
  rewrite (count_kept_all_missing ops _ Hall).
  by rewrite length_replicate, Nat.add_0_r.
Qed.

(** With exact sums the zeros change nothing. *)
Lemma nanmean_padded_exact (means : list F) n :
  exact_sums ops -> nanmean_padded ops n means = nanmean ops means.
Proof.
  intros Hex. unfold nanmean_padded, nanmean.
  pose proof (np_sum_without_zeros ops Hex (replace_nan ops means) [] n)
    as Hsum.
  rewrite !app_nil_r in Hsum. by rewrite Hsum.
Qed.

Lemma vid_stats_padded rect rect' (vid pad : list (list F)) :
  Forall (fun fr => 112 <= length fr) vid ->
  Forall (padding_frame ops) pad ->
  exists v s s',
    vid_loop ops rect vid (init_vstate ops, init_vstate ops, init_vstate ops)
      = Ok v /\
    vid_stats ops rect vid = Ok s /\
    vid_stats ops rect' (vid ++ pad) = Ok s' /\
    s'.1.1 = s.1.1 /\ s'.1.2 = s.1.2 /\
    s.2 = mean_row (nanmean ops) v /\
    s'.2 = mean_row (nanmean_padded ops (length pad)) v.
Proof.
  intros Hvid Hpad. unfold vid_stats. rewrite vid_loop_app.
  destruct (vid_loop_ok ops rect vid
              (init_vstate ops, init_vstate ops, init_vstate ops) Hvid)
    as (v & Hrun & Htrue).
  destruct (vid_loop_ok ops rect' vid
              (init_vstate ops, init_vstate ops, init_vstate ops) Hvid)
    as (v' & Hrun' & Htrue').
  rewrite Htrue in Htrue'. injection Htrue' as <-.
  rewrite Hrun, Hrun'. simpl. rewrite vid_loop_pad; [|done|].
  - simpl. eexists v, _, _. split; [reflexivity|].
    split; [reflexivity|]. split; [reflexivity|].
    simpl. split; [done|]. split; [done|]. split; [done|].
    unfold mean_row. by rewrite !nanmean_of_padded.
  - apply (vid_loop_nonneg _ _ _ _ Hrun).
    destruct Hcmp as (_ & Hzero & _). by repeat split.
Qed.

Lemma stats_loop_padded rect rect' (t t' : list (list (list F))) :
  Forall2 (padded_video ops) t t' ->
  Forall (Forall (fun fr => 112 <= length fr)) t ->
  forall acc acc',
    acc'.1.1 = acc.1.1 -> acc'.1.2 = acc.1.2 ->
    exists out out' d d',
      stats_loop ops rect t acc = Ok out /\
      stats_loop ops rect' t' acc' = Ok out' /\
      out'.1.1 = out.1.1 /\ out'.1.2 = out.1.2 /\
      out.2 = acc.2 ++ d /\ out'.2 = acc'.2 ++ d' /\
      length d = length t /\ length d' = length t /\
      forall i vid vid',
        t !! i = Some vid -> t' !! i = Some vid' ->
        exists v,
          vid_loop ops rect vid
            (init_vstate ops, init_vstate ops, init_vstate ops) = Ok v /\
          d !! i = Some (mean_row (nanmean ops) v) /\
          d' !! i =
            Some (mean_row
                    (nanmean_padded ops (length vid' - length vid)) v).
Proof.
  induction 1 as [|vid vid' t t' Hvid _ IH]; intros Hwide acc acc' E1 E2.
  - simpl. exists acc, acc', [], []. rewrite !app_nil_r.
    repeat (split; [done|]). intros i vid vid' Hi. done.
  - apply Forall_cons in Hwide as [Hw Hwide].
    destruct Hvid as (pad & -> & Hpad).
    destruct (vid_stats_padded rect rect' vid pad Hw Hpad)
      as (v & s & s' & Hv & Hs & Hs' & M1 & M2 & M3 & M4).
    simpl. rewrite Hs, Hs'. simpl.
    destruct (IH Hwide (acc.1.1 ++ [s.1.1], acc.1.2 ++ [s.1.2], acc.2 ++ [s.2])
                (acc'.1.1 ++ [s'.1.1], acc'.1.2 ++ [s'.1.2], acc'.2 ++ [s'.2]))
      as (out & out' & d & d' & R & R' & O1 & O2 & D & D' & L & L' & Hrows).
    { simpl. by rewrite E1, M1. }
    { simpl. by rewrite E2, M2. }
    simpl in *. exists out, out', (s.2 :: d), (s'.2 :: d').
    split; [done|]. split; [done|]. split; [done|]. split; [done|].
    split; [by rewrite D, <- app_assoc|].
    split; [by rewrite D', <- app_assoc|].
    split; [simpl; lia|]. split; [simpl; lia|].
    intros [|i] v0 v0' Hi Hi'; simpl in *.
    + injection Hi as <-. injection Hi' as <-.
      exists v. split; [done|]. rewrite M3, M4.
      replace (length (vid ++ pad) - length vid) with (length pad)
        by (rewrite length_app; lia).
      done.
    + by eapply Hrows.
Qed.

(** With exact sums the rows of means are the same. *)
Lemma padded_rows_exact rect (t t' : list (list (list F)))
    (d d' : list (list F)) :
  exact_sums ops ->
  Forall2 (padded_video ops) t t' ->
  length d = length t -> length d' = length t ->
  (forall i vid vid',
     t !! i = Some vid -> t' !! i = Some vid' ->
     exists v,
       vid_loop ops rect vid
         (init_vstate ops, init_vstate ops, init_vstate ops) = Ok v /\
       d !! i = Some (mean_row (nanmean ops) v) /\
       d' !! i =
         Some (mean_row (nanmean_padded ops (length vid' - length vid)) v)) ->
  d' = d.
Proof.
  intros Hex Hpad Hd Hd' Hrows. apply list_eq. intros i.
  destruct (t !! i) as [vid|] eqn:Hi.
  - destruct (Forall2_lookup_l _ _ _ _ _ Hpad Hi) as (vid' & Hi' & _).
    destruct (Hrows i vid vid' Hi Hi') as (v & _ & -> & ->).
    unfold mean_row. by rewrite !nanmean_padded_exact.
  - apply lookup_ge_None_1 in Hi.
    by rewrite !lookup_ge_None_2 by lia.
Qed.
End StatsFacts.

(** X19. Padding is invisible to the least and the greatest distances of
    [stats], and in the means it is skipped: when every video of a tensor of
    frames with at least 112 entries is followed by frames of missing-value
    markers, as [padding_seq] appends them, [stats] returns the same [d_min]
    and [d_max]; every entry of [d_mean] is the mean of the same frame
    means, counted alike, the padding frames adding only zeros at the end of
    the array that NumPy sums.  That can change the rounding of the sum; in
    exact arithmetic [d_mean] is the same as well. *)
Theorem stats_ignores_padding {F : Type} (ops : np_arith F)
    (t t' : list (list (list F))) :
  compares_like_doubles ops ->
  Forall (Forall (fun fr => 112 <= length fr)) t ->
  Forall2 (padded_video ops) t t' ->
  exists d_min d_max d_mean d_mean',
    stats ops t = Ok (d_min, d_max, d_mean) /\
    stats ops t' = Ok (d_min, d_max, d_mean') /\
    length d_mean = length t /\ length d_mean' = length t /\
    (forall i vid vid',
       t !! i = Some vid -> t' !! i = Some vid' ->
       exists v,
         vid_loop ops (rectangular t) vid
           (init_vstate ops, init_vstate ops, init_vstate ops) = Ok v /\
         d_mean !! i =
           Some [nanmean ops (v_means v.1.1); nanmean ops (v_means v.1.2);
                 nanmean ops (v_means v.2)] /\
         d_mean' !! i =
           Some [nanmean_padded ops (length vid' - length vid)
                   (v_means v.1.1);
                 nanmean_padded ops (length vid' - length vid)
                   (v_means v.1.2);
                 nanmean_padded ops (length vid' - length vid)
                   (v_means v.2)]) /\
    (exact_sums ops -> d_mean' = d_mean).
Proof.
  intros Hcmp Hwide Hpad. unfold stats.
  destruct (stats_loop_padded ops Hcmp (rectangular t) (rectangular t') t t'
              Hpad Hwide ([], [], []) ([], [], []) eq_refl eq_refl)
    as ([[o1 o2] o3] & [[o1' o2'] o3'] & d & d' & R & R' & O1 & O2 & D & D' &
        L & L' & Hrows).
  simpl in *. subst o1' o2' o3 o3'.
  exists o1, o2, d, d'.
  split; [done|]. split; [done|]. split; [done|]. split; [done|].
  split; [exact Hrows|].
  intros Hex.
  exact (padded_rows_exact ops (rectangular t) t t' d d' Hex Hpad L L' Hrows).
Qed.

(** X20. [stats] indexes the entries 0 to 111 of every frame.  On a tensor
    whose frames all have at least 112 entries it returns three lists with
    one triple per video.  The first frame with fewer entries, say w, makes
    it raise IndexError, whatever follows: 'index w is out of bounds for
    axis 0 with size w' when the tensor is rectangular, so that the frame is
    a row of an array, and 'list index out of range' when it is not and the
    frame is a list. *)
Theorem stats_needs_112_entries {F : Type} (ops : np_arith F)
    (pre post : list (list (list F))) (fpre fpost : list (list F))
    (fr : list F) :
  Forall (Forall (fun fr => 112 <= length fr)) pre ->
  Forall (fun fr => 112 <= length fr) fpre ->
  (exists d_min d_max d_mean,
     stats ops pre = Ok (d_min, d_max, d_mean) /\
     length d_min = length pre /\ length d_max = length pre /\
     length d_mean = length pre /\
     Forall (fun x => length x = 3) d_min /\
     Forall (fun x => length x = 3) d_max /\
     Forall (fun x => length x = 3) d_mean) /\
  (length fr < 112 ->
   stats ops (pre ++ (fpre ++ fr :: fpost) :: post) =
     Raise (IndexError
              (if rectangular (pre ++ (fpre ++ fr :: fpost) :: post)
               then bounds_msg (length fr) (length fr)
               else list_index_msg))).
Proof.
  intros Hpre Hfpre. split.
  - unfold stats.
    destruct (stats_loop_ok ops (rectangular pre) pre ([], [], []) Hpre)
      as ([[o1 o2] o3] & Hrun & (d1 & E1 & L1 & W1) & (d2 & E2 & L2 & W2) &
          (d3 & E3 & L3 & W3)).
    simpl in *. subst o1 o2 o3. exists d1, d2, d3. by repeat split.
  - intros Hw. unfold stats. apply stats_loop_raises; [done|].
    unfold vid_stats. rewrite vid_loop_app.
    destruct (vid_loop_ok ops
                (rectangular (pre ++ (fpre ++ fr :: fpost) :: post)) fpre
                (init_vstate ops, init_vstate ops, init_vstate ops) Hfpre)
      as (v & -> & _).
    simpl. by rewrite frame_step_raises.
Qed.

(** * The further properties on example recordings *)

Lemma gap_recording_in_schema : in_schema gap_recording.
Proof.
  unfold in_schema. simpl.
  repeat split; repeat constructor; simpl; lia.
Qed.

Lemma gap_recording_conforming : conforming gap_recording.
Proof. apply (in_schema_conforming 0%float). exact gap_recording_in_schema. Qed.

Lemma face_with_gap_extractable : extractable 3 (drop_first face_with_gap).
Proof. by destruct gap_recording_conforming as (H & _ & _). Qed.

Lemma hands_with_gap_extractable :
  hands_extractable (drop_first_last hands_with_gap).
Proof. by destruct gap_recording_conforming as (_ & H & _). Qed.

Lemma body_with_gap_extractable : extractable 4 (drop_last body_with_gap).
Proof. by destruct gap_recording_conforming as (_ & _ & H). Qed.

Lemma body_with_gap_kp_extractable :
  kp_extractable 5 (drop_last body_with_gap).
Proof. repeat constructor; simpl; lia. Qed.

Lemma extractors_return_sequences_witness :
  extractable 3 (drop_first face_with_gap) /\
  extractable 4 (drop_last body_with_gap) /\
  get_face 0%float face_with_gap =
    Ok (sequences_of 0%float 3 140 70 (drop_first face_with_gap)) /\
  get_body 0%float body_with_gap =
    Ok (sequences_of 0%float 4 52 26 (drop_last body_with_gap)).
Proof.
  split; [exact face_with_gap_extractable|].
  split; [exact body_with_gap_extractable|].
  exact (extractors_return_sequences 0%float face_with_gap body_with_gap
           face_with_gap_extractable body_with_gap_extractable).
Defined.

Lemma get_hands_returns_sequences_witness :
  hands_extractable (drop_first_last hands_with_gap) /\
  get_hands 0%float hands_with_gap =
    Ok (hands_sequences_of 0%float (drop_first_last hands_with_gap)).
Proof.
  split; [exact hands_with_gap_extractable|].
  exact (get_hands_returns_sequences 0%float hands_with_gap
           hands_with_gap_extractable).
Defined.

Lemma get_keypoints_corpus_witness :
  Forall conforming [gap_recording] /\
  exists dataset groundtruth,
    get_keypoints 0%float [gap_recording] = Ok (dataset, groundtruth) /\
    length dataset = 2 /\ length groundtruth = 2.
Proof.
  assert (H : Forall conforming [gap_recording]).
  { constructor; [exact gap_recording_conforming|constructor]. }
  split; [exact H|].
  destruct (get_keypoints_corpus 0%float [gap_recording] H)
    as (ds & gt & Hrun & _ & _ & Hds & Hgt & _).
  exists ds, gt. split; [exact Hrun|]. split; [exact Hds|exact Hgt].
Defined.

Lemma slot_0_joins_files_by_position_witness :
  conforming gap_recording /\
  exists in0 in1 lb0 lb1,
    get_keypoints 0%float [gap_recording] = Ok ([in0; in1], [lb0; lb1]) /\
    length in0 = 3 /\ length lb0 = 3.
Proof.
  split; [exact gap_recording_conforming|].
  destruct (slot_0_joins_files_by_position 0%float gap_recording
              gap_recording_conforming)
    as (in0 & in1 & lb0 & lb1 & Hrun & Hlen & Hlb & _).
  exists in0, in1, lb0, lb1. split; [exact Hrun|].
  split; [exact Hlen|]. rewrite Hlb. exact Hlen.
Defined.

Lemma corpus_vectors_have_fixed_width_witness :
  Forall in_schema [gap_recording] /\
  exists dataset groundtruth,
    get_keypoints 0%float [gap_recording] = Ok (dataset, groundtruth) /\
    Forall (Forall (flat_width 276)) dataset /\
    Forall (Forall (flat_width 138)) groundtruth.
Proof.
  assert (H : Forall in_schema [gap_recording]).
  { constructor; [exact gap_recording_in_schema|constructor]. }
  split; [exact H|].
  exact (corpus_vectors_have_fixed_width 0%float [gap_recording] H).
Defined.

Lemma get_body_kp_returns_sequences_witness :
  kp_extractable 5 (drop_last body_with_gap) /\
  get_body_kp 0%float body_with_gap 5 =
    Ok (kp_sequences_of 0%float 5 (drop_last body_with_gap)).
Proof.
  split; [exact body_with_gap_kp_extractable|].
  exact (proj1 (get_body_kp_returns_sequences 0%float body_with_gap 5
                  body_with_gap_kp_extractable)).
Defined.

Lemma get_body_kp_short_list_raises_witness :
  drop_last short_body = [] ++ [Person 0%Z (ramp 10)] :: [] /\
  kp_extractable 5 ([] : list (@frame float)) /\
  List.filter is_valid [Person 0%Z (ramp 10)] = Person 0%Z (ramp 10) :: [] /\
  length (landmarks (Person 0%Z (ramp 10))) <= 5 * 4 + 2 /\
  get_body_kp 0%float short_body 5 = Raise (IndexError list_index_msg).
Proof.
  assert (H1 : drop_last short_body = [] ++ [Person 0%Z (ramp 10)] :: [])
    by reflexivity.
  assert (H2 : kp_extractable 5 ([] : list (@frame float))) by constructor.
  assert (H3 : List.filter is_valid [Person 0%Z (ramp 10)] =
               Person 0%Z (ramp 10) :: []) by reflexivity.
  assert (H4 : length (landmarks (Person 0%Z (ramp 10))) <= 5 * 4 + 2)
    by (simpl; lia).
  repeat (split; [assumption|]).
  exact (get_body_kp_short_list_raises 0%float short_body [] []
           [Person 0%Z (ramp 10)] (Person 0%Z (ramp 10)) [] 5 H1 H2 H3 H4).
Defined.

Lemma five_folders_kp_extractable :
  Forall (fun p : @recording float =>
            kp_extractable 5 (drop_last (hdPose3d_stage1_op25 p)))
    (drop_3_last five_folders).
Proof. constructor; [exact body_with_gap_kp_extractable|constructor]. Qed.

Lemma kp_pipeline_is_rectangular_witness :
  5 <= length five_folders /\
  Forall (fun p : @recording float =>
            kp_extractable 5 (drop_last (hdPose3d_stage1_op25 p)))
    (drop_3_last five_folders) /\
  exists dataset groundtruth inputs labels L,
    get_keypoints_kp 0%float five_folders = Ok (dataset, groundtruth) /\
    padding_seq_kp 0%float nan dataset (seq 0 (length dataset)) false =
      Ok (inputs, L) /\
    padding_seq_kp 0%float nan groundtruth (seq 0 (length groundtruth)) true =
      Ok (labels, L) /\
    length inputs = 1 /\ length labels = 1.
Proof.
  assert (H5 : 5 <= length five_folders) by (simpl; lia).
  split; [exact H5|]. split; [exact five_folders_kp_extractable|].
  destruct (kp_pipeline_is_rectangular 0%float nan five_folders H5
              five_folders_kp_extractable)
    as (ds & gt & hi & hl & L & Hrun & _ & _ & Hpi & Hpl & Hli & Hll & _).
  exists ds, gt, hi, hl, L. split; [exact Hrun|]. split; [exact Hpi|].
  split; [exact Hpl|]. split; [exact Hli|exact Hll].
Defined.

Lemma gap_recording_corpus :
  get_keypoints 0%float [gap_recording] =
    Ok (folder_inputs 0%float gap_recording,
        folder_labels 0%float gap_recording).
Proof.
  unfold get_keypoints.
  rewrite keypoints_loop_output
    by (constructor; [exact gap_recording_conforming|constructor]).
  simpl. by rewrite ?app_nil_r.
Qed.

Lemma gap_recording_inputs_nonempty :
  folder_inputs 0%float gap_recording <> [] /\
  Forall (fun s => s <> []) (folder_inputs 0%float gap_recording).
Proof.
  split; [discriminate|].
  unfold folder_inputs. simpl.
  constructor; [discriminate|]. constructor; [discriminate|constructor].
Qed.

Lemma corpus_padding_is_rectangular_witness :
  Forall in_schema [gap_recording] /\
  get_keypoints 0%float [gap_recording] =
    Ok (folder_inputs 0%float gap_recording,
        folder_labels 0%float gap_recording) /\
  folder_inputs 0%float gap_recording <> [] /\
  Forall (fun s => s <> []) (folder_inputs 0%float gap_recording) /\
  exists inputs labels L,
    padding_seq (Num nan) (folder_inputs 0%float gap_recording)
      (seq 0 (length (folder_inputs 0%float gap_recording))) =
      Ok (inputs, L) /\
    padding_seq (Num nan) (folder_labels 0%float gap_recording)
      (seq 0 (length (folder_labels 0%float gap_recording))) =
      Ok (labels, L) /\
    length inputs = 2 /\ length labels = 2.
Proof.
  assert (H : Forall in_schema [gap_recording]).
  { constructor; [exact gap_recording_in_schema|constructor]. }
  destruct gap_recording_inputs_nonempty as [Hne Hrows].
  split; [exact H|]. split; [exact gap_recording_corpus|].
  split; [exact Hne|]. split; [exact Hrows|].
  destruct (corpus_padding_is_rectangular 0%float nan [gap_recording]
              _ _ H gap_recording_corpus Hne Hrows)
    as (hi & hl & L & Hpi & Hpl & Hli & Hll & _).
  exists hi, hl, L. split; [exact Hpi|]. split; [exact Hpl|].
  split; [exact Hli|exact Hll].
Defined.

Lemma padding_seq_empty_sequence_raises_witness :
  (forall q, In q [0] ->
     q < length with_empty_sequence /\ obj with_empty_sequence q <> []) /\
  1 < length with_empty_sequence /\
  obj with_empty_sequence 1 = [] /\
  In 0 ([0] ++ 1 :: []) /\
  obj with_empty_sequence 0 <> [] /\
  padding_seq nan with_empty_sequence ([0] ++ 1 :: []) =
    Raise (IndexError list_index_msg).
Proof.
  assert (H1 : forall q, In q [0] ->
            q < length with_empty_sequence /\ obj with_empty_sequence q <> []).
  { intros q [<-|[]]. split; [simpl; lia|discriminate]. }
  assert (H2 : 1 < length with_empty_sequence) by (simpl; lia).
  assert (H3 : obj with_empty_sequence 1 = []) by reflexivity.
  assert (H4 : In 0 ([0] ++ 1 :: [])) by (by left).
  assert (H5 : obj with_empty_sequence 0 <> []) by discriminate.
  repeat (split; [assumption|]).
  exact (padding_seq_empty_sequence_raises nan with_empty_sequence [0] [] 1 0
           H1 H2 H3 H4 H5).
Defined.

Lemma padding_again_changes_nothing_witness :
  exists h' L hk' Lk,
    (forall r, In r [0; 1; 2; 0] ->
       r < length full_inputs /\ obj full_inputs r <> []) /\
    (forall r, In r [0; 1] -> r < length kp_labels) /\
    padding_seq nan full_inputs [0; 1; 2; 0] = Ok (h', L) /\
    padding_seq_kp 0%float nan kp_labels [0; 1] true = Ok (hk', Lk) /\
    padding_seq nan h' [0; 1; 2; 0] = Ok (h', L) /\
    padding_seq_kp 0%float nan hk' [0; 1] true = Ok (hk', Lk).
Proof.
  assert (H1 : forall r, In r [0; 1; 2; 0] ->
                 r < length full_inputs /\ obj full_inputs r <> []).
  { intros r [<-|[<-|[<-|[<-|[]]]]]; (split; [simpl; lia|discriminate]). }
  assert (H2 : forall r, In r [0; 1] -> r < length kp_labels).
  { intros r [<-|[<-|[]]]; simpl; lia. }
  eexists _, _, _, _.
  split; [exact H1|]. split; [exact H2|].
  assert (H3 : padding_seq nan full_inputs [0; 1; 2; 0] =
               Ok ([[[1; 2; 3]; [nan; nan; nan]; [nan; nan; nan]];
                    [[4; 5; 6]; [7; 8; 9]; [1; 1; 1]];
                    [[2; 2; 2]; [3; 3; 3]; [nan; nan; nan]]]%float, 3))
    by reflexivity.
  assert (H4 : padding_seq_kp 0%float nan kp_labels [0; 1] true =
               Ok ([[Scalar 7; Scalar nan]; [Scalar 8; Scalar 9]]%float, 2))
    by reflexivity.
  split; [exact H3|]. split; [exact H4|].
  exact (padding_again_changes_nothing 0%float nan full_inputs _ [0; 1; 2; 0]
           3 kp_labels _ [0; 1] true 2 H1 H2 H3 H4).
Defined.

Lemma undetected_recording_conforming : conforming undetected_recording.
Proof.
  unfold conforming. simpl. repeat split; repeat constructor; simpl;
    first [by exists 70 | by exists 26 | lia | done].
Qed.

Lemma undetected_recording_breaks_padding_witness :
  Forall conforming [undetected_recording] /\
  In undetected_recording [undetected_recording] /\
  Forall (fun f => has_detection f = false)
    (drop_first (hdFace3d undetected_recording)) /\
  2 <= length (hdFace3d undetected_recording) /\
  3 <= length (hdHand3d undetected_recording) /\
  2 <= length (hdPose3d_stage1_op25 undetected_recording) /\
  exists dataset groundtruth,
    get_keypoints 0%float [undetected_recording] = Ok (dataset, groundtruth) /\
    In [] dataset /\
    padding_seq (Num nan) dataset (seq 0 (length dataset)) =
      Raise (IndexError list_index_msg).
Proof.
  assert (H1 : Forall conforming [undetected_recording]).
  { constructor; [exact undetected_recording_conforming|constructor]. }
  assert (H2 : In undetected_recording [undetected_recording]) by (by left).
  assert (H3 : Forall (fun f => has_detection f = false)
                 (drop_first (hdFace3d undetected_recording))).
  { constructor; [reflexivity|constructor]. }
  assert (H4 : 2 <= length (hdFace3d undetected_recording)) by (simpl; lia).
  assert (H5 : 3 <= length (hdHand3d undetected_recording)) by (simpl; lia).
  assert (H6 : 2 <= length (hdPose3d_stage1_op25 undetected_recording))
    by (simpl; lia).
  repeat (split; [assumption|]).
  exact (undetected_recording_breaks_padding 0%float nan
           [undetected_recording] undetected_recording H1 H2 H3 H4 H5 H6).
Defined.

Lemma normalize_standardises_each_channel_witness :
  0 < 2 /\
  normalize double_arith (slots_before ++ slots_after) 2 =
    (map (map (standardised PrimFloat.sub PrimFloat.div
                 (map (fun k =>
                    (nanmean double_arith
                       (subchannel (slots_before ++ slots_after) k 2),
                     nanstd double_arith
                       (subchannel (slots_before ++ slots_after) k 2)))
                    (seq 0 2)) 2))
       (slots_before ++ slots_after),
     map (fun k =>
       (nanmean double_arith (subchannel (slots_before ++ slots_after) k 2),
        nanstd double_arith (subchannel (slots_before ++ slots_after) k 2)))
       (seq 0 2)).
Proof.
  assert (H : 0 < 2) by lia.
  split; [exact H|].
  exact (proj1 (normalize_standardises_each_channel double_arith
                  (slots_before ++ slots_after) 2 H)).
Defined.

Lemma split_parts_nonempty_witness :
  nearest_int (67 * Z.of_nat (length (seq 0 6))) 100 4 /\
  nearest_int (85 * Z.of_nat (length (seq 0 6))) 100 5 /\
  bound_67 6 = Ok 4 /\ bound_85 6 = Ok 5 /\
  (split_at 4 5 (seq 0 6)).1.1 <> [] /\
  (split_at 4 5 (seq 0 6)).1.2 <> [] /\
  (split_at 4 5 (seq 0 6)).2 <> [].
Proof.
  assert (H67 : nearest_int (67 * Z.of_nat (length (seq 0 6))) 100 4)
    by (unfold nearest_int; simpl; lia).
  assert (H85 : nearest_int (85 * Z.of_nat (length (seq 0 6))) 100 5)
    by (unfold nearest_int; simpl; lia).
  split; [exact H67|]. split; [exact H85|].
  split; [vm_compute; reflexivity|]. split; [vm_compute; reflexivity|].
  destruct (split_parts_nonempty (seq 0 6) 4 5 H67 H85) as (_ & _ & _ & Hall).
  apply Hall. simpl. lia.
Defined.

Lemma hands_person_deinterleaves_witness :
  hand_is_valid (both_hands 0) = true /\
  left_hand (both_hands 0) = Some (ramp 63) /\
  right_hand (both_hands 0) = Some (ramp_from 101 63) /\
  length (ramp 63) = 3 * 21 /\
  length (ramp_from 101 63) = 3 * 21 /\
  0 < 2 /\
  exists st' pl pr dl dr,
    hands_person 0%float init_hstate 0 (both_hands 0) = Ok (st', 1) /\
    hand_2D_seq st' = slots_push ([], []) 0 (Flat (pl ++ pr)) /\
    hand_3D_seq st' = slots_push ([], []) 0 (Flat (dl ++ dr)) /\
    deinterleaved 3 21 (ramp 63) pl dl /\
    deinterleaved 3 21 (ramp_from 101 63) pr dr.
Proof.
  assert (H1 : hand_is_valid (both_hands 0) = true) by reflexivity.
  assert (H2 : left_hand (both_hands 0) = Some (ramp 63)) by reflexivity.
  assert (H3 : right_hand (both_hands 0) = Some (ramp_from 101 63))
    by reflexivity.
  assert (H4 : length (ramp 63) = 3 * 21) by reflexivity.
  assert (H5 : length (ramp_from 101 63) = 3 * 21) by reflexivity.
  assert (H6 : 0 < 2) by lia.
  repeat (split; [assumption|]).
  exact (hands_person_deinterleaves 0%float init_hstate 0 21 (both_hands 0)
           (ramp 63) (ramp_from 101 63) H1 H2 H3 H4 H5 H6).
Defined.

Lemma extractor_sequence_lengths_witness :
  get_face 0%float face_with_gap =
    Ok (sequences_of 0%float 3 140 70 (drop_first face_with_gap)) /\
  get_body 0%float body_with_gap =
    Ok (sequences_of 0%float 4 52 26 (drop_last body_with_gap)) /\
  length (sequences_of 0%float 3 140 70 (drop_first face_with_gap)).1.1 = 3 /\
  length (sequences_of 0%float 3 140 70 (drop_first face_with_gap)).1.2 = 2 /\
  length (sequences_of 0%float 4 52 26 (drop_last body_with_gap)).2.1 = 3 /\
  length (sequences_of 0%float 4 52 26 (drop_last body_with_gap)).2.2 = 2.
Proof.
  destruct (extractors_return_sequences_aux 0%float face_with_gap
              body_with_gap face_with_gap_extractable
              body_with_gap_extractable) as [Hf Hb].
  split; [exact Hf|]. split; [exact Hb|].
  destruct (extractor_sequence_lengths 0%float face_with_gap body_with_gap
              _ _ _ _ Hf Hb)
    as ((F1 & _ & F3 & _) & (_ & B2 & B3 & B4 & _)).
  split; [exact F1|]. split; [exact F3|]. split; [exact B2|].
  exact (eq_trans B4 B3).
Defined.

Lemma kp_corpus_of_few_folders_witness :
  length [gap_recording] <= 4 /\
  get_keypoints_kp 0%float [gap_recording] = Ok ([], []) /\
  padding_seq_kp 0%float nan [] (seq 0 0) false =
    Raise (ValueError max_empty_msg).
Proof.
  assert (H : length [gap_recording] <= 4) by (simpl; lia).
  split; [exact H|].
  exact (kp_corpus_of_few_folders 0%float nan [gap_recording] false H).
Defined.

Lemma third_person_aborts_corpus_witness :
  Forall conforming [gap_recording] /\
  drop_first (hdFace3d crowded_recording) =
    [] ++ [face_entry 0; face_entry 1; face_entry 2] :: [] /\
  extractable 3 ([] : list (@frame float)) /\
  Forall (well_formed 3) [face_entry 0; face_entry 1; face_entry 2] /\
  3 <= length (List.filter is_valid
                 [face_entry 0; face_entry 1; face_entry 2]) /\
  get_face 0%float (hdFace3d crowded_recording) =
    Raise (IndexError tuple_index_msg) /\
  get_keypoints 0%float ([gap_recording] ++ crowded_recording :: []) =
    Raise (IndexError tuple_index_msg).
Proof.
  assert (H1 : Forall conforming [gap_recording]).
  { constructor; [exact gap_recording_conforming|constructor]. }
  assert (H2 : drop_first (hdFace3d crowded_recording) =
               [] ++ [face_entry 0; face_entry 1; face_entry 2] :: [])
    by reflexivity.
  assert (H3 : extractable 3 ([] : list (@frame float))) by constructor.
  assert (H4 : Forall (well_formed 3)
                 [face_entry 0; face_entry 1; face_entry 2]).
  { repeat constructor; by exists 70. }
  assert (H5 : 3 <= length (List.filter is_valid
                              [face_entry 0; face_entry 1; face_entry 2]))
    by (simpl; lia).
  repeat (split; [assumption|]).
  exact (third_person_aborts_corpus 0%float [gap_recording] []
           crowded_recording [] [] [face_entry 0; face_entry 1; face_entry 2]
           H1 H2 H3 H4 H5).
Defined.

(** Doubles order as the statements about [stats] need it. *)
Lemma float_inf_top (x : float) : (infinity <? x)%float = false.
Proof.
  rewrite ltb_spec. change (Prim2SF infinity) with (S754_infinity false).
  destruct (Prim2SF x) as [s|s| |s m e]; try destruct s; reflexivity.
Qed.

Lemma float_abs_nonneg (x : float) : (PrimFloat.abs x <? 0)%float = false.
Proof.
  rewrite ltb_spec, abs_spec.
  change (Prim2SF 0) with (S754_zero false).
  destruct (Prim2SF x) as [s|s| |s m e]; try destruct s; reflexivity.
Qed.

Lemma doubles_compare : compares_like_doubles double_arith.
Proof.
  split; [exact float_inf_top|]. split; [reflexivity|].
  split; [exact float_abs_nonneg|]. by repeat split.
Qed.

Lemma depth_video_is_wide :
  Forall (Forall (fun fr : list float => 112 <= length fr)) [depth_video].
Proof.
  constructor; [|constructor]. constructor; [|constructor]. simpl. lia.
Qed.

Lemma depth_video_is_padded :
  Forall2 (padded_video double_arith) [depth_video] [depth_video_padded].
Proof.
  constructor; [|constructor].
  exists [replicate 138 nan]. split; [reflexivity|].
  constructor; [|constructor]. split.
  - rewrite length_replicate. lia.
  - by apply Forall_replicate.
Qed.

Lemma integers_compare : compares_like_doubles integer_arith.
Proof.
  split; [by intros [x|]|]. split; [reflexivity|].
  split; [intros [x|]; simpl; [lia|done]|]. by repeat split.
Qed.

Lemma integer_video_is_wide :
  Forall (Forall (fun fr : list (option Z) => 112 <= length fr))
    [integer_video].
Proof.
  constructor; [|constructor]. constructor; [|constructor]. simpl. lia.
Qed.

Lemma integer_video_is_padded :
  Forall2 (padded_video integer_arith) [integer_video] [integer_video_padded].
Proof.
  constructor; [|constructor].
  exists [replicate 112 None; replicate 112 None]. split; [reflexivity|].
  repeat (constructor; [split; [simpl; lia|by apply Forall_replicate]|]).
  constructor.
Qed.

Lemma stats_ignores_padding_witness :
  compares_like_doubles double_arith /\
  Forall (Forall (fun fr : list float => 112 <= length fr)) [depth_video] /\
  Forall2 (padded_video double_arith) [depth_video] [depth_video_padded] /\
  (exists d_min d_max d_mean d_mean',
     stats double_arith [depth_video] = Ok (d_min, d_max, d_mean) /\
     stats double_arith [depth_video_padded] = Ok (d_min, d_max, d_mean') /\
     length d_mean = 1 /\ length d_mean' = 1) /\
  compares_like_doubles integer_arith /\
  exact_sums integer_arith /\
  Forall (Forall (fun fr : list (option Z) => 112 <= length fr))
    [integer_video] /\
  Forall2 (padded_video integer_arith) [integer_video] [integer_video_padded] /\
  stats integer_arith [integer_video_padded] =
    stats integer_arith [integer_video].
Proof.
  split; [exact doubles_compare|]. split; [exact depth_video_is_wide|].
  split; [exact depth_video_is_padded|].
  split.
  { destruct (stats_ignores_padding double_arith [depth_video]
                [depth_video_padded] doubles_compare depth_video_is_wide
                depth_video_is_padded)
      as (d_min & d_max & d_mean & d_mean' & R & R' & L & L' & _).
    exists d_min, d_max, d_mean, d_mean'.
    split; [exact R|]. split; [exact R'|]. split; [exact L|exact L']. }
  split; [exact integers_compare|]. split; [exact integer_arith_exact|].
  split; [exact integer_video_is_wide|].
  split; [exact integer_video_is_padded|].
  destruct (stats_ignores_padding integer_arith [integer_video]
              [integer_video_padded] integers_compare integer_video_is_wide
              integer_video_is_padded)
    as (d_min & d_max & d_mean & d_mean' & R & R' & _ & _ & _ & Hexact).
  rewrite R, R', (Hexact integer_arith_exact). reflexivity.
Defined.

Lemma stats_needs_112_entries_witness :
  Forall (Forall (fun fr : list float => 112 <= length fr)) [depth_video] /\
  Forall (fun fr : list float => 112 <= length fr) [] /\
  length (ramp 26) < 112 /\
  rectangular ([] ++ ([] ++ ramp 26 :: [ramp 26]) :: [narrow_video]) = true /\
  stats double_arith ([] ++ ([] ++ ramp 26 :: [ramp 26]) :: [narrow_video]) =
    Raise (IndexError "index 26 is out of bounds for axis 0 with size 26") /\
  rectangular ([depth_video] ++ ([] ++ ramp 26 :: []) :: []) = false /\
  stats double_arith ([depth_video] ++ ([] ++ ramp 26 :: []) :: []) =
    Raise (IndexError "list index out of range").
Proof.
  assert (H0 : Forall (Forall (fun fr : list float => 112 <= length fr)) [])
    by constructor.
  assert (H2 : Forall (fun fr : list float => 112 <= length fr) [])
    by constructor.
  assert (H3 : length (ramp 26) < 112) by (simpl; lia).
  split; [exact depth_video_is_wide|]. split; [exact H2|].
  split; [exact H3|]. split; [reflexivity|].
  split;
    [exact (proj2 (stats_needs_112_entries double_arith [] [narrow_video]
                     [] [ramp 26] (ramp 26) H0 H2) H3)|].
  split; [reflexivity|].
  exact (proj2 (stats_needs_112_entries double_arith [depth_video] []
                  [] [] (ramp 26) depth_video_is_wide H2) H3).
Defined.

